(** * Rate-limit policy store, channel gatekeeper and admission middleware

    A shallow embedding of three Go packages of the gateway:
    - [setting]    (setting/rate_limit.go): the three group-override maps,
                   their JSON accessors, updaters and validators;
    - [service]    (ShouldDisableChannel): the channel-health decision;
    - [middleware] (middleware/model-rate-limit.go): the sliding-window
                   counter on the shared backend, and the orchestrator that
                   layers the key-minute, key-daily and per-user tiers.

    Go's [int] and [int64] are 64-bit two's complement integers, embedded in
    [Z] with the wrap-around written out where the code computes. Go strings
    are byte strings, embedded as [string]. *)

From Stdlib Require Import ZArith String Ascii DecimalString DecimalZ.
From stdpp Require Import gmap strings list fin_maps.

Open Scope string_scope.
Open Scope list_scope.
Open Scope Z_scope.

(** ** Integers *)

Definition wrap64 (z : Z) : Z := (z + 2 ^ 63) mod 2 ^ 64 - 2 ^ 63.
Definition mul64 (a b : Z) : Z := wrap64 (a * b).
Definition MinInt64 : Z := - 2 ^ 63.
Definition MaxInt64 : Z := 2 ^ 63 - 1.
Definition MaxInt32 : Z := 2147483647.
Definition fits64 (z : Z) : bool := (MinInt64 <=? z) && (z <=? MaxInt64).

(** ** Strings *)

(** [strconv.Itoa], and the [%d] verb of [fmt]. *)
Definition itoa (z : Z) : string := NilEmpty.string_of_int (Z.to_int z).

(** The double-quote character, and a way to write a JSON text with ['] in
    place of it. *)
Definition dquote : ascii := ascii_of_nat 34.

Fixpoint js (s : string) : string :=
  match s with
  | EmptyString => EmptyString
  | String c r => String (if Ascii.eqb c "'" then dquote else c) (js r)
  end.

(** [strings.Contains]. *)
Fixpoint Contains (s substr : string) : bool :=
  if String.prefix substr s then true
  else match s with
       | EmptyString => false
       | String _ r => Contains r substr
       end.

(** Every character of the string passes the test. *)
Fixpoint all_chars (p : ascii -> bool) (s : string) : bool :=
  match s with
  | EmptyString => true
  | String c r => p c && all_chars p r
  end.

(** [s[n:]] *)
Fixpoint skip (n : nat) (s : string) : string :=
  match n, s with
  | S n, String _ r => skip n r
  | _, _ => s
  end.

(** ** Package unicode/utf8 *)

Module utf8.

Definition RuneError : Z := 65533.       (* U+FFFD *)
Definition RuneSelf : Z := 128.
Definition MaxRune : Z := 1114111.       (* U+10FFFF *)

Definition byte (c : ascii) : Z := Z.of_nat (nat_of_ascii c).
Definition char (b : Z) : ascii := ascii_of_nat (Z.to_nat b).

(** [acceptRanges]: the second byte that a first byte takes. *)
Definition accept_lo (s0 : Z) : Z :=
  if s0 =? 224 then 160 else if s0 =? 240 then 144 else 128.

Definition accept_hi (s0 : Z) : Z :=
  if s0 =? 237 then 159 else if s0 =? 244 then 143 else 191.

Definition continuation (b : Z) : bool := (128 <=? b) && (b <=? 191).

(** [utf8.DecodeRuneInString], and [utf8.DecodeRune] on the bytes of a string:
    the first rune and its width. A byte that starts no well-formed sequence is
    [RuneError] with width 1; overlong forms, surrogates and values above
    [MaxRune] are not well formed. *)
Definition DecodeRune (s : string) : Z * nat :=
  match s with
  | EmptyString => (RuneError, 0%nat)
  | String c0 r0 =>
      let s0 := byte c0 in
      if s0 <? RuneSelf then (s0, 1%nat)
      else if (s0 <? 194) || (244 <? s0) then (RuneError, 1%nat)
      else
        match r0 with
        | EmptyString => (RuneError, 1%nat)
        | String c1 r1 =>
            let s1 := byte c1 in
            if (s1 <? accept_lo s0) || (accept_hi s0 <? s1) then (RuneError, 1%nat)
            else if s0 <? 224 then
              (Z.lor (Z.shiftl (Z.land s0 31) 6) (Z.land s1 63), 2%nat)
            else
              match r1 with
              | EmptyString => (RuneError, 1%nat)
              | String c2 r2 =>
                  let s2 := byte c2 in
                  if negb (continuation s2) then (RuneError, 1%nat)
                  else if s0 <? 240 then
                    (Z.lor (Z.shiftl (Z.land s0 15) 12)
                       (Z.lor (Z.shiftl (Z.land s1 63) 6) (Z.land s2 63)), 3%nat)
                  else
                    match r2 with
                    | EmptyString => (RuneError, 1%nat)
                    | String c3 _ =>
                        let s3 := byte c3 in
                        if negb (continuation s3) then (RuneError, 1%nat)
                        else
                          (Z.lor (Z.shiftl (Z.land s0 7) 18)
                             (Z.lor (Z.shiftl (Z.land s1 63) 12)
                                (Z.lor (Z.shiftl (Z.land s2 63) 6) (Z.land s3 63))),
                           4%nat)
                    end
              end
        end
  end.

(** [utf8.EncodeRune]: a rune that is negative, above [MaxRune] or a surrogate
    is written as [RuneError]. *)
Definition EncodeRune (r : Z) : string :=
  if (0 <=? r) && (r <=? 127) then String (char r) EmptyString
  else if (0 <=? r) && (r <=? 2047) then
    String (char (Z.lor 192 (Z.shiftr r 6)))
      (String (char (Z.lor 128 (Z.land r 63))) EmptyString)
  else
    let r :=
      if (r <? 0) || (MaxRune <? r) || ((55296 <=? r) && (r <=? 57343))
      then RuneError else r in
    if r <=? 65535 then
      String (char (Z.lor 224 (Z.shiftr r 12)))
        (String (char (Z.lor 128 (Z.land (Z.shiftr r 6) 63)))
           (String (char (Z.lor 128 (Z.land r 63))) EmptyString))
    else
      String (char (Z.lor 240 (Z.shiftr r 18)))
        (String (char (Z.lor 128 (Z.land (Z.shiftr r 12) 63)))
           (String (char (Z.lor 128 (Z.land (Z.shiftr r 6) 63)))
              (String (char (Z.lor 128 (Z.land r 63))) EmptyString))).

End utf8.

(** ** [strings.ToLower]

    The case tables of package [unicode] are data of Go's library: what
    [unicode.To(unicode.LowerCase, r)] reads off them for a rune above ASCII
    is a parameter. *)
Class CaseTables : Type := {
  To_LowerCase : Z -> Z
}.

(** [unicode.ToLower] *)
Definition unicode_ToLower {T : CaseTables} (r : Z) : Z :=
  if r <=? 127 then
    if (65 <=? r) && (r <=? 90) then r + 32 else r
  else To_LowerCase r.

(** [strings.Map]: the runes of [s] are mapped one by one and the images
    written in UTF-8; a negative image drops the rune, and a byte of [s] that
    is no well-formed UTF-8 counts as [RuneError]. (The code copies a rune that
    the mapping leaves alone; for a well-formed rune that copy is its
    encoding.) Each step takes at least one byte, so the length of [s] is fuel
    enough. *)
Fixpoint Map_runes (fuel : nat) (mapping : Z -> Z) (s : string) : string :=
  match fuel, s with
  | S fuel, String _ _ =>
      let '(c, width) := utf8.DecodeRune s in
      let r := mapping c in
      (if 0 <=? r then utf8.EncodeRune r else EmptyString)
      +:+ Map_runes fuel mapping (skip width s)
  | _, _ => EmptyString
  end.

Definition Map (mapping : Z -> Z) (s : string) : string :=
  Map_runes (String.length s) mapping s.

Definition lower_ascii (c : ascii) : ascii :=
  let n := nat_of_ascii c in
  if (65 <=? n)%nat && (n <=? 90)%nat then ascii_of_nat (n + 32) else c.

Fixpoint lower_bytes (s : string) : string :=
  match s with
  | EmptyString => EmptyString
  | String c r => String (lower_ascii c) (lower_bytes r)
  end.

(** [strings.ToLower]: a string of ASCII bytes only has its letters [A-Z]
    lowered byte by byte; any other string goes through [Map] with
    [unicode.ToLower]. *)
Definition ToLower {T : CaseTables} (s : string) : string :=
  if all_chars (fun c => utf8.byte c <? utf8.RuneSelf) s
  then lower_bytes s
  else Map unicode_ToLower s.

(** [occurs sub s]: [sub] is a contiguous part of [s]. *)
Definition occurs (sub s : string) : Prop :=
  exists before after, s = before +:+ sub +:+ after.

(** ** Errors *)

Inductive error : Type :=
| SyntaxError                      (* *json.SyntaxError *)
| UnmarshalTypeError (value : string)  (* *json.UnmarshalTypeError *)
| Errorf (msg : string)            (* fmt.Errorf *)
| MarshalError (msg : string)      (* an error of json.Marshal *)
| RedisError                       (* a command that the backend did not answer *)
| TimeParseError.                  (* *time.ParseError *)

Definition error_message (e : error) : string :=
  match e with
  | SyntaxError => "invalid JSON"
  | UnmarshalTypeError v => "json: cannot unmarshal " +:+ v
  | Errorf m => m
  | MarshalError m => m
  | RedisError => "redis: command failed"
  | TimeParseError => "parsing time: cannot parse"
  end.

(** ** encoding/json, as far as [map[string][2]int] needs it *)

Module json.

Inductive value : Type :=
| Null
| Bool (b : bool)
| Number (literal : string)
| Str (s : string)
| Array (elems : list value)
| Object (members : list (string * value)).

Definition is_ws (c : ascii) : bool :=
  Ascii.eqb c " " || Ascii.eqb c (ascii_of_nat 9)
  || Ascii.eqb c (ascii_of_nat 10) || Ascii.eqb c (ascii_of_nat 13).

Fixpoint skip_ws (s : string) : string :=
  match s with
  | String c r => if is_ws c then skip_ws r else s
  | EmptyString => s
  end.

Definition is_digit (c : ascii) : bool :=
  let n := nat_of_ascii c in (48 <=? n)%nat && (n <=? 57)%nat.

Fixpoint digits (s : string) : string * string :=
  match s with
  | String c r =>
      if is_digit c then let '(d, rest) := digits r in (String c d, rest)
      else (EmptyString, s)
  | EmptyString => (EmptyString, s)
  end.

(** The integer part of a number: [0] or a non-empty run of digits that does
    not start with [0]. *)
Definition int_part (s : string) : option (string * string) :=
  match s with
  | String "0" r => Some ("0", r)
  | String c r =>
      if is_digit c then Some (digits s) else None
  | EmptyString => None
  end.

Definition frac_part (s : string) : option (string * string) :=
  match s with
  | String "." r =>
      match digits r with
      | (EmptyString, _) => None
      | (d, rest) => Some (String "." d, rest)
      end
  | _ => Some (EmptyString, s)
  end.

Definition exp_part (s : string) : option (string * string) :=
  match s with
  | String c r =>
      if Ascii.eqb c "e" || Ascii.eqb c "E" then
        let '(sign, r1) :=
          match r with
          | String "+" r' => ("+", r')
          | String "-" r' => ("-", r')
          | _ => (EmptyString, r)
          end in
        match digits r1 with
        | (EmptyString, _) => None
        | (d, rest) => Some (String c (sign +:+ d), rest)
        end
      else Some (EmptyString, s)
  | EmptyString => Some (EmptyString, s)
  end.

(** A number literal, returned as written. *)
Definition number (s : string) : option (string * string) :=
  let '(sign, s1) :=
    match s with
    | String "-" r => ("-", r)
    | _ => (EmptyString, s)
    end in
  match int_part s1 with
  | None => None
  | Some (i, s2) =>
      match frac_part s2 with
      | None => None
      | Some (f, s3) =>
          match exp_part s3 with
          | None => None
          | Some (e, s4) => Some (sign +:+ i +:+ f +:+ e, s4)
          end
      end
  end.

Definition hex_digit (c : ascii) : option Z :=
  let n := Z.of_nat (nat_of_ascii c) in
  if (48 <=? n) && (n <=? 57) then Some (n - 48)
  else if (97 <=? n) && (n <=? 102) then Some (n - 87)
  else if (65 <=? n) && (n <=? 70) then Some (n - 55)
  else None.

Definition hex4 (s : string) : option (Z * string) :=
  match s with
  | String a (String b (String c (String d r))) =>
      match hex_digit a, hex_digit b, hex_digit c, hex_digit d with
      | Some x, Some y, Some z, Some w =>
          Some (x * 4096 + y * 256 + z * 16 + w, r)
      | _, _, _, _ => None
      end
  | _ => None
  end.

Definition is_surrogate (cp : Z) : bool := (55296 <=? cp) && (cp <? 57344).

(** A [\uXXXX] escape, after the [\u]: a surrogate pair is combined, a lone
    surrogate becomes U+FFFD. *)
Definition unicode_escape (s : string) : option (string * string) :=
  match hex4 s with
  | None => None
  | Some (hi, r) =>
      if is_surrogate hi then
        match r with
        | String "\" (String "u" r1) =>
            match hex4 r1 with
            | Some (lo, r2) =>
                if (hi <? 56320) && (56320 <=? lo) && (lo <? 57344)
                then Some (utf8.EncodeRune ((hi - 55296) * 1024 + (lo - 56320) + 65536), r2)
                else Some (utf8.EncodeRune utf8.RuneError, r)
            | None => Some (utf8.EncodeRune utf8.RuneError, r)
            end
        | _ => Some (utf8.EncodeRune utf8.RuneError, r)
        end
      else Some (utf8.EncodeRune hi, r)
  end.

(** The body of a string literal, after its opening quote. A byte from 0x80 up
    is coerced to well-formed UTF-8: the rune at that place is decoded and
    written back, so a byte that starts no well-formed sequence becomes
    U+FFFD. *)
Fixpoint string_body (fuel : nat) (s : string) : option (string * string) :=
  match fuel with
  | O => None
  | S fuel =>
      match s with
      | EmptyString => None
      | String c r =>
          if Ascii.eqb c dquote then Some (EmptyString, r)
          else if Ascii.eqb c "\" then
            match r with
            | String e r1 =>
                let lit (x : ascii) :=
                  match string_body fuel r1 with
                  | Some (t, rest) => Some (String x t, rest)
                  | None => None
                  end in
                if Ascii.eqb e dquote then lit dquote
                else if Ascii.eqb e "\" then lit "\"%char
                else if Ascii.eqb e "/" then lit "/"%char
                else if Ascii.eqb e "b" then lit (ascii_of_nat 8)
                else if Ascii.eqb e "f" then lit (ascii_of_nat 12)
                else if Ascii.eqb e "n" then lit (ascii_of_nat 10)
                else if Ascii.eqb e "r" then lit (ascii_of_nat 13)
                else if Ascii.eqb e "t" then lit (ascii_of_nat 9)
                else if Ascii.eqb e "u" then
                  match unicode_escape r1 with
                  | Some (u, r2) =>
                      match string_body fuel r2 with
                      | Some (t, rest) => Some (u +:+ t, rest)
                      | None => None
                      end
                  | None => None
                  end
                else None
            | EmptyString => None
            end
          else if (nat_of_ascii c <? 32)%nat then None
          else if utf8.byte c <? utf8.RuneSelf then
            match string_body fuel r with
            | Some (t, rest) => Some (String c t, rest)
            | None => None
            end
          else
            let '(rr, size) := utf8.DecodeRune s in
            match string_body fuel (skip size s) with
            | Some (t, rest) => Some (utf8.EncodeRune rr +:+ t, rest)
            | None => None
            end
      end
  end.

Definition literal (word : string) (v : value) (s : string) : option (value * string) :=
  if String.prefix word s
  then Some (v, String.substring (String.length word) (String.length s - String.length word) s)
  else None.

(** One JSON value, with the input left after it. *)
Fixpoint parse_value (fuel : nat) (s : string) {struct fuel} : option (value * string) :=
  match fuel with
  | O => None
  | S fuel =>
      match skip_ws s with
      | EmptyString => None
      | String c r as s1 =>
          if Ascii.eqb c "{" then
            match skip_ws r with
            | String "}" r1 => Some (Object [], r1)
            | _ =>
                match parse_members fuel r with
                | Some (ms, r1) => Some (Object ms, r1)
                | None => None
                end
            end
          else if Ascii.eqb c "[" then
            match skip_ws r with
            | String "]" r1 => Some (Array [], r1)
            | _ =>
                match parse_elems fuel r with
                | Some (es, r1) => Some (Array es, r1)
                | None => None
                end
            end
          else if Ascii.eqb c dquote then
            match string_body (S (String.length r)) r with
            | Some (t, r1) => Some (Str t, r1)
            | None => None
            end
          else if Ascii.eqb c "t" then literal "true" (Bool true) s1
          else if Ascii.eqb c "f" then literal "false" (Bool false) s1
          else if Ascii.eqb c "n" then literal "null" Null s1
          else
            match number s1 with
            | Some (lit, r1) => Some (Number lit, r1)
            | None => None
            end
      end
  end
with parse_elems (fuel : nat) (s : string) {struct fuel} : option (list value * string) :=
  match fuel with
  | O => None
  | S fuel =>
      match parse_value fuel s with
      | None => None
      | Some (v, r) =>
          match skip_ws r with
          | String "]" r1 => Some ([v], r1)
          | String "," r1 =>
              match parse_elems fuel r1 with
              | Some (vs, r2) => Some (v :: vs, r2)
              | None => None
              end
          | _ => None
          end
      end
  end
with parse_members (fuel : nat) (s : string) {struct fuel} : option (list (string * value) * string) :=
  match fuel with
  | O => None
  | S fuel =>
      match skip_ws s with
      | String c r =>
          if Ascii.eqb c dquote then
            match string_body (S (String.length r)) r with
            | None => None
            | Some (k, r1) =>
                match skip_ws r1 with
                | String ":" r2 =>
                    match parse_value fuel r2 with
                    | None => None
                    | Some (v, r3) =>
                        match skip_ws r3 with
                        | String "}" r4 => Some ([(k, v)], r4)
                        | String "," r4 =>
                            match parse_members fuel r4 with
                            | Some (ms, r5) => Some ((k, v) :: ms, r5)
                            | None => None
                            end
                        | _ => None
                        end
                    end
                | _ => None
                end
            end
          else None
      | EmptyString => None
      end
  end.

(** The syntax check that [Unmarshal] runs before it decodes anything: one
    value, then only white space. *)
Definition parse (s : string) : option value :=
  match parse_value (S (String.length s)) s with
  | Some (v, r) =>
      match skip_ws r with
      | EmptyString => Some v
      | _ => None
      end
  | None => None
  end.

End json.

(** ** Decoding into a [map[string][2]int]

    A Go map is [nil] or a finite map; [Unmarshal] receives the map it has to
    fill and returns it with the error. A syntax error is found before anything
    is stored; a value of the wrong kind is reported, but only after the rest
    has been decoded, and the first such error is the one returned. *)

Abbreviation Limits := (Z * Z)%type.
Abbreviation GoMap := (option (gmap string (Z * Z))).

Module decode.

Definition digit_value (c : ascii) : Z := Z.of_nat (nat_of_ascii c) - 48.

Fixpoint decimal (acc : Z) (s : string) : option Z :=
  match s with
  | EmptyString => Some acc
  | String c r =>
      if json.is_digit c then decimal (10 * acc + digit_value c) r else None
  end.

(** [strconv.ParseInt(literal, 10, 64)] on a number literal. *)
Definition ParseInt (lit : string) : option Z :=
  let r :=
    match lit with
    | String "-" d => option_map Z.opp (decimal 0 d)
    | _ => decimal 0 lit
    end in
  match r with
  | Some z => if fits64 z then Some z else None
  | None => None
  end.

Definition first_error (a b : option error) : option error :=
  match a with
  | Some _ => a
  | None => b
  end.

Definition kind_name (v : json.value) : string :=
  match v with
  | json.Null => "null"
  | json.Bool _ => "bool"
  | json.Number _ => "number"
  | json.Str _ => "string"
  | json.Array _ => "array"
  | json.Object _ => "object"
  end.

(** A JSON value stored into an [int] that holds [cur]. *)
Definition store_int (v : json.value) (cur : Z) : Z * option error :=
  match v with
  | json.Number lit =>
      match ParseInt lit with
      | Some z => (z, None)
      | None => (cur, Some (UnmarshalTypeError ("number " +:+ lit)))
      end
  | json.Null => (cur, None)
  | _ => (cur, Some (UnmarshalTypeError (kind_name v)))
  end.

(** A JSON value stored into a zeroed [[2]int]: elements past the second are
    skipped, missing ones stay zero. *)
Definition store_pair (v : json.value) : Limits * option error :=
  match v with
  | json.Array es =>
      let '(a, ea) :=
        match es with
        | x :: _ => store_int x 0
        | [] => (0, None)
        end in
      let '(b, eb) :=
        match es with
        | _ :: y :: _ => store_int y 0
        | _ => (0, None)
        end in
      ((a, b), first_error ea eb)
  | json.Null => ((0, 0), None)
  | _ => ((0, 0), Some (UnmarshalTypeError (kind_name v)))
  end.

Fixpoint store_members (ms : list (string * json.value)) (m : gmap string (Z * Z))
  : gmap string (Z * Z) * option error :=
  match ms with
  | [] => (m, None)
  | (k, v) :: rest =>
      let '(p, e) := store_pair v in
      let '(m', e') := store_members rest (<[k := p]> m) in
      (m', first_error e e')
  end.

(** [json.Unmarshal(data, &target)]. *)
Definition Unmarshal (data : string) (target : GoMap) : GoMap * option error :=
  match json.parse data with
  | None => (target, Some SyntaxError)
  | Some json.Null => (None, None)
  | Some (json.Object ms) =>
      let '(m, e) := store_members ms (default ∅ target) in (Some m, e)
  | Some v => (target, Some (UnmarshalTypeError (kind_name v)))
  end.

End decode.

(** [make(map[string][2]int)] *)
Definition make_map : GoMap := Some ∅.

(** [m[group]] with its presence flag; a nil map has no entry. *)
Definition map_index (m : GoMap) (group : string) : option Limits :=
  match m with
  | Some g => g !! group
  | None => None
  end.

(** [for group, limits := range m]: Go visits the entries in an order of its
    own choosing, which a [Range] stands for. *)
Definition Range := gmap string (Z * Z) -> list (string * Limits).

Definition any_order (range : Range) : Prop :=
  forall m, range m ≡ₚ map_to_list m.

Definition range_over (range : Range) (m : GoMap) : list (string * Limits) :=
  match m with
  | Some g => range g
  | None => []
  end.

(** * Package setting *)

Module setting.

Record Settings : Type := {
  (* per-user *)
  ModelRequestRateLimitEnabled : bool;
  ModelRequestRateLimitDurationMinutes : Z;
  ModelRequestRateLimitCount : Z;
  ModelRequestRateLimitSuccessCount : Z;
  ModelRequestRateLimitGroup : GoMap;
  (* per-key, minutes *)
  TokenRateLimitEnabled : bool;
  TokenRateLimitDurationMinutes : Z;
  TokenRateLimitCount : Z;
  TokenRateLimitSuccessCount : Z;
  TokenRateLimitGroup : GoMap;
  (* per-key, daily *)
  TokenDailyRateLimitEnabled : bool;
  TokenDailyRateLimitCount : Z;
  TokenDailyRateLimitSuccessCount : Z;
  TokenDailyRateLimitGroup : GoMap
}.

(** The package's variables as they are initialised. *)
Definition initial : Settings := {|
  ModelRequestRateLimitEnabled := false;
  ModelRequestRateLimitDurationMinutes := 1;
  ModelRequestRateLimitCount := 0;
  ModelRequestRateLimitSuccessCount := 1000;
  ModelRequestRateLimitGroup := make_map;
  TokenRateLimitEnabled := false;
  TokenRateLimitDurationMinutes := 1;
  TokenRateLimitCount := 0;
  TokenRateLimitSuccessCount := 0;
  TokenRateLimitGroup := make_map;
  TokenDailyRateLimitEnabled := false;
  TokenDailyRateLimitCount := 0;
  TokenDailyRateLimitSuccessCount := 0;
  TokenDailyRateLimitGroup := make_map
|}.

Definition set_ModelRequestRateLimitGroup (m : GoMap) (s : Settings) : Settings := {|
  ModelRequestRateLimitEnabled := ModelRequestRateLimitEnabled s;
  ModelRequestRateLimitDurationMinutes := ModelRequestRateLimitDurationMinutes s;
  ModelRequestRateLimitCount := ModelRequestRateLimitCount s;
  ModelRequestRateLimitSuccessCount := ModelRequestRateLimitSuccessCount s;
  ModelRequestRateLimitGroup := m;
  TokenRateLimitEnabled := TokenRateLimitEnabled s;
  TokenRateLimitDurationMinutes := TokenRateLimitDurationMinutes s;
  TokenRateLimitCount := TokenRateLimitCount s;
  TokenRateLimitSuccessCount := TokenRateLimitSuccessCount s;
  TokenRateLimitGroup := TokenRateLimitGroup s;
  TokenDailyRateLimitEnabled := TokenDailyRateLimitEnabled s;
  TokenDailyRateLimitCount := TokenDailyRateLimitCount s;
  TokenDailyRateLimitSuccessCount := TokenDailyRateLimitSuccessCount s;
  TokenDailyRateLimitGroup := TokenDailyRateLimitGroup s
|}.

Definition set_TokenRateLimitGroup (m : GoMap) (s : Settings) : Settings := {|
  ModelRequestRateLimitEnabled := ModelRequestRateLimitEnabled s;
  ModelRequestRateLimitDurationMinutes := ModelRequestRateLimitDurationMinutes s;
  ModelRequestRateLimitCount := ModelRequestRateLimitCount s;
  ModelRequestRateLimitSuccessCount := ModelRequestRateLimitSuccessCount s;
  ModelRequestRateLimitGroup := ModelRequestRateLimitGroup s;
  TokenRateLimitEnabled := TokenRateLimitEnabled s;
  TokenRateLimitDurationMinutes := TokenRateLimitDurationMinutes s;
  TokenRateLimitCount := TokenRateLimitCount s;
  TokenRateLimitSuccessCount := TokenRateLimitSuccessCount s;
  TokenRateLimitGroup := m;
  TokenDailyRateLimitEnabled := TokenDailyRateLimitEnabled s;
  TokenDailyRateLimitCount := TokenDailyRateLimitCount s;
  TokenDailyRateLimitSuccessCount := TokenDailyRateLimitSuccessCount s;
  TokenDailyRateLimitGroup := TokenDailyRateLimitGroup s
|}.

Definition set_TokenDailyRateLimitGroup (m : GoMap) (s : Settings) : Settings := {|
  ModelRequestRateLimitEnabled := ModelRequestRateLimitEnabled s;
  ModelRequestRateLimitDurationMinutes := ModelRequestRateLimitDurationMinutes s;
  ModelRequestRateLimitCount := ModelRequestRateLimitCount s;
  ModelRequestRateLimitSuccessCount := ModelRequestRateLimitSuccessCount s;
  ModelRequestRateLimitGroup := ModelRequestRateLimitGroup s;
  TokenRateLimitEnabled := TokenRateLimitEnabled s;
  TokenRateLimitDurationMinutes := TokenRateLimitDurationMinutes s;
  TokenRateLimitCount := TokenRateLimitCount s;
  TokenRateLimitSuccessCount := TokenRateLimitSuccessCount s;
  TokenRateLimitGroup := TokenRateLimitGroup s;
  TokenDailyRateLimitEnabled := TokenDailyRateLimitEnabled s;
  TokenDailyRateLimitCount := TokenDailyRateLimitCount s;
  TokenDailyRateLimitSuccessCount := TokenDailyRateLimitSuccessCount s;
  TokenDailyRateLimitGroup := m
|}.

(** The three scopes of the policy store. *)
Inductive Scope : Type := User | KeyMinute | KeyDaily.

Definition overrides (sc : Scope) (s : Settings) : GoMap :=
  match sc with
  | User => ModelRequestRateLimitGroup s
  | KeyMinute => TokenRateLimitGroup s
  | KeyDaily => TokenDailyRateLimitGroup s
  end.

(** *** Accessors

    [json.Marshal] is a parameter: it returns the bytes ([None] is a nil
    slice) and the error. [common.SysLog] appends a line to the system log. *)

Definition Marshaller := GoMap -> option string * option error.

Definition string_of_bytes (b : option string) : string := default "" b.

Definition Group2JSONString (Marshal : Marshaller) (what : string) (m : GoMap)
    (syslog : list string) : string * list string :=
  let '(jsonBytes, err) := Marshal m in
  let syslog :=
    match err with
    | Some e => syslog ++ [what +:+ error_message e]
    | None => syslog
    end in
  (string_of_bytes jsonBytes, syslog).

Definition ModelRequestRateLimitGroup2JSONString (Marshal : Marshaller)
    (s : Settings) (syslog : list string) : string * list string :=
  Group2JSONString Marshal "error marshalling model ratio: "
    (ModelRequestRateLimitGroup s) syslog.

Definition TokenRateLimitGroup2JSONString (Marshal : Marshaller)
    (s : Settings) (syslog : list string) : string * list string :=
  Group2JSONString Marshal "error marshalling token rate limit group: "
    (TokenRateLimitGroup s) syslog.

Definition TokenDailyRateLimitGroup2JSONString (Marshal : Marshaller)
    (s : Settings) (syslog : list string) : string * list string :=
  Group2JSONString Marshal "error marshalling token daily rate limit group: "
    (TokenDailyRateLimitGroup s) syslog.

Definition ToJSON (Marshal : Marshaller) (sc : Scope) :=
  match sc with
  | User => ModelRequestRateLimitGroup2JSONString Marshal
  | KeyMinute => TokenRateLimitGroup2JSONString Marshal
  | KeyDaily => TokenDailyRateLimitGroup2JSONString Marshal
  end.

(** *** Updates: the variable is first replaced by a new empty map, which
    [Unmarshal] then fills. *)

Definition UpdateModelRequestRateLimitGroupByJSONString (jsonStr : string)
    (s : Settings) : Settings * option error :=
  let s := set_ModelRequestRateLimitGroup make_map s in
  let '(m, err) := decode.Unmarshal jsonStr (ModelRequestRateLimitGroup s) in
  (set_ModelRequestRateLimitGroup m s, err).

Definition UpdateTokenRateLimitGroupByJSONString (jsonStr : string)
    (s : Settings) : Settings * option error :=
  let s := set_TokenRateLimitGroup make_map s in
  let '(m, err) := decode.Unmarshal jsonStr (TokenRateLimitGroup s) in
  (set_TokenRateLimitGroup m s, err).

Definition UpdateTokenDailyRateLimitGroupByJSONString (jsonStr : string)
    (s : Settings) : Settings * option error :=
  let s := set_TokenDailyRateLimitGroup make_map s in
  let '(m, err) := decode.Unmarshal jsonStr (TokenDailyRateLimitGroup s) in
  (set_TokenDailyRateLimitGroup m s, err).

Definition UpdatePolicy (sc : Scope) :=
  match sc with
  | User => UpdateModelRequestRateLimitGroupByJSONString
  | KeyMinute => UpdateTokenRateLimitGroupByJSONString
  | KeyDaily => UpdateTokenDailyRateLimitGroupByJSONString
  end.

(** *** Lookups: [(totalCount, successCount, found)] *)

Definition lookup_limits (m : GoMap) (group : string) : Z * Z * bool :=
  match m with
  | None => (0, 0, false)
  | Some _ =>
      match map_index m group with
      | None => (0, 0, false)
      | Some limits => (fst limits, snd limits, true)
      end
  end.

Definition GetGroupRateLimit (s : Settings) (group : string) : Z * Z * bool :=
  lookup_limits (ModelRequestRateLimitGroup s) group.

Definition GetTokenRateLimit (s : Settings) (group : string) : Z * Z * bool :=
  lookup_limits (TokenRateLimitGroup s) group.

Definition GetTokenDailyRateLimit (s : Settings) (group : string) : Z * Z * bool :=
  lookup_limits (TokenDailyRateLimitGroup s) group.

(** *** Validators

    The three loops differ in one constant, the least success limit they let
    through: [limits[1] < 1] for the per-user map, [limits[1] < 0] for the two
    per-key maps. *)

Definition negative_message (group : string) (limits : Limits) : string :=
  "group " +:+ group +:+ " has negative rate limit values: ["
  +:+ itoa (fst limits) +:+ ", " +:+ itoa (snd limits) +:+ "]".

Definition max_message (group : string) (limits : Limits) : string :=
  "group " +:+ group +:+ " [" +:+ itoa (fst limits) +:+ ", "
  +:+ itoa (snd limits) +:+ "] has max rate limits value 2147483647".

Fixpoint check_entries (least : Z) (entries : list (string * Limits)) : option error :=
  match entries with
  | [] => None
  | (group, limits) :: rest =>
      if (fst limits <? 0) || (snd limits <? least) then
        Some (Errorf (negative_message group limits))
      else if (fst limits >? MaxInt32) || (snd limits >? MaxInt32) then
        Some (Errorf (max_message group limits))
      else check_entries least rest
  end.

Definition check_group (least : Z) (range : Range) (jsonStr : string) : option error :=
  let '(m, err) := decode.Unmarshal jsonStr make_map in
  match err with
  | Some e => Some e
  | None => check_entries least (range_over range m)
  end.

Definition CheckModelRequestRateLimitGroup : Range -> string -> option error :=
  check_group 1.

Definition CheckTokenRateLimitGroup : Range -> string -> option error :=
  check_group 0.

Definition CheckTokenDailyRateLimitGroup : Range -> string -> option error :=
  check_group 0.

(** The lookup and the validator of a scope, and the bounds the validator of
    the scope puts on an entry. *)
Definition GetPolicy (sc : Scope) : Settings -> string -> Z * Z * bool :=
  match sc with
  | User => GetGroupRateLimit
  | KeyMinute => GetTokenRateLimit
  | KeyDaily => GetTokenDailyRateLimit
  end.

Definition CheckPolicy (sc : Scope) : Range -> string -> option error :=
  match sc with
  | User => CheckModelRequestRateLimitGroup
  | KeyMinute => CheckTokenRateLimitGroup
  | KeyDaily => CheckTokenDailyRateLimitGroup
  end.

Definition least_success (sc : Scope) : Z :=
  match sc with
  | User => 1
  | KeyMinute | KeyDaily => 0
  end.

Definition in_range (least : Z) (limits : Limits) : Prop :=
  0 <= fst limits <= MaxInt32 /\ least <= snd limits <= MaxInt32.

(** The scalar settings, which no update of a map touches. *)
Definition scalars (s : Settings) : (bool * Z * Z * Z) * (bool * Z * Z * Z) * (bool * Z * Z) :=
  ((ModelRequestRateLimitEnabled s, ModelRequestRateLimitDurationMinutes s,
    ModelRequestRateLimitCount s, ModelRequestRateLimitSuccessCount s),
   (TokenRateLimitEnabled s, TokenRateLimitDurationMinutes s,
    TokenRateLimitCount s, TokenRateLimitSuccessCount s),
   (TokenDailyRateLimitEnabled s, TokenDailyRateLimitCount s,
    TokenDailyRateLimitSuccessCount s)).

End setting.

(** * Package service: the channel-health gatekeeper *)

Module service.

Section Service.

Context {T : CaseTables}.

(** What [ShouldDisableChannel] reads of a [*types.NewAPIError]: the result of
    [Error()], the field [StatusCode] and the result of [GetErrorType()]. *)
Record NewAPIError : Type := {
  Error : string;
  StatusCode : Z;
  GetErrorType : string
}.

Definition transient (errMsg : string) : bool :=
  Contains errMsg "no candidates returned"
  || Contains errMsg "deadline exceeded"
  || Contains errMsg "timeout"
  || Contains errMsg "connect"
  || Contains errMsg "do request failed"
  || Contains errMsg "provider returned error"
  || Contains errMsg "internal server error"
  || Contains errMsg "no response received".

(** [err] is a pointer: [None] is [nil]. *)
Definition ShouldDisableChannel (AutomaticDisableChannelEnabled : bool)
    (channelId : Z) (err : option NewAPIError) : bool :=
  if negb AutomaticDisableChannelEnabled then false
  else
    match err with
    | None => false
    | Some err =>
        let errMsg := ToLower (Error err) in
        if transient errMsg then false
        else if StatusCode err =? 401 then true
        else if StatusCode err =? 429 then false
        else if StatusCode err =? 403 then true
        else if String.eqb (GetErrorType err) "insufficient_quota" then true
        else false
    end.

End Service.

End service.

(** * The shared backend: lists of time stamps with an expiry

    A key holds a list, newest entry first, and possibly a deadline; a key past
    its deadline is gone, and so is a key whose list is empty. The entries are
    the time stamps that [recordRedisRequest] pushes, in seconds ([timeFormat]
    is declared elsewhere in the package; the entries are kept as the times
    they denote). When the backend is down every command fails. *)

Module Redis.

Record t : Type := {
  data : gmap string (list Z * option Z);
  up : bool
}.

Definition with_data (d : gmap string (list Z * option Z)) (r : t) : t :=
  {| data := d; up := up r |}.

Definition get (now : Z) (key : string) (r : t) : option (list Z * option Z) :=
  match data r !! key with
  | Some (l, Some deadline) =>
      if deadline <=? now then None else Some (l, Some deadline)
  | o => o
  end.

Definition put (key : string) (l : list Z) (deadline : option Z) (r : t) : t :=
  match l with
  | [] => with_data (delete key (data r)) r
  | _ => with_data (<[key := (l, deadline)]> (data r)) r
  end.

Definition index (len i : Z) : Z := if i <? 0 then len + i else i.

Definition LLen (now : Z) (key : string) (r : t) : option Z :=
  if up r then
    match get now key r with
    | Some (l, _) => Some (Z.of_nat (length l))
    | None => Some 0
    end
  else None.

Definition LIndex (now : Z) (key : string) (i : Z) (r : t) : option Z :=
  if up r then
    match get now key r with
    | Some (l, _) =>
        let j := index (Z.of_nat (length l)) i in
        if j <? 0 then None else l !! Z.to_nat j
    | None => None
    end
  else None.

Definition LPush (now : Z) (key : string) (v : Z) (r : t) : t :=
  if up r then
    match get now key r with
    | Some (l, d) => put key (v :: l) d r
    | None => put key [v] None r
    end
  else r.

Definition LTrim (now : Z) (key : string) (start stop : Z) (r : t) : t :=
  if up r then
    match get now key r with
    | Some (l, d) =>
        let len := Z.of_nat (length l) in
        let s := Z.max 0 (index len start) in
        let e := Z.min (len - 1) (index len stop) in
        if (s >? e) || (s >=? len) then put key [] d r
        else put key (take (Z.to_nat (e - s + 1)) (drop (Z.to_nat s) l)) d r
    | None => r
    end
  else r.

Definition Expire (now : Z) (key : string) (seconds : Z) (r : t) : t :=
  if up r then
    match get now key r with
    | Some (l, _) =>
        if seconds <=? 0 then put key [] None r
        else put key l (Some (now + seconds)) r
    | None => r
    end
  else r.

End Redis.

(** * Package middleware *)

Module middleware.

Import setting.

(** The operations on counters, in the order in which the middleware issues
    them, and the call of the protected handler. *)
Inductive event : Type :=
| LLen (key : string)
| LIndex (key : string) (i : Z)
| Expire (key : string) (seconds : Z)
| LPush (key : string) (stamp : Z)
| LTrim (key : string) (start stop : Z)
| Allow (key : string) (capacity rate requested : Z)
| MemInit (expiration : Z)      (* a duration, in nanoseconds *)
| MemRequest (key : string) (maxRequestNum duration : Z)
| Handler.

(** The two limiters of package common that this file calls: the token bucket
    on the shared backend, [limiter.New(ctx, rdb).Allow], and the in-process
    limiter, [inMemoryRateLimiter]. Each has a state of its own; the clock is
    the first argument after the state. *)
Class Limiters : Type := {
  Bucket : Type;
  Store : Type;
  tb_Allow : Bucket -> Z -> string -> Z -> Z -> Z -> (bool + error) * Bucket;
  mem_Init : Store -> Z -> Store;
  mem_Request : Store -> Z -> string -> Z -> Z -> bool * Store
}.

(** What the middleware reads of the request: [c.GetInt("id")], the token id,
    the token's group and the user's group. *)
Record Request : Type := {
  id : Z;
  token_id : Z;
  token_group : string;
  user_group : string
}.

Section Middleware.

Context {L : Limiters}.

Record World : Type := {
  now : Z;                       (* time.Now(), in seconds *)
  rdb : Redis.t;                 (* common.RDB *)
  buckets : Bucket;
  mem : Store;                   (* inMemoryRateLimiter *)
  trace : list event;
  stdout : list string;          (* fmt.Println *)
  status : Z;                    (* c.Writer.Status() *)
  aborted : bool;                (* c.IsAborted() *)
  body : list (Z * string)       (* the error responses written *)
}.

Definition emit (e : event) (w : World) : World :=
  {| now := now w; rdb := rdb w; buckets := buckets w; mem := mem w;
     trace := trace w ++ [e]; stdout := stdout w; status := status w;
     aborted := aborted w; body := body w |}.

Definition set_rdb (r : Redis.t) (w : World) : World :=
  {| now := now w; rdb := r; buckets := buckets w; mem := mem w;
     trace := trace w; stdout := stdout w; status := status w;
     aborted := aborted w; body := body w |}.

Definition set_buckets (b : Bucket) (w : World) : World :=
  {| now := now w; rdb := rdb w; buckets := b; mem := mem w;
     trace := trace w; stdout := stdout w; status := status w;
     aborted := aborted w; body := body w |}.

Definition set_mem (m : Store) (w : World) : World :=
  {| now := now w; rdb := rdb w; buckets := buckets w; mem := m;
     trace := trace w; stdout := stdout w; status := status w;
     aborted := aborted w; body := body w |}.

Definition Println (line : string) (w : World) : World :=
  {| now := now w; rdb := rdb w; buckets := buckets w; mem := mem w;
     trace := trace w; stdout := stdout w ++ [line]; status := status w;
     aborted := aborted w; body := body w |}.

(** [c.Status(code); c.Abort()] *)
Definition StatusAbort (code : Z) (w : World) : World :=
  {| now := now w; rdb := rdb w; buckets := buckets w; mem := mem w;
     trace := trace w; stdout := stdout w; status := code;
     aborted := true; body := body w |}.

(** Modelled from the spec: [abortWithOpenAiMessage], which this file calls
    and another file of the package declares. It writes the caller-visible
    error response with the given status and message, and aborts the chain. *)
Definition abortWithOpenAiMessage (statusCode : Z) (message : string) (w : World) : World :=
  {| now := now w; rdb := rdb w; buckets := buckets w; mem := mem w;
     trace := trace w; stdout := stdout w; status := statusCode;
     aborted := true; body := body w ++ [(statusCode, message)] |}.

Definition set_trace (t : list event) (w : World) : World :=
  {| now := now w; rdb := rdb w; buckets := buckets w; mem := mem w;
     trace := t; stdout := stdout w; status := status w;
     aborted := aborted w; body := body w |}.

(** [c.Next()]: the rest of the chain runs unless the context is aborted. The
    rest of the chain may change the clock, the backends and the response; the
    trace is the record of what this middleware does, and gets one entry. *)
Definition Next (next : World -> World) (w : World) : World :=
  if aborted w then w
  else
    let w := emit Handler w in
    set_trace (trace w) (next w).

(** *** Commands, each leaving its mark in the trace *)

Definition rdb_LLen (key : string) (w : World) : option Z * World :=
  (Redis.LLen (now w) key (rdb w), emit (LLen key) w).

Definition rdb_LIndex (key : string) (i : Z) (w : World) : option Z * World :=
  (Redis.LIndex (now w) key i (rdb w), emit (LIndex key i) w).

Definition rdb_Expire (key : string) (seconds : Z) (w : World) : World :=
  emit (Expire key seconds) (set_rdb (Redis.Expire (now w) key seconds (rdb w)) w).

Definition rdb_LPush (key : string) (v : Z) (w : World) : World :=
  emit (LPush key v) (set_rdb (Redis.LPush (now w) key v (rdb w)) w).

Definition rdb_LTrim (key : string) (start stop : Z) (w : World) : World :=
  emit (LTrim key start stop) (set_rdb (Redis.LTrim (now w) key start stop (rdb w)) w).

Definition tb_allow (key : string) (capacity rate requested : Z) (w : World)
  : (bool + error) * World :=
  let '(r, b) := tb_Allow (buckets w) (now w) key capacity rate requested in
  (r, emit (Allow key capacity rate requested) (set_buckets b w)).

Definition inMemoryRateLimiter_Init (expiration : Z) (w : World) : World :=
  emit (MemInit expiration) (set_mem (mem_Init (mem w) expiration) w).

Definition inMemoryRateLimiter_Request (key : string) (maxRequestNum duration : Z)
    (w : World) : bool * World :=
  let '(ok, m) := mem_Request (mem w) (now w) key maxRequestNum duration in
  (ok, emit (MemRequest key maxRequestNum duration) (set_mem m w)).

(** Durations are [int64] nanoseconds: [time.Second], [time.Minute],
    [time.Hour], and [time.Duration(minutes) * time.Minute]. *)
Definition Second : Z := 1000000000.
Definition Minute : Z := 60 * Second.
Definition Hour : Z := 60 * Minute.

Definition minutes_duration (minutes : Z) : Z := mul64 minutes Minute.

(** [formatSec] of the client library: the seconds that [rdb.Expire] sends
    for a duration. The duration is cut to whole seconds, and a positive
    duration below one second is sent as 1. *)
Definition formatSec (dur : Z) : Z :=
  if (0 <? dur) && (dur <? Second) then 1 else Z.quot dur Second.

(** What [rdb.Expire(ctx, key, time.Duration(minutes)*time.Minute)] sends. *)
Definition minutes_seconds (minutes : Z) : Z :=
  formatSec (minutes_duration minutes).

Variable cfg : Settings.
Variable RedisEnabled : bool.      (* common.RedisEnabled *)

Definition StatusInternalServerError : Z := 500.
Definition StatusTooManyRequests : Z := 429.

Definition ModelRequestRateLimitCountMark := "MRRL".
Definition ModelRequestRateLimitSuccessCountMark := "MRRLS".

(** [fmt.Sprintf("rateLimit:%s:%s", mark, key)] *)
Definition marked_key (mark key : string) : string :=
  "rateLimit:" +:+ mark +:+ ":" +:+ key.

(** [fmt.Sprintf(format, minutes, count)] for a format [a%db%dc]. *)
Definition Sprintf2 (a b c : string) (minutes count : Z) : string :=
  a +:+ itoa minutes +:+ b +:+ itoa count +:+ c.

Definition checkRedisRateLimit (key : string) (maxCount duration : Z) (w : World)
  : (bool * option error) * World :=
  if maxCount =? 0 then ((true, None), w)
  else
    let '(length, w) := rdb_LLen key w in
    match length with
    | None => ((false, Some RedisError), w)
    | Some length =>
        if length <? maxCount then ((true, None), w)
        else
          let '(oldTimeStr, w) := rdb_LIndex key (-1) w in
          match oldTimeStr with
          | None => ((false, Some TimeParseError), w)
          | Some oldTime =>
              let nowTime := now w in
              let subTime := nowTime - oldTime in
              if subTime <? duration then
                let w := rdb_Expire key
                           (minutes_seconds (ModelRequestRateLimitDurationMinutes cfg)) w in
                ((false, None), w)
              else ((true, None), w)
          end
    end.

Definition recordRedisRequest (key : string) (maxCount : Z) (w : World) : World :=
  if maxCount =? 0 then w
  else
    let now := now w in
    let w := rdb_LPush key now w in
    let w := rdb_LTrim key 0 (maxCount - 1) w in
    rdb_Expire key (minutes_seconds (ModelRequestRateLimitDurationMinutes cfg)) w.

Definition user_success_message (successMaxCount : Z) : string :=
  Sprintf2 "您已达到请求数限制：" "分钟内最多请求" "次"
    (ModelRequestRateLimitDurationMinutes cfg) successMaxCount.

Definition user_total_message (totalMaxCount : Z) : string :=
  Sprintf2 "您已达到总请求数限制：" "分钟内最多请求"
    "次，包括失败次数，请检查您的请求是否正确"
    (ModelRequestRateLimitDurationMinutes cfg) totalMaxCount.

(** The per-user handler on the shared backend. When the token bucket refuses,
    the response is written and the function goes on to [c.Next()], which an
    aborted context turns into nothing. *)
Definition redisRateLimitHandler (duration totalMaxCount successMaxCount : Z)
    (c : Request) (next : World -> World) (w : World) : World :=
  let userId := id c in
  let rateLimitKey := itoa userId in
  let successKey := marked_key ModelRequestRateLimitSuccessCountMark rateLimitKey in
  let finish (w : World) : World :=
    let w := Next next w in
    if status w <? 400 then recordRedisRequest successKey successMaxCount w else w in
  let '((allowed, err), w) := checkRedisRateLimit successKey successMaxCount duration w in
  match err with
  | Some e =>
      let w := Println ("检查成功请求数限制失败: " +:+ error_message e) w in
      abortWithOpenAiMessage StatusInternalServerError "rate_limit_check_failed" w
  | None =>
      if negb allowed then
        abortWithOpenAiMessage StatusTooManyRequests (user_success_message successMaxCount) w
      else if totalMaxCount >? 0 then
        let totalKey := "rateLimit:" +:+ rateLimitKey in
        let '(r, w) := tb_allow totalKey (mul64 totalMaxCount duration)
                         totalMaxCount duration w in
        match r with
        | inr e =>
            let w := Println ("检查总请求数限制失败: " +:+ error_message e) w in
            abortWithOpenAiMessage StatusInternalServerError "rate_limit_check_failed" w
        | inl allowed =>
            let w :=
              if negb allowed then
                abortWithOpenAiMessage StatusTooManyRequests
                  (user_total_message totalMaxCount) w
              else w in
            finish w
        end
      else finish w
  end.

(** The per-user handler on the in-process limiter. *)
Definition memoryRateLimitHandler (duration totalMaxCount successMaxCount : Z)
    (c : Request) (next : World -> World) (w : World) : World :=
  let w := inMemoryRateLimiter_Init
             (minutes_duration (ModelRequestRateLimitDurationMinutes cfg)) w in
  let userId := id c in
  let rateLimitKey := itoa userId in
  let totalKey := ModelRequestRateLimitCountMark +:+ rateLimitKey in
  let successKey := ModelRequestRateLimitSuccessCountMark +:+ rateLimitKey in
  let '(total_ok, w) :=
    if totalMaxCount >? 0
    then inMemoryRateLimiter_Request totalKey totalMaxCount duration w
    else (true, w) in
  if negb total_ok then StatusAbort StatusTooManyRequests w
  else
    let checkKey := successKey +:+ "_check" in
    let '(ok, w) := inMemoryRateLimiter_Request checkKey successMaxCount duration w in
    if negb ok then StatusAbort StatusTooManyRequests w
    else
      let w := Next next w in
      if status w <? 400 then
        snd (inMemoryRateLimiter_Request successKey successMaxCount duration w)
      else w.

Definition TokenRateLimitCountMark := "TRL".
Definition TokenRateLimitSuccessCountMark := "TRLS".
Definition TokenDailyRateLimitCountMark := "TDRL".
Definition TokenDailyRateLimitSuccessCountMark := "TDRLS".

Definition key_success_message (successMaxCount : Z) : string :=
  Sprintf2 "您已达到密钥请求数限制：" "分钟内最多请求" "次"
    (TokenRateLimitDurationMinutes cfg) successMaxCount.

Definition key_total_message (totalMaxCount : Z) : string :=
  Sprintf2 "您已达到密钥总请求数限制：" "分钟内最多请求" "次（包括失败请求）"
    (TokenRateLimitDurationMinutes cfg) totalMaxCount.

Definition daily_success_message : string := "您已达到每日请求数限制".
Definition daily_total_message : string := "您已达到每日总请求数限制（包括失败请求）".

(** The two per-key checks on the shared backend have one shape; they differ
    in the marks of their keys, in the two lines they print and in the two
    messages they send. First the second half of the shape, the token bucket. *)
Definition check_total_redis (totalMark totalLog totalMessage : string)
    (rateLimitKey : string) (totalMaxCount duration : Z) (w : World) : bool * World :=
  if totalMaxCount >? 0 then
    let totalKey := marked_key totalMark rateLimitKey in
    let '(r, w) := tb_allow totalKey (mul64 totalMaxCount duration)
                     totalMaxCount duration w in
    match r with
    | inr e =>
        let w := Println (totalLog +:+ " " +:+ error_message e) w in
        (false, abortWithOpenAiMessage StatusInternalServerError
                  "rate_limit_check_failed" w)
    | inl allowed =>
        if negb allowed then
          (false, abortWithOpenAiMessage StatusTooManyRequests totalMessage w)
        else (true, w)
    end
  else (true, w).

Definition check_key_redis (successMark totalMark successLog totalLog : string)
    (successMessage totalMessage : string)
    (rateLimitKey : string) (totalMaxCount successMaxCount duration : Z)
    (w : World) : bool * World :=
  if successMaxCount >? 0 then
    let successKey := marked_key successMark rateLimitKey in
    let '((allowed, err), w) := checkRedisRateLimit successKey successMaxCount duration w in
    match err with
    | Some e =>
        let w := Println (successLog +:+ " " +:+ error_message e) w in
        (false, abortWithOpenAiMessage StatusInternalServerError
                  "rate_limit_check_failed" w)
    | None =>
        if negb allowed then
          (false, abortWithOpenAiMessage StatusTooManyRequests successMessage w)
        else
          check_total_redis totalMark totalLog totalMessage rateLimitKey
            totalMaxCount duration w
    end
  else
    check_total_redis totalMark totalLog totalMessage rateLimitKey
      totalMaxCount duration w.

Definition checkTokenRateLimitRedis (rateLimitKey : string)
    (totalMaxCount successMaxCount duration : Z) (w : World) : bool * World :=
  check_key_redis TokenRateLimitSuccessCountMark TokenRateLimitCountMark
    "检查密钥成功请求数限制失败:" "检查密钥总请求数限制失败:"
    (key_success_message successMaxCount) (key_total_message totalMaxCount)
    rateLimitKey totalMaxCount successMaxCount duration w.

Definition checkTokenDailyRateLimitRedis (rateLimitKey : string)
    (totalMaxCount successMaxCount duration : Z) (w : World) : bool * World :=
  check_key_redis TokenDailyRateLimitSuccessCountMark TokenDailyRateLimitCountMark
    "检查每日成功请求数限制失败:" "检查每日总请求数限制失败:"
    daily_success_message daily_total_message
    rateLimitKey totalMaxCount successMaxCount duration w.

(** Likewise for the two per-key checks on the in-process limiter. *)
Definition check_key_memory (expiration : Z) (successMark totalMark : string)
    (successMessage totalMessage : string)
    (rateLimitKey : string) (totalMaxCount successMaxCount duration : Z)
    (w : World) : bool * World :=
  let w := inMemoryRateLimiter_Init expiration w in
  let totalKey := totalMark +:+ rateLimitKey in
  let successKey := successMark +:+ rateLimitKey in
  let '(total_ok, w) :=
    if totalMaxCount >? 0
    then inMemoryRateLimiter_Request totalKey totalMaxCount duration w
    else (true, w) in
  if negb total_ok then
    (false, abortWithOpenAiMessage StatusTooManyRequests totalMessage w)
  else if successMaxCount >? 0 then
    let checkKey := successKey +:+ "_check" in
    let '(ok, w) := inMemoryRateLimiter_Request checkKey successMaxCount duration w in
    if negb ok then
      (false, abortWithOpenAiMessage StatusTooManyRequests successMessage w)
    else (true, w)
  else (true, w).

Definition checkTokenRateLimitMemory (rateLimitKey : string)
    (totalMaxCount successMaxCount duration : Z) (w : World) : bool * World :=
  check_key_memory (minutes_duration (TokenRateLimitDurationMinutes cfg))
    TokenRateLimitSuccessCountMark TokenRateLimitCountMark
    (key_success_message successMaxCount) (key_total_message totalMaxCount)
    rateLimitKey totalMaxCount successMaxCount duration w.

Definition checkTokenDailyRateLimitMemory (rateLimitKey : string)
    (totalMaxCount successMaxCount duration : Z) (w : World) : bool * World :=
  check_key_memory (24 * Hour)
    TokenDailyRateLimitSuccessCountMark TokenDailyRateLimitCountMark
    daily_success_message daily_total_message
    rateLimitKey totalMaxCount successMaxCount duration w.

(** The limits of a scope for a group: the group's entry if there is one, the
    scope's own values otherwise. *)
Definition resolve (found : Z * Z * bool) (totalMaxCount successMaxCount : Z) : Z * Z :=
  let '(groupTotalCount, groupSuccessCount, found) := found in
  if found then (groupTotalCount, groupSuccessCount)
  else (totalMaxCount, successMaxCount).

Definition checkTokenRateLimit (c : Request) (w : World) : bool * World :=
  if negb (TokenRateLimitEnabled cfg) then (true, w)
  else
    let tokenId := token_id c in
    if tokenId =? 0 then (true, w)
    else
      let group := token_group c in
      let '(totalMaxCount, successMaxCount) :=
        resolve (GetTokenRateLimit cfg group)
          (TokenRateLimitCount cfg) (TokenRateLimitSuccessCount cfg) in
      if (totalMaxCount =? 0) && (successMaxCount =? 0) then (true, w)
      else
        let rateLimitKey := itoa tokenId in
        let duration := mul64 (TokenRateLimitDurationMinutes cfg) 60 in
        if RedisEnabled
        then checkTokenRateLimitRedis rateLimitKey totalMaxCount successMaxCount duration w
        else checkTokenRateLimitMemory rateLimitKey totalMaxCount successMaxCount duration w.

Definition recordTokenRateLimitSuccess (c : Request) (w : World) : World :=
  if negb (TokenRateLimitEnabled cfg) then w
  else
    let tokenId := token_id c in
    if tokenId =? 0 then w
    else
      let group := token_group c in
      let '(_, successMaxCount) :=
        resolve (GetTokenRateLimit cfg group) 0 (TokenRateLimitSuccessCount cfg) in
      if successMaxCount =? 0 then w
      else
        let rateLimitKey := itoa tokenId in
        if RedisEnabled then
          let successKey := marked_key TokenRateLimitSuccessCountMark rateLimitKey in
          recordRedisRequest successKey successMaxCount w
        else
          let duration := mul64 (TokenRateLimitDurationMinutes cfg) 60 in
          let successKey := TokenRateLimitSuccessCountMark +:+ rateLimitKey in
          snd (inMemoryRateLimiter_Request successKey successMaxCount duration w).

Definition checkTokenDailyRateLimit (c : Request) (w : World) : bool * World :=
  if negb (TokenDailyRateLimitEnabled cfg) then (true, w)
  else
    let tokenId := token_id c in
    if tokenId =? 0 then (true, w)
    else
      let group := token_group c in
      let '(totalMaxCount, successMaxCount) :=
        resolve (GetTokenDailyRateLimit cfg group)
          (TokenDailyRateLimitCount cfg) (TokenDailyRateLimitSuccessCount cfg) in
      if (totalMaxCount =? 0) && (successMaxCount =? 0) then (true, w)
      else
        let rateLimitKey := itoa tokenId in
        let duration := 86400 in
        if RedisEnabled
        then checkTokenDailyRateLimitRedis rateLimitKey totalMaxCount successMaxCount duration w
        else checkTokenDailyRateLimitMemory rateLimitKey totalMaxCount successMaxCount duration w.

Definition recordTokenDailySuccess (c : Request) (w : World) : World :=
  if negb (TokenDailyRateLimitEnabled cfg) then w
  else
    let tokenId := token_id c in
    if tokenId =? 0 then w
    else
      let group := token_group c in
      let '(_, successMaxCount) :=
        resolve (GetTokenDailyRateLimit cfg group) 0 (TokenDailyRateLimitSuccessCount cfg) in
      if successMaxCount =? 0 then w
      else
        let rateLimitKey := itoa tokenId in
        if RedisEnabled then
          let successKey := marked_key TokenDailyRateLimitSuccessCountMark rateLimitKey in
          recordRedisRequest successKey successMaxCount w
        else
          let duration := 86400 in
          let successKey := TokenDailyRateLimitSuccessCountMark +:+ rateLimitKey in
          snd (inMemoryRateLimiter_Request successKey successMaxCount duration w).

(** The two records that follow the handler in [ModelRequestRateLimit]. *)
Definition record_key_success (c : Request) (w : World) : World :=
  if status w <? 400 then
    recordTokenDailySuccess c (recordTokenRateLimitSuccess c w)
  else w.

Definition ModelRequestRateLimit (c : Request) (next : World -> World) (w : World) : World :=
  let '(ok, w) := checkTokenRateLimit c w in
  if negb ok then w
  else
    let '(ok, w) := checkTokenDailyRateLimit c w in
    if negb ok then w
    else if negb (ModelRequestRateLimitEnabled cfg) then
      let w := Next next w in
      record_key_success c w
    else
      let duration := mul64 (ModelRequestRateLimitDurationMinutes cfg) 60 in
      let userGroup := user_group c in
      let '(totalMaxCount, successMaxCount) :=
        resolve (GetGroupRateLimit cfg userGroup)
          (ModelRequestRateLimitCount cfg) (ModelRequestRateLimitSuccessCount cfg) in
      let w :=
        if RedisEnabled
        then redisRateLimitHandler duration totalMaxCount successMaxCount c next w
        else memoryRateLimitHandler duration totalMaxCount successMaxCount c next w in
      record_key_success c w.

End Middleware.

End middleware.

(** * Reading a trace *)

Module observe.

Import middleware.

(** The commands of a sliding-window check on [key]. *)
Definition window_op (key : string) (e : event) : Prop :=
  e = LLen key \/ e = LIndex key (-1) \/ exists seconds, e = Expire key seconds.

(** What [recordRedisRequest] issues for a limit other than 0. *)
Definition redis_record (seconds : Z) (key : string) (maxCount now : Z) : list event :=
  [LPush key now; LTrim key 0 (maxCount - 1); Expire key seconds].

(** What the caller is told: status, abort flag and error responses. *)
Definition response {L : Limiters} (w : World) : Z * bool * list (Z * string) :=
  (status w, aborted w, body w).

(** The outcome of an admission check that started in [w]: the clock stands
    still, the handler is not called, and the check either passes and leaves
    the response alone or fails with the chain aborted and an error status. *)
Definition admission {L : Limiters} (w : World) (r : bool * World) : Prop :=
  now (snd r) = now w
  /\ exists added,
      trace (snd r) = trace w ++ added
      /\ Forall (fun e => e <> Handler) added
      /\ ((fst r = true /\ response (snd r) = response w)
          \/ (fst r = false /\ aborted (snd r) = true /\ 400 <= status (snd r))).

Section Expected.

Import setting.

Variable cfg : Settings.
Variable RedisEnabled : bool.

(** The limits [(total, success)] in force for a request in each scope. *)
Definition minute_limits (c : Request) : Z * Z :=
  resolve (GetTokenRateLimit cfg (token_group c))
    (TokenRateLimitCount cfg) (TokenRateLimitSuccessCount cfg).

Definition daily_limits (c : Request) : Z * Z :=
  resolve (GetTokenDailyRateLimit cfg (token_group c))
    (TokenDailyRateLimitCount cfg) (TokenDailyRateLimitSuccessCount cfg).

Definition user_limits (c : Request) : Z * Z :=
  resolve (GetGroupRateLimit cfg (user_group c))
    (ModelRequestRateLimitCount cfg) (ModelRequestRateLimitSuccessCount cfg).

(** The events of one success record: three list commands on the shared
    backend, one request to the in-process limiter. *)
Definition success_record (mark : string) (ident maxCount duration now : Z)
  : list event :=
  if RedisEnabled then
    if maxCount =? 0 then []
    else redis_record (minutes_seconds (ModelRequestRateLimitDurationMinutes cfg))
           (marked_key mark (itoa ident)) maxCount now
  else [MemRequest (mark +:+ itoa ident) maxCount duration].

Definition user_record (c : Request) (now : Z) : list event :=
  if ModelRequestRateLimitEnabled cfg then
    success_record ModelRequestRateLimitSuccessCountMark (id c)
      (snd (user_limits c)) (mul64 (ModelRequestRateLimitDurationMinutes cfg) 60) now
  else [].

Definition minute_record (c : Request) (now : Z) : list event :=
  if TokenRateLimitEnabled cfg && negb (token_id c =? 0)
     && negb (snd (minute_limits c) =? 0)
  then success_record TokenRateLimitSuccessCountMark (token_id c)
         (snd (minute_limits c)) (mul64 (TokenRateLimitDurationMinutes cfg) 60) now
  else [].

Definition daily_record (c : Request) (now : Z) : list event :=
  if TokenDailyRateLimitEnabled cfg && negb (token_id c =? 0)
     && negb (snd (daily_limits c) =? 0)
  then success_record TokenDailyRateLimitSuccessCountMark (token_id c)
         (snd (daily_limits c)) 86400 now
  else [].

End Expected.

Section Scenario.

Context {L : Limiters}.
Variable cfg : setting.Settings.

(** The world with its clock moved to [t]. *)
Definition at_time (t : Z) (w : World) : World :=
  {| now := t; rdb := rdb w; buckets := buckets w; mem := mem w;
     trace := trace w; stdout := stdout w; status := status w;
     aborted := aborted w; body := body w |}.

(** Successes recorded on [key] at the times of a list, one after the other. *)
Fixpoint record_each (key : string) (maxCount : Z) (times : list Z) (w : World) : World :=
  match times with
  | [] => w
  | t :: rest =>
      record_each key maxCount rest (recordRedisRequest cfg key maxCount (at_time t w))
  end.

(** *** Why a check refuses

    On the shared backend a per-key check refuses when the success list is full
    within its window, or, that check passed or left out, when the token bucket
    says no. The check does not move the clock or the bucket before it asks
    the bucket, so the answer of the bucket is read in the world the check
    started in. *)
Definition success_list_refuses (successKey : string) (s d : Z) (w : World) : Prop :=
  0 < s /\ fst (checkRedisRateLimit cfg successKey s d w) = (false, None).

Definition success_list_passes (successKey : string) (s d : Z) (w : World) : Prop :=
  0 < s -> fst (checkRedisRateLimit cfg successKey s d w) = (true, None).

Definition bucket_answer (totalKey : string) (t d : Z) (w : World) : bool + error :=
  fst (tb_Allow (buckets w) (now w) totalKey (mul64 t d) t d).

Definition bucket_refuses (totalKey : string) (t d : Z) (w : World) : Prop :=
  0 < t /\ bucket_answer totalKey t d w = inl false.

(** In process the total counter is asked first, after [Init]; the probe of
    the success counter is asked in the store that the total counter left. *)
Definition total_counter (expiration : Z) (totalKey : string) (t d : Z) (w : World)
  : bool * Store :=
  if t >? 0
  then mem_Request (mem_Init (mem w) expiration) (now w) totalKey t d
  else (true, mem_Init (mem w) expiration).

Definition probe_counter (expiration : Z) (totalKey checkKey : string) (t s d : Z)
    (w : World) : bool * Store :=
  mem_Request (snd (total_counter expiration totalKey t d w)) (now w) checkKey s d.

Definition total_counter_refuses (expiration : Z) (totalKey : string) (t d : Z)
    (w : World) : Prop :=
  fst (total_counter expiration totalKey t d w) = false.

Definition probe_refuses (expiration : Z) (totalKey checkKey : string) (t s d : Z)
    (w : World) : Prop :=
  0 < s
  /\ fst (total_counter expiration totalKey t d w) = true
  /\ fst (probe_counter expiration totalKey checkKey t s d w) = false.

(** A check that refuses with status 429 and the given message. *)
Definition refuses_with (w : World) (r : bool * World) (message : string) : Prop :=
  fst r = false /\ response (snd r) = (429, true, body w ++ [(429, message)]).

(** What a per-key check answers: the message of the success limit when the
    success limit refuses, the message of the total limit when the total limit
    refuses, and a refusal has one of these two causes or is the answer 500 to
    a failure of the backend. *)
Definition answers (w : World) (r : bool * World)
    (success_refused total_refused : Prop) (successMessage totalMessage : string) : Prop :=
  (success_refused -> refuses_with w r successMessage)
  /\ (total_refused -> refuses_with w r totalMessage)
  /\ (fst r = false ->
      response (snd r) = (500, true, body w ++ [(500, "rate_limit_check_failed")])
      \/ (success_refused /\ refuses_with w r successMessage)
      \/ (total_refused /\ refuses_with w r totalMessage)).

(** *** What a limit of 0 leaves out

    A check on the shared backend whose total limit is 0: the token bucket is
    neither asked nor changed, and the check passes unless the success list
    refuses or fails. *)
Definition skips_bucket (successKey : string) (s d : Z) (w : World)
    (r : bool * World) : Prop :=
  buckets (snd r) = buckets w
  /\ (exists S, Forall (window_op successKey) S /\ trace (snd r) = trace w ++ S)
  /\ (fst r = true <-> success_list_passes successKey s d w).

(** A check on the shared backend whose success limit is 0: no list is read
    or written, and the check passes unless the bucket refuses or fails. *)
Definition skips_list (totalKey : string) (t d : Z) (w : World)
    (r : bool * World) : Prop :=
  rdb (snd r) = rdb w
  /\ trace (snd r) = trace w ++ (if t >? 0 then [Allow totalKey (mul64 t d) t d] else [])
  /\ (fst r = true <-> (0 < t -> bucket_answer totalKey t d w = inl true)).

(** A check in process whose total limit is 0: after [Init] the limiter is
    asked for the probe only, and the check passes unless the probe refuses. *)
Definition skips_total_counter (expiration : Z) (checkKey : string) (s d : Z)
    (w : World) (r : bool * World) : Prop :=
  let m0 := mem_Init (mem w) expiration in
  trace (snd r)
  = trace w ++ MemInit expiration :: (if s >? 0 then [MemRequest checkKey s d] else [])
  /\ mem (snd r) = (if s >? 0 then snd (mem_Request m0 (now w) checkKey s d) else m0)
  /\ (fst r = true <-> (0 < s -> fst (mem_Request m0 (now w) checkKey s d) = true)).

(** A check in process whose success limit is 0: after [Init] the limiter is
    asked for the total counter only, and the check passes unless that
    refuses. *)
Definition skips_probe (expiration : Z) (totalKey : string) (t d : Z)
    (w : World) (r : bool * World) : Prop :=
  let m0 := mem_Init (mem w) expiration in
  trace (snd r)
  = trace w ++ MemInit expiration :: (if t >? 0 then [MemRequest totalKey t d] else [])
  /\ mem (snd r) = (if t >? 0 then snd (mem_Request m0 (now w) totalKey t d) else m0)
  /\ (fst r = true <-> (0 < t -> fst (mem_Request m0 (now w) totalKey t d) = true)).

End Scenario.

(** Every time of the list is at or after the one before it, [prev] for the
    first, and less than [seconds] after it. *)
Fixpoint paced (seconds prev : Z) (times : list Z) : Prop :=
  match times with
  | [] => True
  | t :: rest => prev <= t < prev + seconds /\ paced seconds t rest
  end.

(** The entries of a key at a time: none when the key is gone. *)
Definition entries (now : Z) (key : string) (r : Redis.t) : list Z :=
  match Redis.get now key r with
  | Some (l, _) => l
  | None => []
  end.

(** *** The keys of the counters

    The three tiers, and the keys under which the code keeps their counters:
    on the shared backend a list for the success limit and a token bucket for
    the total limit; in process a counter for each of the two and the probe of
    the success counter. [ident] is the user id for the per-user tier and the
    token id for the two per-key tiers. *)
Inductive tier : Type := UserTier | MinuteTier | DailyTier.

Inductive counter : Type := Total | Success | Probe.

Definition redis_key (t : tier) (c : counter) (ident : Z) : string :=
  match t, c with
  | UserTier, Total => "rateLimit:" +:+ itoa ident
  | UserTier, _ => marked_key ModelRequestRateLimitSuccessCountMark (itoa ident)
  | MinuteTier, Total => marked_key TokenRateLimitCountMark (itoa ident)
  | MinuteTier, _ => marked_key TokenRateLimitSuccessCountMark (itoa ident)
  | DailyTier, Total => marked_key TokenDailyRateLimitCountMark (itoa ident)
  | DailyTier, _ => marked_key TokenDailyRateLimitSuccessCountMark (itoa ident)
  end.

Definition memory_mark (t : tier) (c : counter) : string :=
  match t, c with
  | UserTier, Total => ModelRequestRateLimitCountMark
  | UserTier, _ => ModelRequestRateLimitSuccessCountMark
  | MinuteTier, Total => TokenRateLimitCountMark
  | MinuteTier, _ => TokenRateLimitSuccessCountMark
  | DailyTier, Total => TokenDailyRateLimitCountMark
  | DailyTier, _ => TokenDailyRateLimitSuccessCountMark
  end.

Definition memory_key (t : tier) (c : counter) (ident : Z) : string :=
  match c with
  | Probe => (memory_mark t c +:+ itoa ident) +:+ "_check"
  | _ => memory_mark t c +:+ itoa ident
  end.

(** A list command that writes under [key]. *)
Definition write_on (key : string) (e : event) : Prop :=
  (exists stamp, e = LPush key stamp)
  \/ (exists start stop, e = LTrim key start stop)
  \/ (exists seconds, e = Expire key seconds).

(** The success lists of a request on the shared backend, and a write to one
    of them. *)
Definition success_keys (c : Request) : list string :=
  [redis_key UserTier Success (id c); redis_key MinuteTier Success (token_id c);
   redis_key DailyTier Success (token_id c)].

Definition success_write (c : Request) (e : event) : Prop :=
  exists key, key ∈ success_keys c /\ write_on key e.

(** The keys of a request on each backend: those of its user id in the
    per-user tier and of its token id in the two per-key tiers. *)
Definition redis_own (c : Request) : list string :=
  [redis_key UserTier Total (id c); redis_key UserTier Success (id c);
   redis_key MinuteTier Total (token_id c); redis_key MinuteTier Success (token_id c);
   redis_key DailyTier Total (token_id c); redis_key DailyTier Success (token_id c)].

Definition memory_own (c : Request) : list string :=
  [memory_key UserTier Total (id c); memory_key UserTier Success (id c);
   memory_key UserTier Probe (id c);
   memory_key MinuteTier Total (token_id c); memory_key MinuteTier Success (token_id c);
   memory_key MinuteTier Probe (token_id c);
   memory_key DailyTier Total (token_id c); memory_key DailyTier Success (token_id c);
   memory_key DailyTier Probe (token_id c)].

(** An event that belongs to the request and to the backend in use: a
    command of the shared backend or a question to the token bucket, on a key
    of the request, when the shared backend is enabled; a call of the
    in-process limiter, on a key of the request, when it is not; or the call
    of the handler. *)
Definition own_event (RedisEnabled : bool) (c : Request) (e : event) : Prop :=
  match e with
  | LLen k | LIndex k _ | Expire k _ | LPush k _ | LTrim k _ _ | Allow k _ _ _ =>
      RedisEnabled = true /\ k ∈ redis_own c
  | MemRequest k _ _ => RedisEnabled = false /\ k ∈ memory_own c
  | MemInit _ => RedisEnabled = false
  | Handler => True
  end.

Definition numeral_char (c : ascii) : bool :=
  json.is_digit c || Ascii.eqb c "-".

(** Membership of a key in the keys of a request. *)
Ltac own_key :=
  unfold redis_own, memory_own;
  repeat first [apply list_elem_of_here | apply list_elem_of_further].

(** Two tactics for goals about the events of a sliding-window check: each
    event is one of the three commands on the key, and the events added to the
    trace are a given list. *)
Ltac window_ops :=
  repeat (apply Forall_cons_2;
          [first [ left; reflexivity
                 | right; left; reflexivity
                 | right; right; eexists; reflexivity ]|]);
  apply Forall_nil_2.

Ltac added_events l :=
  exists l; rewrite <- ?app_assoc;
  split; [reflexivity|split; [window_ops|eauto]].

End observe.

(** * The two limiters of package common

    Modelled from the spec: the token bucket of [common/limiter] and the
    in-process limiter [inMemoryRateLimiter], neither of which is in the two
    files embedded above. The bucket holds [(tokens, lastRefillTime)] per key,
    is full when first seen, refills at [rate] up to [capacity] and gives
    [requested] tokens when it has them. The in-process limiter, once
    initialised with a window, keeps the times of the occurrences of a key; a
    request is refused once [maxRequestNum] of them lie within the last
    [duration] seconds, and is counted otherwise. *)

Module spec_limiters.

Definition Bucket : Type := gmap string (Z * Z).

Definition Allow (b : Bucket) (now : Z) (key : string) (capacity rate requested : Z)
  : (bool + error) * Bucket :=
  let '(tokens, last) := default (capacity, now) (b !! key) in
  let filled := Z.min capacity (tokens + (now - last) * rate) in
  if requested <=? filled
  then (inl true, <[key := (filled - requested, now)]> b)
  else (inl false, <[key := (filled, now)]> b).

Definition Store : Type := option Z * gmap string (list Z).

Definition Init (s : Store) (expiration : Z) : Store :=
  match fst s with
  | Some _ => s
  | None => (Some expiration, snd s)
  end.

Definition Request (s : Store) (now : Z) (key : string) (maxRequestNum duration : Z)
  : bool * Store :=
  let seen := filter (fun t => now - t < duration) (default [] (snd s !! key)) in
  if Z.of_nat (length seen) >=? maxRequestNum then (false, s)
  else (true, (fst s, <[key := now :: seen]> (snd s))).

#[export] Instance limiters : middleware.Limiters := {|
  middleware.Bucket := Bucket;
  middleware.Store := Store;
  middleware.tb_Allow := Allow;
  middleware.mem_Init := Init;
  middleware.mem_Request := Request
|}.

End spec_limiters.

(** * Sample inputs *)

Module sample.

Import setting service middleware.

(** An extract of the case tables of package [unicode], enough for the
    messages below: the capital I with a dot above (U+0130), whose lower case
    in the tables is [i]; the Kelvin sign (U+212A), whose lower case is [k];
    the capitals of Latin-1; every other rune above ASCII is its own lower
    case here. *)
Definition case_tables : CaseTables := {|
  To_LowerCase := fun r =>
    if r =? 304 then 105
    else if r =? 8490 then 107
    else if (192 <=? r) && (r <=? 222) && negb (r =? 215) then r + 32
    else r
|}.

Definition one_group (total success : Z) : GoMap :=
  Some {[ "default" := (total, success) ]}.

(** A store whose three maps each hold one group. *)
Definition configured : Settings :=
  set_ModelRequestRateLimitGroup (one_group 10 5)
    (set_TokenRateLimitGroup (one_group 20 6)
       (set_TokenDailyRateLimitGroup (one_group 30 7) initial)).

Definition quota_on_429 : NewAPIError :=
  {| Error := "You exceeded your current quota";
     StatusCode := 429;
     GetErrorType := "insufficient_quota" |}.

Definition unauthorized : NewAPIError :=
  {| Error := "Incorrect API key provided";
     StatusCode := 401;
     GetErrorType := "invalid_request_error" |}.

Definition unauthorized_timeout : NewAPIError :=
  {| Error := "Gateway Timeout while checking the key";
     StatusCode := 401;
     GetErrorType := "upstream_error" |}.

(** The same with the I of the message dotted: its bytes are not all ASCII. *)
Definition unauthorized_dotted : NewAPIError :=
  {| Error := "TİMEOUT";
     StatusCode := 401;
     GetErrorType := "upstream_error" |}.

(** A request of user 1 with key 7, both in group [default]. *)
Definition request : Request :=
  {| id := 1; token_id := 7; token_group := "default"; user_group := "default" |}.

(** A world on the limiters of the spec, with the backend up, nothing written
    and status 200. *)
Definition world (now : Z) (lists : gmap string (list Z * option Z))
  : World (L := spec_limiters.limiters) :=
  @Build_World spec_limiters.limiters
    now                                          (* now *)
    {| Redis.data := lists; Redis.up := true |}  (* rdb *)
    (∅ : gmap string (Z * Z))                    (* buckets *)
    (None, ∅)                                    (* mem *)
    []                                           (* trace *)
    []                                           (* stdout *)
    200                                          (* status *)
    false                                        (* aborted *)
    [].                                          (* body *)

(** A protected handler that answers 200 after two seconds. *)
Definition handler_ok (w : World (L := spec_limiters.limiters))
  : World (L := spec_limiters.limiters) :=
  {| now := now w + 2; rdb := rdb w; buckets := buckets w; mem := mem w;
     trace := trace w; stdout := stdout w; status := 200;
     aborted := aborted w; body := body w |}.

(** The store with every tier switched on and one group in each map:
    per user [10, 5], per key and minute [20, 6], per key and day [30, 7]. *)
Definition all_on : Settings := {|
  ModelRequestRateLimitEnabled := true;
  ModelRequestRateLimitDurationMinutes := 1;
  ModelRequestRateLimitCount := 0;
  ModelRequestRateLimitSuccessCount := 1000;
  ModelRequestRateLimitGroup := one_group 10 5;
  TokenRateLimitEnabled := true;
  TokenRateLimitDurationMinutes := 1;
  TokenRateLimitCount := 0;
  TokenRateLimitSuccessCount := 0;
  TokenRateLimitGroup := one_group 20 6;
  TokenDailyRateLimitEnabled := true;
  TokenDailyRateLimitCount := 0;
  TokenDailyRateLimitSuccessCount := 0;
  TokenDailyRateLimitGroup := one_group 30 7
|}.

(** A success counter that is full: two entries, the older one written at
    time 90, and a deadline at time 200. *)
Definition full_list : gmap string (list Z * option Z) :=
  {[ "rateLimit:TRLS:7" := ([100; 90], Some 200) ]}.

(** The same for the success counter of user 1. *)
Definition full_user_list : gmap string (list Z * option Z) :=
  {[ "rateLimit:MRRLS:1" := ([100; 90], Some 200) ]}.

(** The same for the daily success counter of key 7. *)
Definition full_daily_list : gmap string (list Z * option Z) :=
  {[ "rateLimit:TDRLS:7" := ([100; 90], Some 200) ]}.

(** Every tier on, success limits only: per user 5, per key and minute 6,
    per key and day 7, for every group. *)
Definition success_only : Settings := {|
  ModelRequestRateLimitEnabled := true;
  ModelRequestRateLimitDurationMinutes := 1;
  ModelRequestRateLimitCount := 0;
  ModelRequestRateLimitSuccessCount := 5;
  ModelRequestRateLimitGroup := make_map;
  TokenRateLimitEnabled := true;
  TokenRateLimitDurationMinutes := 1;
  TokenRateLimitCount := 0;
  TokenRateLimitSuccessCount := 6;
  TokenRateLimitGroup := make_map;
  TokenDailyRateLimitEnabled := true;
  TokenDailyRateLimitCount := 0;
  TokenDailyRateLimitSuccessCount := 7;
  TokenDailyRateLimitGroup := make_map
|}.

(** Every tier on, and every limit 0 for the group of the request. *)
Definition zero_limits : Settings := {|
  ModelRequestRateLimitEnabled := true;
  ModelRequestRateLimitDurationMinutes := 1;
  ModelRequestRateLimitCount := 0;
  ModelRequestRateLimitSuccessCount := 1000;
  ModelRequestRateLimitGroup := one_group 0 0;
  TokenRateLimitEnabled := true;
  TokenRateLimitDurationMinutes := 1;
  TokenRateLimitCount := 20;
  TokenRateLimitSuccessCount := 6;
  TokenRateLimitGroup := one_group 0 0;
  TokenDailyRateLimitEnabled := true;
  TokenDailyRateLimitCount := 30;
  TokenDailyRateLimitSuccessCount := 7;
  TokenDailyRateLimitGroup := one_group 0 0
|}.

(** The per-user tier alone, with a total limit of 2^62 for every group. *)
Definition huge_total : Settings := {|
  ModelRequestRateLimitEnabled := true;
  ModelRequestRateLimitDurationMinutes := 1;
  ModelRequestRateLimitCount := 4611686018427387904;
  ModelRequestRateLimitSuccessCount := 1000;
  ModelRequestRateLimitGroup := make_map;
  TokenRateLimitEnabled := false;
  TokenRateLimitDurationMinutes := 1;
  TokenRateLimitCount := 0;
  TokenRateLimitSuccessCount := 0;
  TokenRateLimitGroup := make_map;
  TokenDailyRateLimitEnabled := false;
  TokenDailyRateLimitCount := 0;
  TokenDailyRateLimitSuccessCount := 0;
  TokenDailyRateLimitGroup := make_map
|}.

(** A world whose shared backend does not answer. *)
Definition world_down (now : Z) : World (L := spec_limiters.limiters) :=
  @Build_World spec_limiters.limiters
    now
    {| Redis.data := ∅; Redis.up := false |}
    (∅ : gmap string (Z * Z))
    (None, ∅)
    [] [] 200 false [].

(** A world in which the token bucket of user 1 was emptied at time [now]. *)
Definition drained_world (now : Z) : World (L := spec_limiters.limiters) :=
  @Build_World spec_limiters.limiters
    now
    {| Redis.data := ∅; Redis.up := true |}
    ({[ "rateLimit:1" := (0, now) ]} : gmap string (Z * Z))
    (None, ∅)
    [] [] 200 false [].

(** A world whose in-process limiter has seen the probe key of user 1 twice,
    at times 100 and 110. *)
Definition probed_world (now : Z) : World (L := spec_limiters.limiters) :=
  @Build_World spec_limiters.limiters
    now
    {| Redis.data := ∅; Redis.up := true |}
    (∅ : gmap string (Z * Z))
    (Some 60000000000, {[ "MRRLS1_check" := [110; 100] ]})
    [] [] 200 false [].

End sample.

(** * Properties of package setting *)

Section SettingFacts.

Import setting.

Lemma overrides_set_same sc m s :
  overrides sc
    (match sc with
     | User => set_ModelRequestRateLimitGroup m s
     | KeyMinute => set_TokenRateLimitGroup m s
     | KeyDaily => set_TokenDailyRateLimitGroup m s
     end) = m.
Proof. destruct sc; reflexivity. Qed.

Lemma UpdatePolicy_unfold sc jsonStr s :
  overrides sc (fst (UpdatePolicy sc jsonStr s)) = fst (decode.Unmarshal jsonStr make_map)
  /\ snd (UpdatePolicy sc jsonStr s) = snd (decode.Unmarshal jsonStr make_map).
Proof.
  destruct sc; cbn;
    unfold UpdateModelRequestRateLimitGroupByJSONString,
      UpdateTokenRateLimitGroupByJSONString,
      UpdateTokenDailyRateLimitGroupByJSONString; cbn;
    destruct (decode.Unmarshal jsonStr make_map) as [m e]; cbn; auto.
Qed.

Lemma Unmarshal_malformed jsonStr target :
  json.parse jsonStr = None ->
  decode.Unmarshal jsonStr target = (target, Some SyntaxError).
Proof. intros H. unfold decode.Unmarshal. now rewrite H. Qed.

(** C3, as the code has it. An update first installs a new empty map and
    decodes into it, so what the scope holds after the call is what the decoder
    made of the blob, whatever was in effect before; for a malformed blob that
    is the empty map, with the syntax error returned. *)
Theorem update_replaces_before_decoding (sc : Scope) (jsonStr : string) (s : Settings) :
  overrides sc (fst (UpdatePolicy sc jsonStr s)) = fst (decode.Unmarshal jsonStr make_map)
  /\ snd (UpdatePolicy sc jsonStr s) = snd (decode.Unmarshal jsonStr make_map)
  /\ (json.parse jsonStr = None ->
      snd (UpdatePolicy sc jsonStr s) = Some SyntaxError
      /\ overrides sc (fst (UpdatePolicy sc jsonStr s)) = make_map).
Proof.
  destruct (UpdatePolicy_unfold sc jsonStr s) as [Hm He].
  split; [exact Hm|]. split; [exact He|].
  intros Hbad. rewrite Hm, He, (Unmarshal_malformed _ _ Hbad). now split.
Qed.

Lemma update_replaces_before_decoding_witness :
  json.parse "{" = None
  /\ snd (UpdatePolicy KeyMinute "{" sample.configured) = Some SyntaxError
  /\ overrides KeyMinute (fst (UpdatePolicy KeyMinute "{" sample.configured)) = make_map.
Proof.
  split; [reflexivity|].
  apply (update_replaces_before_decoding KeyMinute "{" sample.configured).
  reflexivity.
Defined.

(** C3, refuted as stated: with one group configured in each scope, a
    malformed blob makes each update return an error, and the group is gone
    from the map left behind. *)
Lemma update_not_atomic :
  (snd (UpdatePolicy User "{" sample.configured) = Some SyntaxError
   /\ map_index (overrides User sample.configured) "default" = Some (10, 5)
   /\ map_index (overrides User (fst (UpdatePolicy User "{" sample.configured)))
        "default" = None)
  /\ (snd (UpdatePolicy KeyMinute "{" sample.configured) = Some SyntaxError
      /\ map_index (overrides KeyMinute sample.configured) "default" = Some (20, 6)
      /\ map_index (overrides KeyMinute (fst (UpdatePolicy KeyMinute "{" sample.configured)))
           "default" = None)
  /\ (snd (UpdatePolicy KeyDaily "{" sample.configured) = Some SyntaxError
      /\ map_index (overrides KeyDaily sample.configured) "default" = Some (30, 7)
      /\ map_index (overrides KeyDaily (fst (UpdatePolicy KeyDaily "{" sample.configured)))
           "default" = None).
Proof. vm_compute. repeat split; reflexivity. Qed.

Lemma check_entries_app_bad least pre g l post :
  check_entries least pre = None ->
  snd l < least ->
  check_entries least (pre ++ (g, l) :: post) = Some (Errorf (negative_message g l)).
Proof.
  induction pre as [|[g' l'] pre IH]; cbn; intros Hpre Hbad.
  - replace (snd l <? least) with true by (symmetry; apply Z.ltb_lt; lia).
    now rewrite orb_true_r.
  - destruct ((fst l' <? 0) || (snd l' <? least)); [discriminate|].
    destruct ((fst l' >? MaxInt32) || (snd l' >? MaxInt32)); [discriminate|].
    now apply IH.
Qed.

Lemma check_entries_bad least entries g l :
  (g, l) ∈ entries -> snd l < least ->
  exists e, check_entries least entries = Some e.
Proof.
  induction entries as [|[g' l'] entries IH]; intros Hin Hbad.
  - now apply elem_of_nil in Hin.
  - cbn. destruct ((fst l' <? 0) || (snd l' <? least)) eqn:Hneg; [eauto|].
    destruct ((fst l' >? MaxInt32) || (snd l' >? MaxInt32)); [eauto|].
    apply elem_of_cons in Hin as [Heq|Hin]; [|now apply IH].
    inversion Heq; subst g' l'.
    apply orb_false_elim in Hneg as [_ Hneg]. apply Z.ltb_ge in Hneg. lia.
Qed.

Lemma check_entries_good least entries :
  Forall (fun e => 0 <= fst (snd e) <= MaxInt32 /\ least <= snd (snd e) <= MaxInt32) entries ->
  check_entries least entries = None.
Proof.
  induction 1 as [|[g l] entries [[H0 H1] [H2 H3]] _ IH]; cbn in *; [reflexivity|].
  replace (fst l <? 0) with false by (symmetry; apply Z.ltb_ge; lia).
  replace (snd l <? least) with false by (symmetry; apply Z.ltb_ge; lia).
  replace (fst l >? MaxInt32) with false by (symmetry; rewrite Z.gtb_ltb; apply Z.ltb_ge; lia).
  replace (snd l >? MaxInt32) with false by (symmetry; rewrite Z.gtb_ltb; apply Z.ltb_ge; lia).
  exact IH.
Qed.

Lemma check_group_decoded least range jsonStr m :
  decode.Unmarshal jsonStr make_map = (m, None) ->
  check_group least range jsonStr = check_entries least (range_over range m).
Proof. intros H. unfold check_group. now rewrite H. Qed.

Lemma range_elem (range : Range) (m : gmap string (Z * Z)) g l :
  any_order range -> ((g, l) ∈ range m <-> m !! g = Some l).
Proof. intros H. rewrite (H m). apply elem_of_map_to_list. Qed.

Lemma zero_blob_decoded :
  decode.Unmarshal (js "{'default':[0,0]}") make_map
  = (Some {[ "default" := (0, 0) ]}, None).
Proof. vm_compute. reflexivity. Qed.

Lemma range_singleton (range : Range) g (l : Limits) :
  any_order range -> range {[ g := l ]} = [(g, l)].
Proof.
  intros H. apply Permutation_singleton_r. rewrite (H _).
  now rewrite map_to_list_singleton.
Qed.

(** C10. The per-user validator refuses a blob as soon as one of its groups
    has success limit 0, and the first such group it meets is reported with the
    negative-values message; the two per-key validators let every group
    through whose two values lie between 0 and 2147483647, success limit 0
    included; and one blob separates them. All this in whatever order the
    entries are visited. *)
Theorem success_zero_divides_validators :
  (forall (range : Range) jsonStr m g total,
      any_order range ->
      decode.Unmarshal jsonStr make_map = (Some m, None) ->
      m !! g = Some (total, 0) ->
      (exists e, CheckModelRequestRateLimitGroup range jsonStr = Some e)
      /\ (forall pre post,
             range m = pre ++ (g, (total, 0)) :: post ->
             check_entries 1 pre = None ->
             CheckModelRequestRateLimitGroup range jsonStr
             = Some (Errorf (negative_message g (total, 0)))))
  /\ (forall (range : Range) jsonStr m,
         any_order range ->
         decode.Unmarshal jsonStr make_map = (Some m, None) ->
         (forall g l, m !! g = Some l ->
                      0 <= fst l <= MaxInt32 /\ 0 <= snd l <= MaxInt32) ->
         CheckTokenRateLimitGroup range jsonStr = None
         /\ CheckTokenDailyRateLimitGroup range jsonStr = None)
  /\ (exists jsonStr, forall range : Range,
         any_order range ->
         CheckTokenRateLimitGroup range jsonStr = None
         /\ CheckTokenDailyRateLimitGroup range jsonStr = None
         /\ CheckModelRequestRateLimitGroup range jsonStr
            = Some (Errorf "group default has negative rate limit values: [0, 0]")).
Proof.
  split; [|split].
  - intros range jsonStr m g total Hr Hd Hg.
    unfold CheckModelRequestRateLimitGroup.
    rewrite (check_group_decoded _ _ _ _ Hd). cbn. split.
    + apply (check_entries_bad 1 _ g (total, 0)); [|cbn; lia].
      now apply (range_elem range m g (total, 0) Hr).
    + intros pre post -> Hpre. apply check_entries_app_bad; [exact Hpre|cbn; lia].
  - intros range jsonStr m Hr Hd Hok.
    unfold CheckTokenRateLimitGroup, CheckTokenDailyRateLimitGroup.
    rewrite (check_group_decoded _ _ _ _ Hd). cbn.
    assert (check_entries 0 (range m) = None) as ->; [|now split].
    apply check_entries_good. apply Forall_forall. intros [g l] Hin. cbn.
    apply (Hok g). now apply (range_elem range m g l Hr).
  - exists (js "{'default':[0,0]}"). intros range Hr.
    unfold CheckTokenRateLimitGroup, CheckTokenDailyRateLimitGroup,
      CheckModelRequestRateLimitGroup.
    rewrite !(check_group_decoded _ _ _ _ zero_blob_decoded). cbn.
    rewrite (range_singleton _ _ _ Hr). now vm_compute.
Qed.

Lemma success_zero_divides_validators_witness :
  any_order map_to_list
  /\ CheckModelRequestRateLimitGroup map_to_list (js "{'vip':[3,0]}")
     = Some (Errorf "group vip has negative rate limit values: [3, 0]")
  /\ CheckTokenRateLimitGroup map_to_list (js "{'vip':[3,0]}") = None
  /\ CheckTokenDailyRateLimitGroup map_to_list (js "{'vip':[3,0]}") = None.
Proof.
  assert (Hr : any_order map_to_list) by (intros m; reflexivity).
  assert (Hd : decode.Unmarshal (js "{'vip':[3,0]}") make_map
               = (Some {[ "vip" := (3, 0) ]}, None)) by (vm_compute; reflexivity).
  destruct success_zero_divides_validators as (Huser & Hkey & _).
  split; [exact Hr|]. split.
  - destruct (Huser map_to_list _ _ "vip" 3 Hr Hd) as [_ H].
    + apply lookup_singleton_eq.
    + apply (H [] []); [|reflexivity]. cbn. apply map_to_list_singleton.
  - apply (Hkey map_to_list _ _ Hr Hd).
    intros g l Hl. apply lookup_singleton_Some in Hl as [_ <-].
    cbn. unfold MaxInt32. lia.
Defined.

End SettingFacts.

(** * Properties of package service *)

Section ServiceFacts.

Import service.

Context {T : CaseTables}.

Lemma transient_timeout errMsg :
  Contains errMsg "timeout" = true -> transient errMsg = true.
Proof.
  intros H. unfold transient. rewrite H.
  now rewrite !orb_true_r.
Qed.

Lemma ShouldDisableChannel_settled auto channelId e :
  auto = true ->
  transient (ToLower (Error e)) = false ->
  ShouldDisableChannel auto channelId (Some e)
  = (StatusCode e =? 401) || (StatusCode e =? 403)
    || (negb (StatusCode e =? 429) && String.eqb (GetErrorType e) "insufficient_quota").
Proof.
  intros -> Ht. unfold ShouldDisableChannel. cbn. rewrite Ht.
  destruct (StatusCode e =? 401) eqn:H401; [reflexivity|].
  destruct (StatusCode e =? 429) eqn:H429.
  - apply Z.eqb_eq in H429. rewrite H429. reflexivity.
  - destruct (StatusCode e =? 403); [reflexivity|].
    now destruct (String.eqb (GetErrorType e) "insufficient_quota").
Qed.

(** C7, as the code has it. The answer is no when automatic disabling is off,
    when there is no error, and when the lowered message has one of the
    transient texts, [timeout] among them, whatever the status; it is no for
    status 429 in every case. Otherwise it is yes exactly for status 401, for
    status 403, and for an [insufficient_quota] error whose status is not
    429. *)
Theorem ShouldDisableChannel_decision (auto : bool) (channelId : Z)
    (err : option NewAPIError) :
  (auto = false -> ShouldDisableChannel auto channelId err = false)
  /\ (err = None -> ShouldDisableChannel auto channelId err = false)
  /\ (forall e, err = Some e ->
        transient (ToLower (Error e)) = true
        \/ Contains (ToLower (Error e)) "timeout" = true
        \/ StatusCode e = 429 ->
        ShouldDisableChannel auto channelId err = false)
  /\ (forall e, err = Some e -> auto = true ->
        transient (ToLower (Error e)) = false ->
        (ShouldDisableChannel auto channelId err = true
         <-> StatusCode e = 401 \/ StatusCode e = 403
             \/ (StatusCode e <> 429 /\ GetErrorType e = "insufficient_quota"))).
Proof.
  repeat split.
  - now intros ->.
  - intros ->. unfold ShouldDisableChannel. now destruct (negb auto).
  - intros e -> H. unfold ShouldDisableChannel.
    destruct (negb auto); [reflexivity|].
    destruct (transient (ToLower (Error e))) eqn:Ht; [reflexivity|].
    destruct H as [H|[H|H]]; [discriminate| |].
    + apply transient_timeout in H. congruence.
    + rewrite H. reflexivity.
  - subst err. rewrite (ShouldDisableChannel_settled _ _ _ H0 H1).
    rewrite !orb_true_iff, andb_true_iff, negb_true_iff, !Z.eqb_eq, Z.eqb_neq,
      String.eqb_eq.
    tauto.
  - subst err. rewrite (ShouldDisableChannel_settled _ _ _ H0 H1).
    rewrite !orb_true_iff, andb_true_iff, negb_true_iff, !Z.eqb_eq, Z.eqb_neq,
      String.eqb_eq.
    tauto.
Qed.

End ServiceFacts.

Section ServiceSamples.

Import service.

Lemma ShouldDisableChannel_decision_witness :
  ShouldDisableChannel (T := sample.case_tables) true 7 (Some sample.unauthorized) = true
  /\ ShouldDisableChannel (T := sample.case_tables) true 7 (Some sample.unauthorized_timeout) = false
  /\ ShouldDisableChannel (T := sample.case_tables) true 7 (Some sample.unauthorized_dotted) = false.
Proof.
  split; [|split].
  - destruct (ShouldDisableChannel_decision (T := sample.case_tables) true 7
                (Some sample.unauthorized)) as (_ & _ & _ & H).
    apply (H sample.unauthorized eq_refl eq_refl); [reflexivity|].
    left. reflexivity.
  - destruct (ShouldDisableChannel_decision (T := sample.case_tables) true 7
                (Some sample.unauthorized_timeout)) as (_ & _ & H & _).
    apply (H sample.unauthorized_timeout eq_refl).
    right. left. reflexivity.
  - destruct (ShouldDisableChannel_decision (T := sample.case_tables) true 7
                (Some sample.unauthorized_dotted)) as (_ & _ & H & _).
    apply (H sample.unauthorized_dotted eq_refl).
    left. reflexivity.
Defined.

(** C7, refuted as stated: an [insufficient_quota] error that comes with
    status 429 and no transient text does not disable the channel, so yes is
    not exactly "401, 403 or insufficient_quota". The message is ASCII, so its
    lower case does not depend on the case tables. *)
Lemma quota_error_with_status_429 :
  all_chars (fun c => utf8.byte c <? utf8.RuneSelf) (Error sample.quota_on_429) = true
  /\ transient (ToLower (T := sample.case_tables) (Error sample.quota_on_429)) = false
  /\ GetErrorType sample.quota_on_429 = "insufficient_quota"
  /\ ShouldDisableChannel (T := sample.case_tables) true 7 (Some sample.quota_on_429) = false
  /\ ~ (ShouldDisableChannel (T := sample.case_tables) true 7 (Some sample.quota_on_429) = true
        <-> StatusCode sample.quota_on_429 = 401
            \/ StatusCode sample.quota_on_429 = 403
            \/ GetErrorType sample.quota_on_429 = "insufficient_quota").
Proof.
  repeat split.
  intros [_ H]. discriminate H. right. right. reflexivity.
Qed.

End ServiceSamples.


(** * The keys of the counters *)

Section Keys.

Import setting middleware observe.

Lemma itoa_inj a b : itoa a = itoa b -> a = b.
Proof.
  unfold itoa. intros H.
  apply (f_equal NilEmpty.int_of_string) in H.
  rewrite !NilEmpty.isi in H. injection H as H.
  apply (f_equal Z.of_int) in H. now rewrite !DecimalZ.of_to in H.
Qed.

Lemma uint_numeral u : all_chars numeral_char (NilEmpty.string_of_uint u) = true.
Proof. induction u; cbn; auto. Qed.

Lemma itoa_numeral z : all_chars numeral_char (itoa z) = true.
Proof.
  unfold itoa. destruct z as [|p|p]; cbn; [reflexivity|apply uint_numeral..].
Qed.

Lemma all_chars_append p a b :
  all_chars p (a +:+ b) = all_chars p a && all_chars p b.
Proof.
  induction a as [|x a IH]; [reflexivity|].
  change (String x a +:+ b) with (String x (a +:+ b)). cbn. rewrite IH.
  now rewrite andb_assoc.
Qed.

Lemma length_append a b :
  String.length (a +:+ b) = (String.length a + String.length b)%nat.
Proof.
  induction a as [|x a IH]; [reflexivity|].
  change (String x a +:+ b) with (String x (a +:+ b)). cbn. now rewrite IH.
Qed.

Lemma append_cancel_r a b c : a +:+ c = b +:+ c -> a = b.
Proof.
  revert b. induction a as [|x a IH]; intros [|y b] H.
  - reflexivity.
  - apply (f_equal String.length) in H. rewrite !length_append in H.
    cbn in H. lia.
  - apply (f_equal String.length) in H. rewrite !length_append in H.
    cbn in H. lia.
  - change (String x (a +:+ c) = String y (b +:+ c)) in H.
    injection H as -> H. f_equal. now apply IH.
Qed.

Lemma string_cons_inv a s b t : String a s = String b t -> a = b /\ s = t.
Proof. intros H. now injection H. Qed.

Lemma itoa_not_cons z c rest :
  numeral_char c = false -> itoa z = String c rest -> False.
Proof.
  intros Hc H. pose proof (itoa_numeral z) as Hz. rewrite H in Hz.
  cbn in Hz. rewrite Hc in Hz. discriminate.
Qed.

Lemma itoa_not_probe a b : itoa a = itoa b +:+ "_check" -> False.
Proof.
  intros H. pose proof (itoa_numeral a) as Hz. rewrite H, all_chars_append in Hz.
  apply andb_true_iff in Hz as [_ Hz]. discriminate.
Qed.

Lemma success_key_not_total t1 t2 i j : redis_key t1 Success i <> redis_key t2 Total j.
Proof.
  intros H.
  destruct t1, t2;
    cbv [redis_key marked_key ModelRequestRateLimitSuccessCountMark
           TokenRateLimitCountMark TokenRateLimitSuccessCountMark
           TokenDailyRateLimitCountMark TokenDailyRateLimitSuccessCountMark
           String.append] in H;
    repeat (let Hc := fresh in
            apply string_cons_inv in H as [Hc H];
            first [discriminate Hc | clear Hc]);
    first
      [ discriminate H
      | eapply itoa_not_cons in H; [exact H|reflexivity]
      | symmetry in H; eapply itoa_not_cons in H; [exact H|reflexivity] ].
Qed.

(** X17. No two counters share a key. On the shared backend the key of a
    counter tells its tier, whether it is the list of the success limit or the
    bucket of the total limit, and the identity it belongs to; in process it
    tells the tier, which of total counter, success counter and probe it is,
    and the identity. *)
Theorem counter_keys_are_distinct (t1 t2 : tier) (c1 c2 : counter) (i1 i2 : Z) :
  (redis_key t1 c1 i1 = redis_key t2 c2 i2 ->
   t1 = t2 /\ i1 = i2 /\ (c1 = Total <-> c2 = Total))
  /\ (memory_key t1 c1 i1 = memory_key t2 c2 i2 ->
      t1 = t2 /\ c1 = c2 /\ i1 = i2).
Proof.
  split; intros H;
    destruct t1, c1, t2, c2;
    cbv [redis_key marked_key memory_key memory_mark
           ModelRequestRateLimitCountMark ModelRequestRateLimitSuccessCountMark
           TokenRateLimitCountMark TokenRateLimitSuccessCountMark
           TokenDailyRateLimitCountMark TokenDailyRateLimitSuccessCountMark
           String.append] in H;
    repeat (let Hc := fresh in
            apply string_cons_inv in H as [Hc H];
            first [discriminate Hc | clear Hc]);
    first
      [ discriminate H
      | exfalso; apply itoa_not_probe in H; exact H
      | exfalso; symmetry in H; apply itoa_not_probe in H; exact H
      | exfalso; eapply itoa_not_cons in H; [exact H|reflexivity]
      | exfalso; symmetry in H; eapply itoa_not_cons in H; [exact H|reflexivity]
      | apply append_cancel_r in H; apply itoa_inj in H
      | apply itoa_inj in H ];
    subst; repeat split; intros; congruence.
Qed.

Lemma counter_keys_are_distinct_witness :
  redis_key MinuteTier Success 7 <> redis_key DailyTier Success 7
  /\ memory_key UserTier Probe 7 <> memory_key UserTier Success 7.
Proof.
  destruct (counter_keys_are_distinct MinuteTier DailyTier Success Success 7 7)
    as [Hr _].
  destruct (counter_keys_are_distinct UserTier UserTier Probe Success 7 7)
    as [_ Hm].
  split; intros H.
  - destruct (Hr H) as [Ht _]. discriminate Ht.
  - destruct (Hm H) as (_ & Hc & _). discriminate Hc.
Defined.

End Keys.

(** * Properties of package middleware *)

Section MiddlewareFacts.

Import setting middleware observe.

Context {L : Limiters}.
Variable cfg : Settings.
Variable RedisEnabled : bool.

Lemma LIndex_last now key r l d :
  Redis.up r = true ->
  Redis.get now key r = Some (l, d) ->
  Redis.LIndex now key (-1) r = last l.
Proof.
  intros Hup Hget. unfold Redis.LIndex. rewrite Hup, Hget.
  unfold Redis.index. cbn.
  destruct l as [|x l]; [reflexivity|].
  replace (Z.of_nat (length (x :: l)) + -1 <? 0) with false
    by (symmetry; apply Z.ltb_ge; cbn [length]; lia).
  rewrite last_lookup. f_equal. cbn [length]. lia.
Qed.

Lemma LLen_length now key r l d :
  Redis.up r = true ->
  Redis.get now key r = Some (l, d) ->
  Redis.LLen now key r = Some (Z.of_nat (length l)).
Proof. intros Hup Hget. unfold Redis.LLen. now rewrite Hup, Hget. Qed.

Lemma wrap64_small z : MinInt64 <= z <= MaxInt64 -> wrap64 z = z.
Proof.
  unfold MinInt64, MaxInt64, wrap64. intros H.
  rewrite Z.mod_small; lia.
Qed.

(** For a window of at least one minute whose nanoseconds fit [int64], the
    seconds that [Expire] gets are the minutes times 60, which is also what
    [int64(minutes * 60)] gives. *)
Lemma minutes_seconds_exact minutes :
  0 < minutes <= 153722867 ->
  minutes_seconds minutes = mul64 minutes 60 /\ 0 < minutes_seconds minutes.
Proof.
  intros H. unfold minutes_seconds, minutes_duration, formatSec, mul64, Minute, Second.
  rewrite !wrap64_small by (unfold MinInt64, MaxInt64; lia).
  replace ((0 <? minutes * (60 * 1000000000))
           && (minutes * (60 * 1000000000) <? 1000000000)) with false
    by (symmetry; apply andb_false_iff; right; apply Z.ltb_ge; lia).
  replace (minutes * (60 * 1000000000)) with (minutes * 60 * 1000000000) by lia.
  rewrite Z.quot_mul by lia. lia.
Qed.

Lemma Expire_deadline now key secs r l d :
  Redis.up r = true ->
  Redis.get now key r = Some (l, d) ->
  l <> [] -> 0 < secs ->
  Redis.get now key (Redis.Expire now key secs r) = Some (l, Some (now + secs)).
Proof.
  intros Hup Hget Hl Hs. unfold Redis.Expire. rewrite Hup, Hget.
  replace (secs <=? 0) with false by (symmetry; apply Z.leb_gt; lia).
  destruct l as [|x l]; [congruence|].
  unfold Redis.get, Redis.put, Redis.with_data. cbn.
  rewrite lookup_insert_eq.
  now replace (now + secs <=? now) with false by (symmetry; apply Z.leb_gt; lia).
Qed.

(** C4, as the code has it. A check with a positive limit that finds the list
    full asks for its length and its last entry. If that entry is at least
    [duration] seconds old the check admits and writes nothing: the entry
    stays, and so does the deadline of the key. Otherwise it refuses and
    refreshes the expiry of the key: it sends [Expire] with the seconds of
    [ModelRequestRateLimitDurationMinutes] minutes, and when these are
    positive the key, with its entries as they were, lives that long from now.
    For the check of the per-user tier, whose window is that setting, the key
    then lives one window of the check. *)
Theorem full_window_check (key : string) (maxCount duration : Z) (w : World)
    (l : list Z) (deadline : option Z) (oldest : Z) :
  0 < maxCount ->
  Redis.up (rdb w) = true ->
  Redis.get (now w) key (rdb w) = Some (l, deadline) ->
  maxCount <= Z.of_nat (length l) ->
  last l = Some oldest ->
  let r := checkRedisRateLimit cfg key maxCount duration w in
  let secs := minutes_seconds (ModelRequestRateLimitDurationMinutes cfg) in
  (duration <= now w - oldest ->
   fst r = (true, None)
   /\ rdb (snd r) = rdb w
   /\ trace (snd r) = trace w ++ [LLen key; LIndex key (-1)])
  /\ (now w - oldest < duration ->
      fst r = (false, None)
      /\ rdb (snd r) = Redis.Expire (now w) key secs (rdb w)
      /\ trace (snd r) = trace w ++ [LLen key; LIndex key (-1); Expire key secs]
      /\ (0 < secs ->
          Redis.get (now w) key (rdb (snd r)) = Some (l, Some (now w + secs)))
      /\ (duration = mul64 (ModelRequestRateLimitDurationMinutes cfg) 60 ->
          0 < ModelRequestRateLimitDurationMinutes cfg <= 153722867 ->
          Redis.get (now w) key (rdb (snd r)) = Some (l, Some (now w + duration)))).
Proof.
  intros Hpos Hup Hget Hfull Hlast r secs. subst r.
  unfold checkRedisRateLimit.
  replace (maxCount =? 0) with false by (symmetry; apply Z.eqb_neq; lia).
  unfold rdb_LLen. rewrite (LLen_length _ _ _ _ _ Hup Hget).
  replace (Z.of_nat (length l) <? maxCount) with false
    by (symmetry; apply Z.ltb_ge; lia).
  unfold rdb_LIndex. cbn [rdb now emit].
  rewrite (LIndex_last _ _ _ _ _ Hup Hget), Hlast.
  split; intros Hage.
  - replace (now w - oldest <? duration) with false
      by (symmetry; apply Z.ltb_ge; lia).
    cbn. rewrite <- app_assoc. auto.
  - replace (now w - oldest <? duration) with true
      by (symmetry; apply Z.ltb_lt; lia).
    assert (Hl : l <> []) by (intros ->; cbn in Hfull; lia).
    cbn. rewrite <- !app_assoc. repeat split.
    + intros Hs. now apply (Expire_deadline _ _ _ _ _ deadline Hup Hget).
    + intros Hd Hm.
      destruct (minutes_seconds_exact _ Hm) as [He Hs]. fold secs in He, Hs.
      rewrite Hd, <- He. now apply (Expire_deadline _ _ _ _ _ deadline Hup Hget).
Qed.


Lemma checkRedisRateLimit_zero key duration (w : World) :
  checkRedisRateLimit cfg key 0 duration w = ((true, None), w).
Proof. reflexivity. Qed.

Lemma recordRedisRequest_zero key (w : World) :
  recordRedisRequest cfg key 0 w = w.
Proof. reflexivity. Qed.

Lemma checkRedisRateLimit_frame key maxCount duration (w : World) :
  let w' := snd (checkRedisRateLimit cfg key maxCount duration w) in
  now w' = now w /\ response w' = response w
  /\ buckets w' = buckets w /\ mem w' = mem w
  /\ exists added,
      trace w' = trace w ++ added
      /\ Forall (window_op key) added
      /\ (if maxCount =? 0 then added = [] else exists rest, added = LLen key :: rest).
Proof.
  unfold checkRedisRateLimit.
  destruct (maxCount =? 0).
  { cbn. do 4 (split; [reflexivity|]). exists []. now rewrite app_nil_r. }
  unfold rdb_LLen, rdb_LIndex, rdb_Expire.
  destruct (Redis.LLen (now w) key (rdb w)) as [len|]; cbn;
    [|do 4 (split; [reflexivity|]); added_events [LLen key]].
  destruct (len <? maxCount); cbn;
    [do 4 (split; [reflexivity|]); added_events [LLen key]|].
  destruct (Redis.LIndex (now w) key (-1) (rdb w)) as [old|]; cbn.
  - destruct (now w - old <? duration); cbn; do 4 (split; [reflexivity|]).
    + added_events [LLen key; LIndex key (-1);
                    Expire key (minutes_seconds (ModelRequestRateLimitDurationMinutes cfg))].
    + added_events [LLen key; LIndex key (-1)].
  - do 4 (split; [reflexivity|]). added_events [LLen key; LIndex key (-1)].
Qed.

Lemma recordRedisRequest_frame key maxCount (w : World) :
  let w' := recordRedisRequest cfg key maxCount w in
  now w' = now w /\ response w' = response w
  /\ buckets w' = buckets w /\ mem w' = mem w
  /\ trace w' = trace w ++
       (if maxCount =? 0 then []
        else redis_record (minutes_seconds (ModelRequestRateLimitDurationMinutes cfg))
               key maxCount (now w)).
Proof.
  unfold recordRedisRequest, redis_record.
  destruct (maxCount =? 0); cbn.
  - repeat split. now rewrite app_nil_r.
  - repeat split. now rewrite <- !app_assoc.
Qed.

Lemma tb_allow_frame key capacity rate requested (w : World) :
  let w' := snd (tb_allow key capacity rate requested w) in
  now w' = now w /\ response w' = response w /\ rdb w' = rdb w /\ mem w' = mem w
  /\ trace w' = trace w ++ [Allow key capacity rate requested].
Proof.
  unfold tb_allow.
  destruct (tb_Allow (buckets w) (now w) key capacity rate requested); cbn.
  repeat split.
Qed.

Lemma mem_request_frame key maxRequestNum duration (w : World) :
  let w' := snd (inMemoryRateLimiter_Request key maxRequestNum duration w) in
  now w' = now w /\ response w' = response w /\ rdb w' = rdb w
  /\ buckets w' = buckets w
  /\ trace w' = trace w ++ [MemRequest key maxRequestNum duration].
Proof.
  unfold inMemoryRateLimiter_Request.
  destruct (mem_Request (mem w) (now w) key maxRequestNum duration); cbn.
  repeat split.
Qed.

Lemma check_total_redis_cases tM tL tMsg k t d (w : World) :
  let r := check_total_redis tM tL tMsg k t d w in
  now (snd r) = now w /\ rdb (snd r) = rdb w /\ mem (snd r) = mem w
  /\ trace (snd r)
     = trace w ++ (if t >? 0 then [Allow (marked_key tM k) (mul64 t d) t d] else [])
  /\ ((fst r = true /\ response (snd r) = response w)
      \/ (fst r = false /\ (t >? 0) = true
          /\ response (snd r)
             = (500, true, body w ++ [(500, "rate_limit_check_failed")]))
      \/ (fst r = false /\ (t >? 0) = true
          /\ response (snd r) = (429, true, body w ++ [(429, tMsg)]))).
Proof.
  unfold check_total_redis.
  destruct (t >? 0); cbn.
  2:{ rewrite app_nil_r. do 4 (split; [reflexivity|]). left. now split. }
  pose proof (tb_allow_frame (marked_key tM k) (mul64 t d) t d w) as F.
  destruct (tb_allow (marked_key tM k) (mul64 t d) t d w) as [res w1].
  cbn in F. destruct F as (Hn & Hr & Hdb & Hm & Ht).
  unfold response in *. injection Hr as Hst Hab Hbody.
  destruct res as [[|]|e]; cbn; rewrite ?Hn, ?Hdb, ?Hm, ?Ht, ?Hst, ?Hab, ?Hbody;
    do 4 (split; [reflexivity|]).
  - left. now split.
  - right. right. now repeat split.
  - right. left. now repeat split.
Qed.

Lemma check_key_redis_cases sM tM sL tL sMsg tMsg k t s d (w : World) :
  let r := check_key_redis cfg sM tM sL tL sMsg tMsg k t s d w in
  let bucket := [Allow (marked_key tM k) (mul64 t d) t d] in
  now (snd r) = now w /\ mem (snd r) = mem w
  /\ exists S B,
      trace (snd r) = trace w ++ S ++ B
      /\ Forall (window_op (marked_key sM k)) S
      /\ (if s >? 0 then exists rest, S = LLen (marked_key sM k) :: rest else S = [])
      /\ (B = [] \/ ((t >? 0) = true /\ B = bucket))
      /\ ((fst r = true /\ response (snd r) = response w
           /\ B = if t >? 0 then bucket else [])
          \/ (fst r = false
              /\ response (snd r)
                 = (500, true, body w ++ [(500, "rate_limit_check_failed")]))
          \/ (fst r = false /\ (s >? 0) = true /\ B = []
              /\ response (snd r) = (429, true, body w ++ [(429, sMsg)]))
          \/ (fst r = false /\ (t >? 0) = true /\ B = bucket
              /\ response (snd r) = (429, true, body w ++ [(429, tMsg)]))).
Proof.
  intros r bucket. subst r.
  assert (Hbucket : forall w1 : World,
             (if t >? 0 then bucket else []) = []
             \/ ((t >? 0) = true /\ (if t >? 0 then bucket else []) = bucket)).
  { intros _. destruct (t >? 0); [right|left]; auto. }
  unfold check_key_redis.
  destruct (s >? 0) eqn:Hs.
  - pose proof (checkRedisRateLimit_frame (marked_key sM k) s d w) as F.
    destruct (checkRedisRateLimit cfg (marked_key sM k) s d w) as [[allowed err] w1].
    cbn in F. destruct F as (Hn & Hr & _ & Hm & S & Ht & HS & Hfirst).
    replace (s =? 0) with false in Hfirst
      by (symmetry; apply Z.eqb_neq; apply Z.gtb_lt in Hs; lia).
    unfold response in Hr. injection Hr as Hst Hab Hbody.
    destruct err as [e|]; [|destruct allowed]; cbn.
    + split; [exact Hn|]. split; [exact Hm|]. exists S, [].
      rewrite app_nil_r. repeat (split; [first [assumption|auto]|]).
      right. left. unfold response. cbn. now rewrite Hbody.
    + pose proof (check_total_redis_cases tM tL tMsg k t d w1) as G.
      destruct (check_total_redis tM tL tMsg k t d w1) as [ok w2].
      cbn in G. destruct G as (Gn & _ & Gm & Gt & Gc). cbn [fst snd].
      split; [congruence|]. split; [congruence|].
      exists S, (if t >? 0 then bucket else []).
      split; [rewrite Gt, Ht; now rewrite app_assoc|].
      do 2 (split; [assumption|]). split; [apply (Hbucket w)|].
      unfold response in *. rewrite <- Hst, <- Hab, <- Hbody.
      destruct Gc as [[-> Gr]|[(-> & Hpos & Gr)|(-> & Hpos & Gr)]].
      * left. auto.
      * right. left. auto.
      * right. right. right. rewrite Hpos. auto.
    + split; [exact Hn|]. split; [exact Hm|]. exists S, [].
      rewrite app_nil_r. repeat (split; [first [assumption|auto]|]).
      right. right. left. unfold response. cbn. rewrite Hbody. auto.
  - pose proof (check_total_redis_cases tM tL tMsg k t d w) as G.
    destruct (check_total_redis tM tL tMsg k t d w) as [ok w2].
    cbn in G. destruct G as (Gn & _ & Gm & Gt & Gc). cbn [fst snd].
    split; [exact Gn|]. split; [exact Gm|].
    exists [], (if t >? 0 then bucket else []).
    split; [exact Gt|]. split; [apply Forall_nil_2|]. split; [reflexivity|].
    split; [apply (Hbucket w)|].
    destruct Gc as [[-> Gr]|[(-> & Hpos & Gr)|(-> & Hpos & Gr)]].
    * left. auto.
    * right. left. auto.
    * right. right. right. rewrite Hpos. auto.
Qed.

Lemma check_key_memory_cases expiration sM tM sMsg tMsg k t s d (w : World) :
  let r := check_key_memory expiration sM tM sMsg tMsg k t s d w in
  let total := if t >? 0 then [MemRequest (tM +:+ k) t d] else [] in
  let probe := [MemRequest ((sM +:+ k) +:+ "_check") s d] in
  now (snd r) = now w /\ rdb (snd r) = rdb w /\ buckets (snd r) = buckets w
  /\ exists C,
      trace (snd r) = trace w ++ MemInit expiration :: total ++ C
      /\ ((fst r = true /\ response (snd r) = response w
           /\ C = if s >? 0 then probe else [])
          \/ (fst r = false /\ (t >? 0) = true /\ C = []
              /\ response (snd r) = (429, true, body w ++ [(429, tMsg)]))
          \/ (fst r = false /\ (s >? 0) = true /\ C = probe
              /\ response (snd r) = (429, true, body w ++ [(429, sMsg)]))).
Proof.
  intros r total probe. subst r total probe.
  unfold check_key_memory, inMemoryRateLimiter_Init.
  set (w0 := emit (MemInit expiration) (set_mem (mem_Init (mem w) expiration) w)).
  assert (H0 : now w0 = now w /\ rdb w0 = rdb w /\ buckets w0 = buckets w
               /\ response w0 = response w
               /\ trace w0 = trace w ++ [MemInit expiration]) by (repeat split).
  clearbody w0. destruct H0 as (Hn0 & Hd0 & Hb0 & Hr0 & Ht0).
  assert (exists (ok : bool) (w1 : World),
             (if t >? 0 then inMemoryRateLimiter_Request (tM +:+ k) t d w0
              else (true, w0)) = (ok, w1)
             /\ now w1 = now w /\ rdb w1 = rdb w /\ buckets w1 = buckets w
             /\ response w1 = response w
             /\ trace w1 = trace w ++ MemInit expiration ::
                  (if t >? 0 then [MemRequest (tM +:+ k) t d] else [])
             /\ (ok = false -> (t >? 0) = true)) as (ok & w1 & -> & Hn1 & Hd1 & Hb1 & Hr1 & Ht1 & Hok).
  { destruct (t >? 0).
    - pose proof (mem_request_frame (tM +:+ k) t d w0) as F.
      destruct (inMemoryRateLimiter_Request (tM +:+ k) t d w0) as [ok w1].
      cbn in F. destruct F as (Fn & Fr & Fd & Fb & Ft).
      exists ok, w1. split; [reflexivity|].
      rewrite Fn, Fr, Fd, Fb, Ft, Ht0, <- app_assoc. auto 10.
    - exists true, w0. split; [reflexivity|].
      rewrite Ht0. repeat split; auto; try discriminate. }
  unfold response in Hr1. injection Hr1 as Hst Hab Hbody.
  destruct ok; cbn.
  2:{ do 3 (split; [assumption|]). exists []. rewrite app_nil_r.
      split; [exact Ht1|]. right. left. unfold response. cbn.
      rewrite Hbody. auto. }
  destruct (s >? 0) eqn:Hs; cbn.
  2:{ do 3 (split; [assumption|]). exists []. rewrite app_nil_r.
      split; [exact Ht1|]. left. unfold response. rewrite Hst, Hab, Hbody. auto. }
  pose proof (mem_request_frame ((sM +:+ k) +:+ "_check") s d w1) as F.
  destruct (inMemoryRateLimiter_Request ((sM +:+ k) +:+ "_check") s d w1) as [ok w2].
  cbn in F. destruct F as (Fn & Fr & Fd & Fb & Ft).
  unfold response in Fr. injection Fr as Fst Fab Fbody.
  assert (Ht2 : trace w2 = trace w ++ MemInit expiration ::
                  (if t >? 0 then [MemRequest (tM +:+ k) t d] else [])
                  ++ [MemRequest ((sM +:+ k) +:+ "_check") s d]).
  { rewrite Ft, Ht1, <- app_assoc. reflexivity. }
  destruct ok; cbn.
  - split; [now rewrite Fn|]. split; [now rewrite Fd|]. split; [now rewrite Fb|].
    eexists. split; [exact Ht2|].
    left. unfold response. rewrite Fst, Fab, Fbody, Hst, Hab, Hbody. auto.
  - split; [now rewrite Fn|]. split; [now rewrite Fd|]. split; [now rewrite Fb|].
    eexists. split; [exact Ht2|].
    right. right. unfold response. cbn. rewrite Fbody, Hbody. auto.
Qed.

Lemma Next_ran next (w : World) :
  aborted w = false -> trace (Next next w) = trace w ++ [Handler].
Proof. intros H. unfold Next. now rewrite H. Qed.

Lemma Next_aborted next (w : World) :
  aborted w = true -> Next next w = w.
Proof. intros H. unfold Next. now rewrite H. Qed.

Lemma redis_finish next key s (w : World) :
  aborted w = false ->
  let w' :=
    (let w1 := Next next w in
     if status w1 <? 400 then recordRedisRequest cfg key s w1 else w1) in
  trace w' = trace w ++ Handler ::
    (if status w' <? 400 then
       if s =? 0 then []
       else redis_record (minutes_seconds (ModelRequestRateLimitDurationMinutes cfg))
              key s (now w')
     else []).
Proof.
  intros Hab. cbn zeta.
  pose proof (Next_ran next w Hab) as Ht.
  destruct (status (Next next w) <? 400) eqn:Hst.
  - pose proof (recordRedisRequest_frame key s (Next next w)) as F.
    cbn zeta in F. destruct F as (Fn & Fr & _ & _ & Ft).
    unfold response in Fr. injection Fr as Fst _ _.
    rewrite Fst, Hst, Fn, Ft, Ht, <- app_assoc. reflexivity.
  - rewrite Hst, Ht. reflexivity.
Qed.

Lemma redisRateLimitHandler_cases d t s c next (w : World) :
  aborted w = false ->
  let w' := redisRateLimitHandler cfg d t s c next w in
  let sk := marked_key ModelRequestRateLimitSuccessCountMark (itoa (id c)) in
  let bucket := [Allow ("rateLimit:" +:+ itoa (id c)) (mul64 t d) t d] in
  let secs := minutes_seconds (ModelRequestRateLimitDurationMinutes cfg) in
  exists S B,
    Forall (window_op sk) S
    /\ (if s =? 0 then S = [] else exists rest, S = LLen sk :: rest)
    /\ (B = [] \/ ((t >? 0) = true /\ B = bucket))
    /\ ((trace w' = trace w ++ S ++ B
         /\ response w' = (500, true, body w ++ [(500, "rate_limit_check_failed")]))
        \/ (trace w' = trace w ++ S ++ B /\ B = []
            /\ response w' = (429, true, body w ++ [(429, user_success_message cfg s)]))
        \/ (trace w' = trace w ++ S ++ B /\ B = bucket
            /\ response w' = (429, true, body w ++ [(429, user_total_message cfg t)]))
        \/ (B = (if t >? 0 then bucket else [])
            /\ trace w' = trace w ++ S ++ B ++ Handler ::
                 (if status w' <? 400 then
                    if s =? 0 then [] else redis_record secs sk s (now w')
                  else []))).
Proof.
  intros Hab w' sk bucket secs. subst w'.
  unfold redisRateLimitHandler. fold sk.
  pose proof (checkRedisRateLimit_frame sk s d w) as F.
  destruct (checkRedisRateLimit cfg sk s d w) as [[allowed err] w1].
  cbn in F. destruct F as (Hn & Hr & _ & _ & S & Ht & HS & Hfirst).
  unfold response in Hr. injection Hr as Hst Hab1 Hbody.
  exists S.
  destruct err as [e|]; [|destruct allowed]; cbn [negb].
  - exists []. do 2 (split; [assumption|]). split; [now left|].
    left. rewrite app_nil_r. unfold response. cbn. now rewrite Hbody.
  - destruct (t >? 0) eqn:Hpos.
    + pose proof (tb_allow_frame ("rateLimit:" +:+ itoa (id c)) (mul64 t d) t d w1) as G.
      destruct (tb_allow ("rateLimit:" +:+ itoa (id c)) (mul64 t d) t d w1) as [res w2].
      cbn in G. destruct G as (Gn & Gr & _ & _ & Gt).
      unfold response in Gr. injection Gr as Gst Gab Gbody.
      exists bucket. do 2 (split; [assumption|]). split; [now right|].
      assert (Ht2 : trace w2 = trace w ++ S ++ bucket)
        by (rewrite Gt, Ht, <- app_assoc; reflexivity).
      destruct res as [[|]|e]; cbn [negb].
      * right. right. right. split; [reflexivity|].
        assert (Hab2 : aborted w2 = false) by congruence.
        pose proof (redis_finish next sk s w2 Hab2) as Hf.
        cbv beta zeta in Hf |- *.
        rewrite Hf, Ht2, <- !app_assoc. reflexivity.
      * right. right. left.
        rewrite Next_aborted by reflexivity. cbn.
        split; [exact Ht2|]. split; [reflexivity|].
        unfold response. cbn. now rewrite Gbody, Hbody.
      * left. split; [exact Ht2|].
        unfold response. cbn. now rewrite Gbody, Hbody.
    + exists []. do 2 (split; [assumption|]). split; [now left|].
      right. right. right. split; [reflexivity|].
      assert (Hab2 : aborted w1 = false) by congruence.
      pose proof (redis_finish next sk s w1 Hab2) as Hf.
      cbv beta zeta in Hf |- *.
      rewrite Hf, Ht, <- app_assoc. reflexivity.
  - exists []. do 2 (split; [assumption|]). split; [now left|].
    right. left. rewrite app_nil_r. unfold response. cbn. now rewrite Hbody.
Qed.

Lemma memoryRateLimitHandler_cases d t s c next (w : World) :
  aborted w = false ->
  let w' := memoryRateLimitHandler cfg d t s c next w in
  let expiration := minutes_duration (ModelRequestRateLimitDurationMinutes cfg) in
  let total :=
    if t >? 0
    then [MemRequest (ModelRequestRateLimitCountMark +:+ itoa (id c)) t d] else [] in
  let sk := ModelRequestRateLimitSuccessCountMark +:+ itoa (id c) in
  let probe := MemRequest (sk +:+ "_check") s d in
  ((t >? 0) = true
   /\ trace w' = trace w ++ MemInit expiration :: total
   /\ response w' = (429, true, body w))
  \/ (trace w' = trace w ++ MemInit expiration :: total ++ [probe]
      /\ response w' = (429, true, body w))
  \/ trace w' = trace w ++ MemInit expiration :: total ++ probe :: Handler ::
       (if status w' <? 400 then [MemRequest sk s d] else []).
Proof.
  intros Hab w' expiration total sk probe. subst w' total probe.
  unfold memoryRateLimitHandler, inMemoryRateLimiter_Init. fold expiration sk.
  set (w0 := emit (MemInit expiration) (set_mem (mem_Init (mem w) expiration) w)).
  assert (H0 : response w0 = response w
               /\ trace w0 = trace w ++ [MemInit expiration]) by (split; reflexivity).
  clearbody w0. destruct H0 as (Hr0 & Ht0).
  set (tk := ModelRequestRateLimitCountMark +:+ itoa (id c)).
  assert (exists (ok : bool) (w1 : World),
             (if t >? 0 then inMemoryRateLimiter_Request tk t d w0
              else (true, w0)) = (ok, w1)
             /\ response w1 = response w
             /\ trace w1 = trace w ++ MemInit expiration ::
                  (if t >? 0 then [MemRequest tk t d] else [])
             /\ (ok = false -> (t >? 0) = true))
    as (ok & w1 & -> & Hr1 & Ht1 & Hok).
  { destruct (t >? 0).
    - pose proof (mem_request_frame tk t d w0) as F.
      destruct (inMemoryRateLimiter_Request tk t d w0) as [ok w1].
      cbn in F. destruct F as (_ & Fr & _ & _ & Ft).
      exists ok, w1. split; [reflexivity|].
      rewrite Fr, Ft, Ht0, <- app_assoc. auto.
    - exists true, w0. split; [reflexivity|].
      rewrite Ht0. repeat split; auto; try discriminate. }
  unfold response in Hr1. injection Hr1 as Hst Hab1 Hbody.
  destruct ok; cbn [negb].
  2:{ left. split; [auto|]. split; [exact Ht1|].
      unfold response. cbn. now rewrite Hbody. }
  pose proof (mem_request_frame (sk +:+ "_check") s d w1) as F.
  destruct (inMemoryRateLimiter_Request (sk +:+ "_check") s d w1) as [ok w2].
  cbn in F. destruct F as (_ & Fr & _ & _ & Ft).
  unfold response in Fr. injection Fr as Fst Fab Fbody.
  assert (Ht2 : trace w2 = trace w ++ MemInit expiration ::
                  (if t >? 0 then [MemRequest tk t d] else [])
                  ++ [MemRequest (sk +:+ "_check") s d]).
  { rewrite Ft, Ht1, <- app_assoc. reflexivity. }
  destruct ok; cbn [negb].
  2:{ right. left. split; [exact Ht2|]. unfold response. cbn.
      now rewrite Fbody, Hbody. }
  right. right.
  assert (Hab2 : aborted w2 = false) by congruence.
  pose proof (Next_ran next w2 Hab2) as Htn.
  destruct (status (Next next w2) <? 400) eqn:Hs400.
  - pose proof (mem_request_frame sk s d (Next next w2)) as G.
    cbn zeta in G. destruct G as (_ & Gr & _ & _ & Gt).
    unfold response in Gr. injection Gr as Gst _ _.
    rewrite Gst, Hs400, Gt, Htn, Ht2.
    rewrite <- ?app_assoc; cbn [app]; rewrite <- ?app_assoc. reflexivity.
  - rewrite Hs400, Htn, Ht2.
    rewrite <- ?app_assoc; cbn [app]; rewrite <- ?app_assoc. reflexivity.
Qed.

Lemma window_op_not_handler key S :
  Forall (window_op key) S -> Forall (fun e => e <> Handler) S.
Proof.
  intros H. eapply Forall_impl; [exact H|].
  intros e [->|[->|[x ->]]]; discriminate.
Qed.

Lemma admission_skip (w : World) : admission w (true, w).
Proof.
  split; [reflexivity|]. exists []. rewrite app_nil_r.
  split; [reflexivity|]. split; [apply Forall_nil_2|]. left. now split.
Qed.

Lemma check_key_redis_admission sM tM sL tL sMsg tMsg k t s d (w : World) :
  admission w (check_key_redis cfg sM tM sL tL sMsg tMsg k t s d w).
Proof.
  destruct (check_key_redis_cases sM tM sL tL sMsg tMsg k t s d w)
    as (Hn & _ & S & B & Ht & HS & _ & HB & Hc).
  split; [exact Hn|]. exists (S ++ B). split; [exact Ht|]. split.
  - apply Forall_app. split; [now apply window_op_not_handler in HS|].
    destruct HB as [->|[_ ->]]; [apply Forall_nil_2|].
    apply Forall_cons_2; [discriminate|apply Forall_nil_2].
  - destruct Hc as [(Hok & Hr & _)|[(Hok & Hr)|[(Hok & _ & _ & Hr)|(Hok & _ & _ & Hr)]]];
      [left; now split|right..];
      unfold response in Hr; injection Hr as Hst Hab _;
      rewrite Hst; (split; [exact Hok|split; [exact Hab|lia]]).
Qed.

Lemma check_key_memory_admission expiration sM tM sMsg tMsg k t s d (w : World) :
  admission w (check_key_memory expiration sM tM sMsg tMsg k t s d w).
Proof.
  destruct (check_key_memory_cases expiration sM tM sMsg tMsg k t s d w)
    as (Hn & _ & _ & C & Ht & Hc).
  split; [exact Hn|]. eexists. split; [exact Ht|]. split.
  - apply Forall_cons_2; [discriminate|]. apply Forall_app. split.
    + destruct (t >? 0); [apply Forall_cons_2; [discriminate|]|]; apply Forall_nil_2.
    + destruct Hc as [(_ & _ & ->)|[(_ & _ & -> & _)|(_ & _ & -> & _)]].
      * destruct (s >? 0); [apply Forall_cons_2; [discriminate|]|]; apply Forall_nil_2.
      * apply Forall_nil_2.
      * apply Forall_cons_2; [discriminate|apply Forall_nil_2].
  - destruct Hc as [(Hok & Hr & _)|[(Hok & _ & _ & Hr)|(Hok & _ & _ & Hr)]];
      [left; now split|right..];
      unfold response in Hr; injection Hr as Hst Hab _;
      rewrite Hst; (split; [exact Hok|split; [exact Hab|lia]]).
Qed.

Lemma checkTokenRateLimit_admission c (w : World) :
  admission w (checkTokenRateLimit cfg RedisEnabled c w).
Proof.
  unfold checkTokenRateLimit.
  destruct (negb (TokenRateLimitEnabled cfg)); [apply admission_skip|].
  destruct (token_id c =? 0); [apply admission_skip|].
  destruct (resolve _ _ _) as [t s].
  destruct ((t =? 0) && (s =? 0)); [apply admission_skip|].
  destruct RedisEnabled.
  - apply check_key_redis_admission.
  - apply check_key_memory_admission.
Qed.

Lemma checkTokenDailyRateLimit_admission c (w : World) :
  admission w (checkTokenDailyRateLimit cfg RedisEnabled c w).
Proof.
  unfold checkTokenDailyRateLimit.
  destruct (negb (TokenDailyRateLimitEnabled cfg)); [apply admission_skip|].
  destruct (token_id c =? 0); [apply admission_skip|].
  destruct (resolve _ _ _) as [t s].
  destruct ((t =? 0) && (s =? 0)); [apply admission_skip|].
  destruct RedisEnabled.
  - apply check_key_redis_admission.
  - apply check_key_memory_admission.
Qed.

Lemma resolve_success found a b s : snd (resolve found a s) = snd (resolve found b s).
Proof. destruct found as [[gt gs] []]; reflexivity. Qed.

Lemma success_record_frame mark ident maxCount duration (w : World) :
  maxCount <> 0 ->
  let w' :=
    if RedisEnabled
    then recordRedisRequest cfg (marked_key mark (itoa ident)) maxCount w
    else snd (inMemoryRateLimiter_Request (mark +:+ itoa ident) maxCount duration w) in
  now w' = now w /\ response w' = response w
  /\ trace w' = trace w ++ success_record cfg RedisEnabled mark ident maxCount duration (now w).
Proof.
  intros Hm. unfold success_record. destruct RedisEnabled; cbn zeta.
  - destruct (recordRedisRequest_frame (marked_key mark (itoa ident)) maxCount w)
      as (Hn & Hr & _ & _ & Ht). auto.
  - destruct (mem_request_frame (mark +:+ itoa ident) maxCount duration w)
      as (Hn & Hr & _ & _ & Ht). auto.
Qed.

Lemma recordTokenRateLimitSuccess_frame c (w : World) :
  let w' := recordTokenRateLimitSuccess cfg RedisEnabled c w in
  now w' = now w /\ response w' = response w
  /\ trace w' = trace w ++ minute_record cfg RedisEnabled c (now w).
Proof.
  unfold recordTokenRateLimitSuccess, minute_record, minute_limits.
  destruct (TokenRateLimitEnabled cfg); cbn [negb andb];
    [|now rewrite app_nil_r].
  destruct (token_id c =? 0); cbn [negb andb]; [now rewrite app_nil_r|].
  rewrite (resolve_success _ (TokenRateLimitCount cfg) 0).
  destruct (resolve (GetTokenRateLimit cfg (token_group c)) 0
              (TokenRateLimitSuccessCount cfg)) as [t s]. cbn [snd].
  destruct (s =? 0) eqn:Hs; cbn [negb]; [now rewrite app_nil_r|].
  apply Z.eqb_neq in Hs.
  apply (success_record_frame TokenRateLimitSuccessCountMark (token_id c) s
           (mul64 (TokenRateLimitDurationMinutes cfg) 60) w Hs).
Qed.

Lemma recordTokenDailySuccess_frame c (w : World) :
  let w' := recordTokenDailySuccess cfg RedisEnabled c w in
  now w' = now w /\ response w' = response w
  /\ trace w' = trace w ++ daily_record cfg RedisEnabled c (now w).
Proof.
  unfold recordTokenDailySuccess, daily_record, daily_limits.
  destruct (TokenDailyRateLimitEnabled cfg); cbn [negb andb];
    [|now rewrite app_nil_r].
  destruct (token_id c =? 0); cbn [negb andb]; [now rewrite app_nil_r|].
  rewrite (resolve_success _ (TokenDailyRateLimitCount cfg) 0).
  destruct (resolve (GetTokenDailyRateLimit cfg (token_group c)) 0
              (TokenDailyRateLimitSuccessCount cfg)) as [t s]. cbn [snd].
  destruct (s =? 0) eqn:Hs; cbn [negb]; [now rewrite app_nil_r|].
  apply Z.eqb_neq in Hs.
  apply (success_record_frame TokenDailyRateLimitSuccessCountMark (token_id c) s
           86400 w Hs).
Qed.

Lemma record_key_success_frame c (w : World) :
  let w' := record_key_success cfg RedisEnabled c w in
  now w' = now w /\ response w' = response w
  /\ trace w' = trace w ++
       (if status w <? 400
        then minute_record cfg RedisEnabled c (now w)
             ++ daily_record cfg RedisEnabled c (now w)
        else []).
Proof.
  unfold record_key_success.
  destruct (status w <? 400); [|now rewrite app_nil_r].
  destruct (recordTokenRateLimitSuccess_frame c w) as (Hn & Hr & Ht).
  destruct (recordTokenDailySuccess_frame c
              (recordTokenRateLimitSuccess cfg RedisEnabled c w)) as (Gn & Gr & Gt).
  cbn zeta. rewrite Gn, Gr, Gt, Hn, Hr, Ht, <- app_assoc. auto.
Qed.

Lemma user_handler_shape d t s c next (w : World) :
  aborted w = false ->
  let w' :=
    if RedisEnabled
    then redisRateLimitHandler cfg d t s c next w
    else memoryRateLimitHandler cfg d t s c next w in
  exists checks,
    Forall (fun e => e <> Handler) checks
    /\ ((trace w' = trace w ++ checks /\ aborted w' = true /\ 400 <= status w')
        \/ trace w' = trace w ++ checks ++ Handler ::
             (if status w' <? 400
              then success_record cfg RedisEnabled
                     ModelRequestRateLimitSuccessCountMark (id c) s d (now w')
              else [])).
Proof.
  intros Hab. unfold success_record. destruct RedisEnabled; cbn zeta.
  - destruct (redisRateLimitHandler_cases d t s c next w Hab)
      as (S & B & HS & _ & HB & Hc).
    exists (S ++ B). split.
    { apply Forall_app. split; [now apply window_op_not_handler in HS|].
      destruct HB as [->|[_ ->]]; [apply Forall_nil_2|].
      apply Forall_cons_2; [discriminate|apply Forall_nil_2]. }
    destruct Hc as [(Ht & Hr)|[(Ht & _ & Hr)|[(Ht & _ & Hr)|(_ & Ht)]]];
      [left..|right].
    1-3: unfold response in Hr; injection Hr as Hst Hab' _;
         rewrite Hst; (split; [exact Ht|split; [exact Hab'|lia]]).
    rewrite Ht, <- app_assoc. reflexivity.
  - destruct (memoryRateLimitHandler_cases d t s c next w Hab)
      as [(_ & Ht & Hr)|[(Ht & Hr)|Ht]].
    + eexists. split; [|left; split; [exact Ht|]].
      * apply Forall_cons_2; [discriminate|].
        destruct (t >? 0); [apply Forall_cons_2; [discriminate|]|]; apply Forall_nil_2.
      * unfold response in Hr. injection Hr as Hst Hab' _. rewrite Hst. split; [exact Hab'|lia].
    + eexists. split; [|left; split; [exact Ht|]].
      * apply Forall_cons_2; [discriminate|]. apply Forall_app. split.
        -- destruct (t >? 0); [apply Forall_cons_2; [discriminate|]|]; apply Forall_nil_2.
        -- apply Forall_cons_2; [discriminate|apply Forall_nil_2].
      * unfold response in Hr. injection Hr as Hst Hab' _. rewrite Hst. split; [exact Hab'|lia].
    + exists (MemInit (minutes_duration (ModelRequestRateLimitDurationMinutes cfg))
              :: (if t >? 0
                  then [MemRequest (ModelRequestRateLimitCountMark +:+ itoa (id c)) t d]
                  else [])
              ++ [MemRequest ((ModelRequestRateLimitSuccessCountMark +:+ itoa (id c))
                              +:+ "_check") s d]).
      split.
      * apply Forall_cons_2; [discriminate|]. apply Forall_app. split.
        -- destruct (t >? 0); [apply Forall_cons_2; [discriminate|]|]; apply Forall_nil_2.
        -- apply Forall_cons_2; [discriminate|apply Forall_nil_2].
      * right. rewrite Ht. cbn [app]. rewrite <- app_assoc. reflexivity.
Qed.

(** The shape of every run of the middleware that starts with the chain not
    aborted: admission checks, then either nothing more, with the chain
    aborted and an error status, or the handler followed by the success
    records of the user, of the key's minute and of the key's day, which are
    made when the final status is below 400. *)
Lemma ModelRequestRateLimit_shape c next (w : World) :
  aborted w = false ->
  let w' := ModelRequestRateLimit cfg RedisEnabled c next w in
  exists checks,
    Forall (fun e => e <> Handler) checks
    /\ ((trace w' = trace w ++ checks /\ aborted w' = true /\ 400 <= status w')
        \/ trace w' = trace w ++ checks ++ Handler ::
             (if status w' <? 400
              then user_record cfg RedisEnabled c (now w')
                   ++ minute_record cfg RedisEnabled c (now w')
                   ++ daily_record cfg RedisEnabled c (now w')
              else [])).
Proof.
  intros Hab w'. subst w'. unfold ModelRequestRateLimit.
  destruct (checkTokenRateLimit_admission c w) as (_ & a1 & Ht1 & Ha1 & Hc1).
  destruct (checkTokenRateLimit cfg RedisEnabled c w) as [ok1 w1].
  cbn [fst snd] in *.
  destruct Hc1 as [[-> Hr1]|(-> & Hab1 & Hst1)]; cbn [negb].
  2:{ exists a1. split; [exact Ha1|]. left. auto. }
  unfold response in Hr1. injection Hr1 as _ Hab1 _.
  destruct (checkTokenDailyRateLimit_admission c w1) as (_ & a2 & Ht2 & Ha2 & Hc2).
  destruct (checkTokenDailyRateLimit cfg RedisEnabled c w1) as [ok2 w2].
  cbn [fst snd] in *.
  assert (Ht12 : trace w2 = trace w ++ a1 ++ a2)
    by (rewrite Ht2, Ht1, <- app_assoc; reflexivity).
  assert (Ha12 : Forall (fun e => e <> Handler) (a1 ++ a2))
    by (apply Forall_app; now split).
  destruct Hc2 as [[-> Hr2]|(-> & Hab2 & Hst2)]; cbn [negb].
  2:{ exists (a1 ++ a2). split; [exact Ha12|]. left. auto. }
  unfold response in Hr2. injection Hr2 as _ Hab2 _.
  assert (Hab3 : aborted w2 = false) by congruence.
  unfold user_record, user_limits.
  destruct (ModelRequestRateLimitEnabled cfg); cbn [negb].
  - destruct (resolve (GetGroupRateLimit cfg (user_group c))
                (ModelRequestRateLimitCount cfg)
                (ModelRequestRateLimitSuccessCount cfg)) as [t s]. cbn [snd].
    set (d := mul64 (ModelRequestRateLimitDurationMinutes cfg) 60).
    destruct (user_handler_shape d t s c next w2 Hab3) as (a3 & Ha3 & Hc3).
    cbn zeta in Hc3.
    set (w3 := if RedisEnabled
               then redisRateLimitHandler cfg d t s c next w2
               else memoryRateLimitHandler cfg d t s c next w2) in *.
    clearbody w3.
    destruct (record_key_success_frame c w3) as (Hn & Hr & Ht).
    unfold response in Hr. injection Hr as Hst Hab4 _.
    exists ((a1 ++ a2) ++ a3). split; [apply Forall_app; now split|].
    destruct Hc3 as [(Ht3 & Hab5 & Hge)|Ht3].
    + left. rewrite Hst, Hab4, Ht, Ht3, Ht12.
      replace (status w3 <? 400) with false by (symmetry; apply Z.ltb_ge; lia).
      rewrite app_nil_r, <- !app_assoc. auto.
    + right. rewrite Hst, Hn, Ht, Ht3, Ht12.
      destruct (status w3 <? 400); cbn [app];
        rewrite <- ?app_assoc; cbn [app]; rewrite <- ?app_assoc;
        rewrite ?app_nil_r; reflexivity.
  - pose proof (Next_ran next w2 Hab3) as Htn.
    destruct (record_key_success_frame c (Next next w2)) as (Hn & Hr & Ht).
    unfold response in Hr. injection Hr as Hst _ _.
    exists (a1 ++ a2). split; [exact Ha12|]. right.
    rewrite Hst, Hn, Ht, Htn, Ht12.
    destruct (status (Next next w2) <? 400); cbn [app];
      rewrite <- ?app_assoc; cbn [app]; rewrite <- ?app_assoc;
      rewrite ?app_nil_r; reflexivity.
Qed.

(** C1, as the code has it. When the three success tiers are on and the
    request, admitted with the chain not aborted, ends with a status below
    400, the trace ends with the call of the handler followed by the success
    record of the user, then that of the key's minute, then that of the key's
    day: three list commands each on the shared backend, one request each to
    the in-process limiter. *)
Theorem success_records_in_order (c : Request) (next : World -> World) (w : World) :
  aborted w = false ->
  ModelRequestRateLimitEnabled cfg = true ->
  TokenRateLimitEnabled cfg = true ->
  TokenDailyRateLimitEnabled cfg = true ->
  token_id c <> 0 ->
  snd (user_limits cfg c) <> 0 ->
  snd (minute_limits cfg c) <> 0 ->
  snd (daily_limits cfg c) <> 0 ->
  let w' := ModelRequestRateLimit cfg RedisEnabled c next w in
  let secs := minutes_seconds (ModelRequestRateLimitDurationMinutes cfg) in
  status w' < 400 ->
  exists checks,
    Forall (fun e => e <> Handler) checks
    /\ trace w' = trace w ++ checks ++ Handler ::
         (if RedisEnabled then
            redis_record secs
              (marked_key ModelRequestRateLimitSuccessCountMark (itoa (id c)))
              (snd (user_limits cfg c)) (now w')
            ++ redis_record secs
                 (marked_key TokenRateLimitSuccessCountMark (itoa (token_id c)))
                 (snd (minute_limits cfg c)) (now w')
            ++ redis_record secs
                 (marked_key TokenDailyRateLimitSuccessCountMark (itoa (token_id c)))
                 (snd (daily_limits cfg c)) (now w')
          else
            [MemRequest (ModelRequestRateLimitSuccessCountMark +:+ itoa (id c))
               (snd (user_limits cfg c))
               (mul64 (ModelRequestRateLimitDurationMinutes cfg) 60);
             MemRequest (TokenRateLimitSuccessCountMark +:+ itoa (token_id c))
               (snd (minute_limits cfg c))
               (mul64 (TokenRateLimitDurationMinutes cfg) 60);
             MemRequest (TokenDailyRateLimitSuccessCountMark +:+ itoa (token_id c))
               (snd (daily_limits cfg c)) 86400]).
Proof.
  intros Hab Hu Hm Hd Htid Hsu Hsm Hsd w' secs Hst.
  destruct (ModelRequestRateLimit_shape c next w Hab) as (checks & Hc & Hshape).
  fold w' in Hshape. exists checks. split; [exact Hc|].
  destruct Hshape as [(_ & _ & Hge)|Ht]; [lia|].
  rewrite Ht. do 3 f_equal.
  replace (status w' <? 400) with true by (symmetry; apply Z.ltb_lt; lia).
  unfold user_record, minute_record, daily_record, success_record.
  rewrite Hu, Hm, Hd.
  apply Z.eqb_neq in Htid, Hsu, Hsm, Hsd. rewrite Htid, Hsm, Hsd. cbn [negb andb].
  destruct RedisEnabled; [|reflexivity].
  now rewrite Hsu.
Qed.

(** C2, as the code has it. On the shared backend each tier runs the
    commands of its success check first and asks the token bucket of the total
    limit after them. On the in-process limiter it is the other way round in
    every tier: the request for the total limit comes first, the probe of the
    success limit after it. *)
Theorem checks_ordered_by_backend (k : string) (t s d : Z) (c : Request)
    (next : World -> World) (w : World) :
  (exists S B,
      trace (snd (checkTokenRateLimitRedis cfg k t s d w)) = trace w ++ S ++ B
      /\ Forall (window_op (marked_key TokenRateLimitSuccessCountMark k)) S
      /\ (if s >? 0
          then exists rest, S = LLen (marked_key TokenRateLimitSuccessCountMark k) :: rest
          else S = [])
      /\ (B = [] \/ ((t >? 0) = true
                     /\ B = [Allow (marked_key TokenRateLimitCountMark k) (mul64 t d) t d])))
  /\ (exists S B,
         trace (snd (checkTokenDailyRateLimitRedis cfg k t s d w)) = trace w ++ S ++ B
         /\ Forall (window_op (marked_key TokenDailyRateLimitSuccessCountMark k)) S
         /\ (if s >? 0
             then exists rest,
                 S = LLen (marked_key TokenDailyRateLimitSuccessCountMark k) :: rest
             else S = [])
         /\ (B = [] \/ ((t >? 0) = true
                        /\ B = [Allow (marked_key TokenDailyRateLimitCountMark k)
                                  (mul64 t d) t d])))
  /\ (aborted w = false ->
      exists S B rest,
        trace (redisRateLimitHandler cfg d t s c next w) = trace w ++ S ++ B ++ rest
        /\ Forall (window_op (marked_key ModelRequestRateLimitSuccessCountMark
                                (itoa (id c)))) S
        /\ (if s =? 0 then S = []
            else exists rest,
                S = LLen (marked_key ModelRequestRateLimitSuccessCountMark
                            (itoa (id c))) :: rest)
        /\ (B = [] \/ ((t >? 0) = true
                       /\ B = [Allow ("rateLimit:" +:+ itoa (id c)) (mul64 t d) t d]))
        /\ (rest = [] \/ exists records, rest = Handler :: records))
  /\ (exists C,
         trace (snd (checkTokenRateLimitMemory cfg k t s d w))
         = trace w ++ MemInit (minutes_duration (TokenRateLimitDurationMinutes cfg)) ::
             (if t >? 0 then [MemRequest (TokenRateLimitCountMark +:+ k) t d] else [])
             ++ C
         /\ (C = [] \/ ((s >? 0) = true
                        /\ C = [MemRequest ((TokenRateLimitSuccessCountMark +:+ k)
                                            +:+ "_check") s d])))
  /\ (exists C,
         trace (snd (checkTokenDailyRateLimitMemory k t s d w))
         = trace w ++ MemInit (24 * Hour) ::
             (if t >? 0 then [MemRequest (TokenDailyRateLimitCountMark +:+ k) t d] else [])
             ++ C
         /\ (C = [] \/ ((s >? 0) = true
                        /\ C = [MemRequest ((TokenDailyRateLimitSuccessCountMark +:+ k)
                                            +:+ "_check") s d])))
  /\ (aborted w = false ->
      exists rest,
        trace (memoryRateLimitHandler cfg d t s c next w)
        = trace w ++ MemInit (minutes_duration (ModelRequestRateLimitDurationMinutes cfg)) ::
            (if t >? 0
             then [MemRequest (ModelRequestRateLimitCountMark +:+ itoa (id c)) t d]
             else [])
            ++ rest
        /\ (rest = []
            \/ exists more,
                rest = MemRequest ((ModelRequestRateLimitSuccessCountMark +:+ itoa (id c))
                                   +:+ "_check") s d :: more)).
Proof.
  split; [|split; [|split; [|split; [|split]]]].
  - destruct (check_key_redis_cases TokenRateLimitSuccessCountMark TokenRateLimitCountMark
                "检查密钥成功请求数限制失败:" "检查密钥总请求数限制失败:"
                (key_success_message cfg s) (key_total_message cfg t) k t s d w)
      as (_ & _ & S & B & Ht & HS & Hf & HB & _).
    exists S, B. auto.
  - destruct (check_key_redis_cases TokenDailyRateLimitSuccessCountMark
                TokenDailyRateLimitCountMark
                "检查每日成功请求数限制失败:" "检查每日总请求数限制失败:"
                daily_success_message daily_total_message k t s d w)
      as (_ & _ & S & B & Ht & HS & Hf & HB & _).
    exists S, B. auto.
  - intros Hab.
    destruct (redisRateLimitHandler_cases d t s c next w Hab)
      as (S & B & HS & Hf & HB & Hc).
    exists S, B.
    destruct Hc as [(Ht & _)|[(Ht & _)|[(Ht & _)|(_ & Ht)]]].
    1-3: exists []; rewrite app_nil_r; auto 10.
    eexists. split; [exact Ht|]. eauto 10.
  - destruct (check_key_memory_cases (minutes_duration (TokenRateLimitDurationMinutes cfg))
                TokenRateLimitSuccessCountMark TokenRateLimitCountMark
                (key_success_message cfg s) (key_total_message cfg t) k t s d w)
      as (_ & _ & _ & C & Ht & Hc).
    exists C. split; [exact Ht|].
    destruct Hc as [(_ & _ & ->)|[(_ & _ & -> & _)|(_ & Hs & -> & _)]]; auto.
    destruct (s >? 0); auto.
  - destruct (check_key_memory_cases (24 * Hour)
                TokenDailyRateLimitSuccessCountMark TokenDailyRateLimitCountMark
                daily_success_message daily_total_message k t s d w)
      as (_ & _ & _ & C & Ht & Hc).
    exists C. split; [exact Ht|].
    destruct Hc as [(_ & _ & ->)|[(_ & _ & -> & _)|(_ & Hs & -> & _)]]; auto.
    destruct (s >? 0); auto.
  - intros Hab.
    destruct (memoryRateLimitHandler_cases d t s c next w Hab)
      as [(_ & Ht & _)|[(Ht & _)|Ht]].
    + exists []. rewrite app_nil_r. auto.
    + eexists. split; [exact Ht|]. eauto.
    + eexists. split; [exact Ht|]. eauto.
Qed.

(** The verdict of a per-key check on the shared backend, read off the answer
    of its success check and of the token bucket. *)
Lemma check_key_redis_verdict sM tM sL tL sMsg tMsg k t s d (w : World) :
  let sk := marked_key sM k in
  let ask := Allow (marked_key tM k) (mul64 t d) t d in
  let r := check_key_redis cfg sM tM sL tL sMsg tMsg k t s d w in
  exists S,
    Forall (window_op sk) S
    /\ (if s >? 0
        then trace (snd (checkRedisRateLimit cfg sk s d w)) = trace w ++ S
        else S = [])
    /\ match (if s >? 0 then fst (checkRedisRateLimit cfg sk s d w) else (true, None)) with
       | (_, Some _) =>
           fst r = false /\ trace (snd r) = trace w ++ S /\ buckets (snd r) = buckets w
           /\ response (snd r) = (500, true, body w ++ [(500, "rate_limit_check_failed")])
       | (false, None) =>
           fst r = false /\ trace (snd r) = trace w ++ S /\ buckets (snd r) = buckets w
           /\ response (snd r) = (429, true, body w ++ [(429, sMsg)])
       | (true, None) =>
           if t >? 0 then
             trace (snd r) = trace w ++ S ++ [ask]
             /\ match fst (tb_Allow (buckets w) (now w) (marked_key tM k) (mul64 t d) t d) with
                | inl true => fst r = true /\ response (snd r) = response w
                | inl false =>
                    fst r = false
                    /\ response (snd r) = (429, true, body w ++ [(429, tMsg)])
                | inr _ =>
                    fst r = false
                    /\ response (snd r)
                       = (500, true, body w ++ [(500, "rate_limit_check_failed")])
                end
           else
             fst r = true /\ trace (snd r) = trace w ++ S /\ buckets (snd r) = buckets w
             /\ response (snd r) = response w
       end.
Proof.
  intros sk ask r. subst r ask.
  assert (Htotal : forall (w1 : World) S,
             now w1 = now w -> buckets w1 = buckets w -> response w1 = response w ->
             trace w1 = trace w ++ S ->
             let r := check_total_redis tM tL tMsg k t d w1 in
             if t >? 0 then
               trace (snd r) = trace w ++ S ++ [Allow (marked_key tM k) (mul64 t d) t d]
               /\ match fst (tb_Allow (buckets w) (now w) (marked_key tM k) (mul64 t d) t d) with
                  | inl true => fst r = true /\ response (snd r) = response w
                  | inl false =>
                      fst r = false
                      /\ response (snd r) = (429, true, body w ++ [(429, tMsg)])
                  | inr _ =>
                      fst r = false
                      /\ response (snd r)
                         = (500, true, body w ++ [(500, "rate_limit_check_failed")])
                  end
             else
               fst r = true /\ trace (snd r) = trace w ++ S /\ buckets (snd r) = buckets w
               /\ response (snd r) = response w).
  { intros w1 S Hn Hb Hr Ht. unfold check_total_redis.
    destruct (t >? 0); [|cbn; auto].
    unfold tb_allow. rewrite Hn, Hb.
    unfold response in Hr. injection Hr as Hst Hab Hbody.
    destruct (tb_Allow (buckets w) (now w) (marked_key tM k) (mul64 t d) t d)
      as [[[|]|e] b]; cbn; rewrite Ht, <- ?app_assoc;
      (split; [reflexivity|]); unfold response; cbn; rewrite ?Hbody, ?Hst, ?Hab; auto. }
  unfold check_key_redis. fold sk.
  destruct (s >? 0).
  - destruct (checkRedisRateLimit_frame sk s d w)
      as (Hn & Hr & Hb & _ & S & Ht & HS & _).
    destruct (checkRedisRateLimit cfg sk s d w) as [[allowed err] w1].
    cbn [fst snd] in *. exists S. split; [exact HS|]. split; [exact Ht|].
    pose proof Hr as Hr'. unfold response in Hr'. injection Hr' as Hst Hab Hbody.
    destruct err as [e|]; [|destruct allowed]; cbn [negb fst snd].
    + destruct allowed; unfold response; cbn; rewrite Hbody; auto 6.
    + apply (Htotal w1 S Hn Hb Hr Ht).
    + unfold response. cbn. rewrite Hbody. auto 6.
  - exists []. split; [apply Forall_nil_2|]. split; [reflexivity|].
    cbn [app]. apply (Htotal w []); auto. now rewrite app_nil_r.
Qed.

(** The verdict of a per-key check on the in-process limiter, read off the
    answers of the limiter for the total counter and for the probe. *)
Lemma check_key_memory_verdict expiration sM tM sMsg tMsg k t s d (w : World) :
  let tk := tM +:+ k in
  let ck := (sM +:+ k) +:+ "_check" in
  let r := check_key_memory expiration sM tM sMsg tMsg k t s d w in
  let m0 := mem_Init (mem w) expiration in
  let total := if t >? 0 then mem_Request m0 (now w) tk t d else (true, m0) in
  let probe := mem_Request (snd total) (now w) ck s d in
  let asked := MemInit expiration :: (if t >? 0 then [MemRequest tk t d] else []) in
  if negb (fst total) then
    fst r = false /\ trace (snd r) = trace w ++ asked /\ mem (snd r) = snd total
    /\ response (snd r) = (429, true, body w ++ [(429, tMsg)])
  else if s >? 0 then
    trace (snd r) = trace w ++ asked ++ [MemRequest ck s d]
    /\ mem (snd r) = snd probe
    /\ (if fst probe
        then fst r = true /\ response (snd r) = response w
        else fst r = false
             /\ response (snd r) = (429, true, body w ++ [(429, sMsg)]))
  else
    fst r = true /\ trace (snd r) = trace w ++ asked /\ mem (snd r) = snd total
    /\ response (snd r) = response w.
Proof.
  intros tk ck r m0 total probe asked. subst r total probe asked.
  unfold check_key_memory, inMemoryRateLimiter_Init, inMemoryRateLimiter_Request.
  fold tk ck. cbn [mem now emit set_mem]. fold m0.
  destruct (t >? 0).
  - destruct (mem_Request m0 (now w) tk t d) as [ok m1]. cbn [fst snd mem now emit set_mem].
    destruct ok; cbn [negb].
    + destruct (s >? 0).
      * destruct (mem_Request m1 (now w) ck s d) as [ok2 m2]. cbn [fst snd].
        destruct ok2; cbn; rewrite <- ?app_assoc; cbn [app]; auto 6.
      * cbn; rewrite <- ?app_assoc; cbn [app]; auto 6.
    + cbn; rewrite <- ?app_assoc; cbn [app]; auto 6.
  - cbn [fst snd negb mem now emit set_mem].
    destruct (s >? 0).
    + destruct (mem_Request m0 (now w) ck s d) as [ok2 m2]. cbn [fst snd].
      destruct ok2; cbn; rewrite <- ?app_assoc; cbn [app]; auto 6.
    + cbn. auto 6.
Qed.

(** The verdict of the per-user handler on the shared backend. *)
Lemma redisRateLimitHandler_verdict d t s c next (w : World) :
  aborted w = false ->
  let sk := marked_key ModelRequestRateLimitSuccessCountMark (itoa (id c)) in
  let tk := "rateLimit:" +:+ itoa (id c) in
  let secs := minutes_seconds (ModelRequestRateLimitDurationMinutes cfg) in
  let w' := redisRateLimitHandler cfg d t s c next w in
  let ran (B : list event) :=
    exists S,
      Forall (window_op sk) S
      /\ trace (snd (checkRedisRateLimit cfg sk s d w)) = trace w ++ S
      /\ trace w' = trace w ++ S ++ B ++ Handler ::
           (if status w' <? 400 then
              if s =? 0 then [] else redis_record secs sk s (now w')
            else []) in
  let stopped (B : list event) (code : Z) (message : string) :=
    exists S,
      Forall (window_op sk) S
      /\ trace (snd (checkRedisRateLimit cfg sk s d w)) = trace w ++ S
      /\ trace w' = trace w ++ S ++ B
      /\ response w' = (code, true, body w ++ [(code, message)]) in
  match fst (checkRedisRateLimit cfg sk s d w) with
  | (_, Some _) => stopped [] 500 "rate_limit_check_failed"
  | (false, None) => stopped [] 429 (user_success_message cfg s)
  | (true, None) =>
      if t >? 0 then
        match fst (tb_Allow (buckets w) (now w) tk (mul64 t d) t d) with
        | inl true => ran [Allow tk (mul64 t d) t d]
        | inl false =>
            stopped [Allow tk (mul64 t d) t d] 429 (user_total_message cfg t)
        | inr _ => stopped [Allow tk (mul64 t d) t d] 500 "rate_limit_check_failed"
        end
      else ran []
  end.
Proof.
  intros Hab sk tk secs w' ran stopped. subst w' ran stopped.
  unfold redisRateLimitHandler. fold sk tk.
  destruct (checkRedisRateLimit_frame sk s d w)
    as (Hn & Hr & Hb & _ & S & Ht & HS & _).
  destruct (checkRedisRateLimit cfg sk s d w) as [[allowed err] w1].
  cbn [fst snd] in *.
  unfold response in Hr. injection Hr as Hst Hab1 Hbody.
  destruct err as [e|]; [|destruct allowed]; cbn [negb].
  - destruct allowed; exists S; rewrite app_nil_r; do 3 (split; [assumption|]);
      unfold response; cbn; now rewrite Hbody.
  - destruct (t >? 0).
    + unfold tb_allow. rewrite Hn, Hb.
      destruct (tb_Allow (buckets w) (now w) tk (mul64 t d) t d) as [[[|]|e] b];
        cbn [fst snd negb].
      * exists S. do 2 (split; [assumption|]).
        set (w2 := emit (Allow tk (mul64 t d) t d) (set_buckets b w1)).
        assert (Hab2 : aborted w2 = false) by (cbn; congruence).
        pose proof (redis_finish next sk s w2 Hab2) as Hf.
        cbv beta zeta in Hf |- *. rewrite Hf. subst w2. cbn [trace emit set_buckets].
        rewrite Ht, <- !app_assoc. reflexivity.
      * exists S. do 2 (split; [assumption|]).
        rewrite Next_aborted by reflexivity. cbn.
        rewrite Ht, <- !app_assoc. split; [reflexivity|].
        unfold response. cbn. now rewrite Hbody.
      * exists S. do 2 (split; [assumption|]). cbn.
        rewrite Ht, <- !app_assoc. split; [reflexivity|].
        unfold response. cbn. now rewrite Hbody.
    + exists S. do 2 (split; [assumption|]).
      assert (Hab2 : aborted w1 = false) by congruence.
      pose proof (redis_finish next sk s w1 Hab2) as Hf.
      cbv beta zeta in Hf |- *. rewrite Hf, Ht, <- !app_assoc. reflexivity.
  - exists S. rewrite app_nil_r. do 3 (split; [assumption|]).
    unfold response. cbn. now rewrite Hbody.
Qed.

(** The verdict of the per-user handler on the in-process limiter. *)
Lemma memoryRateLimitHandler_verdict d t s c next (w : World) :
  aborted w = false ->
  let expiration := minutes_duration (ModelRequestRateLimitDurationMinutes cfg) in
  let tk := ModelRequestRateLimitCountMark +:+ itoa (id c) in
  let sk := ModelRequestRateLimitSuccessCountMark +:+ itoa (id c) in
  let ck := sk +:+ "_check" in
  let w' := memoryRateLimitHandler cfg d t s c next w in
  let m0 := mem_Init (mem w) expiration in
  let total := if t >? 0 then mem_Request m0 (now w) tk t d else (true, m0) in
  let probe := mem_Request (snd total) (now w) ck s d in
  let asked := MemInit expiration :: (if t >? 0 then [MemRequest tk t d] else []) in
  if negb (fst total) then
    trace w' = trace w ++ asked /\ response w' = (429, true, body w)
  else if negb (fst probe) then
    trace w' = trace w ++ asked ++ [MemRequest ck s d]
    /\ response w' = (429, true, body w)
  else
    trace w' = trace w ++ asked ++ MemRequest ck s d :: Handler ::
      (if status w' <? 400 then [MemRequest sk s d] else []).
Proof.
  intros Hab expiration tk sk ck w' m0 total probe asked.
  subst w' total probe asked.
  unfold memoryRateLimitHandler, inMemoryRateLimiter_Init.
  fold expiration tk sk ck.
  set (w0 := emit (MemInit expiration) (set_mem (mem_Init (mem w) expiration) w)).
  assert (H0 : mem w0 = m0 /\ now w0 = now w /\ response w0 = response w
               /\ trace w0 = trace w ++ [MemInit expiration]) by (repeat split).
  clearbody w0. destruct H0 as (Hm0 & Hn0 & Hr0 & Ht0).
  assert (exists w1 : World,
             (if t >? 0 then inMemoryRateLimiter_Request tk t d w0 else (true, w0))
             = (fst (if t >? 0 then mem_Request m0 (now w) tk t d else (true, m0)), w1)
             /\ mem w1 = snd (if t >? 0 then mem_Request m0 (now w) tk t d else (true, m0))
             /\ now w1 = now w /\ response w1 = response w
             /\ trace w1 = trace w ++ MemInit expiration ::
                  (if t >? 0 then [MemRequest tk t d] else []))
    as (w1 & -> & Hm1 & Hn1 & Hr1 & Ht1).
  { destruct (t >? 0).
    - unfold inMemoryRateLimiter_Request. rewrite Hm0, Hn0.
      destruct (mem_Request m0 (now w) tk t d) as [ok m1]. eexists. split; [reflexivity|].
      cbn. rewrite Ht0, <- app_assoc. auto.
    - exists w0. cbn. auto. }
  unfold response in Hr1. injection Hr1 as Hst Hab1 Hbody.
  destruct (fst (if t >? 0 then mem_Request m0 (now w) tk t d else (true, m0)));
    cbn [negb].
  2:{ split; [exact Ht1|]. unfold response. cbn. now rewrite Hbody. }
  destruct (inMemoryRateLimiter_Request ck s d w1) as [ok w2] eqn:Hreq.
  unfold inMemoryRateLimiter_Request in Hreq. rewrite Hm1, Hn1 in Hreq.
  destruct (mem_Request _ (now w) ck s d) as [ok' m2]. cbn [fst snd].
  injection Hreq as <- <-.
  set (w2 := emit (MemRequest ck s d) (set_mem m2 w1)).
  assert (Ht2 : trace w2 = trace w ++ (MemInit expiration ::
                  (if t >? 0 then [MemRequest tk t d] else [])) ++ [MemRequest ck s d]).
  { subst w2. cbn. rewrite Ht1, <- app_assoc. reflexivity. }
  destruct ok'; cbn [negb].
  2:{ split; [exact Ht2|]. unfold response. cbn. now rewrite Hbody. }
  assert (Hab2 : aborted w2 = false) by (subst w2; cbn; congruence).
  pose proof (Next_ran next w2 Hab2) as Htn.
  destruct (status (Next next w2) <? 400) eqn:Hs400.
  - pose proof (mem_request_frame sk s d (Next next w2)) as G.
    cbn zeta in G. destruct G as (_ & Gr & _ & _ & Gt).
    unfold response in Gr. injection Gr as Gst _ _.
    rewrite Gst, Hs400, Gt, Htn, Ht2.
    rewrite <- ?app_assoc; cbn [app]; rewrite <- ?app_assoc. reflexivity.
  - rewrite Hs400, Htn, Ht2.
    rewrite <- ?app_assoc; cbn [app]; rewrite <- ?app_assoc. reflexivity.
Qed.

Lemma check_key_redis_skips_bucket sM tM sL tL sMsg tMsg k s d (w : World) :
  skips_bucket cfg (marked_key sM k) s d w
    (check_key_redis cfg sM tM sL tL sMsg tMsg k 0 s d w).
Proof.
  unfold skips_bucket, success_list_passes.
  destruct (check_key_redis_verdict sM tM sL tL sMsg tMsg k 0 s d w)
    as (S & HS & _ & Hv).
  replace (0 >? 0) with false in Hv by reflexivity.
  destruct (s >? 0) eqn:Hs.
  - apply Z.gtb_lt in Hs.
    destruct (fst (checkRedisRateLimit cfg (marked_key sM k) s d w))
      as [[|] [e|]] eqn:Hc; destruct Hv as (Hf & Ht & Hb & _);
      (split; [exact Hb|]); (split; [eauto|]); rewrite Hf;
      split; try discriminate; try reflexivity; intros Hx; specialize (Hx Hs);
      discriminate.
  - destruct Hv as (Hf & Ht & Hb & _).
    split; [exact Hb|]. split; [eauto|]. rewrite Hf.
    split; [|reflexivity]. intros _ Hx. apply Z.gtb_lt in Hx. congruence.
Qed.

Lemma check_total_redis_frame tM tL tMsg k t d (w : World) :
  rdb (snd (check_total_redis tM tL tMsg k t d w)) = rdb w.
Proof.
  destruct (check_total_redis_cases tM tL tMsg k t d w) as (_ & H & _). exact H.
Qed.

Lemma check_key_redis_skips_list sM tM sL tL sMsg tMsg k t d (w : World) :
  skips_list (marked_key tM k) t d w
    (check_key_redis cfg sM tM sL tL sMsg tMsg k t 0 d w).
Proof.
  unfold skips_list, bucket_answer.
  destruct (check_key_redis_verdict sM tM sL tL sMsg tMsg k t 0 d w)
    as (S & _ & HS & Hv).
  replace (0 >? 0) with false in * by reflexivity. subst S.
  split.
  { unfold check_key_redis. replace (0 >? 0) with false by reflexivity.
    apply check_total_redis_frame. }
  destruct (t >? 0) eqn:Ht.
  - apply Z.gtb_lt in Ht. destruct Hv as (Htr & Hb). split; [exact Htr|].
    destruct (fst (tb_Allow (buckets w) (now w) (marked_key tM k) (mul64 t d) t d))
      as [[|]|e]; destruct Hb as (Hf & _); rewrite Hf;
      split; try discriminate; try reflexivity; intros Hx; specialize (Hx Ht);
      discriminate.
  - destruct Hv as (Hf & Htr & _). split; [exact Htr|]. rewrite Hf.
    split; [|reflexivity]. intros _ Hx. apply Z.gtb_lt in Hx. congruence.
Qed.

Lemma check_key_memory_skips_probe expiration sM tM sMsg tMsg k t d (w : World) :
  skips_probe expiration (tM +:+ k) t d w
    (check_key_memory expiration sM tM sMsg tMsg k t 0 d w).
Proof.
  unfold skips_probe.
  pose proof (check_key_memory_verdict expiration sM tM sMsg tMsg k t 0 d w) as Hv.
  cbv zeta in Hv. replace (0 >? 0) with false in Hv by reflexivity.
  destruct (t >? 0) eqn:Ht.
  - apply Z.gtb_lt in Ht.
    destruct (mem_Request (mem_Init (mem w) expiration) (now w) (tM +:+ k) t d)
      as [[|] m1]; cbn [fst snd negb] in *.
    + destruct Hv as (Hf & Htr & Hm & _). rewrite Hf. do 2 (split; [assumption|]).
      split; auto.
    + destruct Hv as (Hf & Htr & Hm & _). rewrite Hf. do 2 (split; [assumption|]).
      split; [discriminate|]. intros Hx. specialize (Hx Ht). discriminate.
  - cbn [fst snd negb] in Hv. destruct Hv as (Hf & Htr & Hm & _). rewrite Hf.
    do 2 (split; [assumption|]). split; [|reflexivity].
    intros _ Hx. apply Z.gtb_lt in Hx. congruence.
Qed.

Lemma check_key_memory_skips_total expiration sM tM sMsg tMsg k s d (w : World) :
  skips_total_counter expiration ((sM +:+ k) +:+ "_check") s d w
    (check_key_memory expiration sM tM sMsg tMsg k 0 s d w).
Proof.
  unfold skips_total_counter.
  pose proof (check_key_memory_verdict expiration sM tM sMsg tMsg k 0 s d w) as Hv.
  cbv zeta in Hv. replace (0 >? 0) with false in Hv by reflexivity.
  cbn [fst snd negb app] in Hv.
  destruct (s >? 0) eqn:Hs.
  - apply Z.gtb_lt in Hs. destruct Hv as (Htr & Hm & Hp).
    do 2 (split; [assumption|]).
    destruct (fst (mem_Request (mem_Init (mem w) expiration) (now w)
                     ((sM +:+ k) +:+ "_check") s d));
      destruct Hp as (Hf & _); rewrite Hf.
    + split; auto.
    + split; [discriminate|]. intros Hx. specialize (Hx Hs). discriminate.
  - destruct Hv as (Hf & Htr & Hm & _). rewrite Hf.
    do 2 (split; [assumption|]). split; [|reflexivity].
    intros _ Hx. apply Z.gtb_lt in Hx. congruence.
Qed.

Lemma redis_record_write_on secs key m now :
  Forall (write_on key) (redis_record secs key m now).
Proof.
  unfold redis_record, write_on.
  repeat (apply Forall_cons_2; [eauto 8|]). apply Forall_nil_2.
Qed.

Lemma success_record_success_write c mark ident m d now :
  RedisEnabled = true ->
  marked_key mark (itoa ident) ∈ success_keys c ->
  Forall (success_write c) (success_record cfg RedisEnabled mark ident m d now).
Proof.
  intros -> Hk. unfold success_record.
  destruct (m =? 0); [apply Forall_nil_2|].
  eapply Forall_impl; [apply redis_record_write_on|].
  intros e He. exists (marked_key mark (itoa ident)). now split.
Qed.

Lemma records_success_write c now :
  RedisEnabled = true ->
  Forall (success_write c)
    (user_record cfg RedisEnabled c now ++ minute_record cfg RedisEnabled c now
     ++ daily_record cfg RedisEnabled c now).
Proof.
  intros HR. unfold user_record, minute_record, daily_record.
  repeat apply Forall_app_2;
    match goal with |- context [if ?b then _ else _] => destruct b end;
    first [ apply Forall_nil_2
          | apply success_record_success_write; [exact HR|];
            unfold success_keys;
            repeat first [apply list_elem_of_here | apply list_elem_of_further] ].
Qed.

(** C5, as the code has it. On the shared backend a tier with a total limit
    [t] above 0 asks the token bucket as soon as its success check has passed,
    with capacity [t * d] as [int64] computes it (the product when it fits, its
    wrapped value otherwise), rate [t] and cost [d], [d] being the window in
    seconds. After the handler the middleware issues nothing but the list
    commands of the success records, each on a success list of the request;
    no success list has the key of a total limit, so nothing is recorded
    against a total limit, and the bucket is not asked again. *)
Theorem token_bucket_parameters (k : string) (t s d : Z) (c : Request)
    (next : World -> World) (w : World) :
  (0 < t ->
   success_list_passes cfg (marked_key TokenRateLimitSuccessCountMark k) s d w ->
   exists S,
     Forall (window_op (marked_key TokenRateLimitSuccessCountMark k)) S
     /\ trace (snd (checkTokenRateLimitRedis cfg k t s d w))
        = trace w ++ S ++ [Allow (marked_key TokenRateLimitCountMark k) (mul64 t d) t d])
  /\ (0 < t ->
      success_list_passes cfg (marked_key TokenDailyRateLimitSuccessCountMark k) s d w ->
      exists S,
        Forall (window_op (marked_key TokenDailyRateLimitSuccessCountMark k)) S
        /\ trace (snd (checkTokenDailyRateLimitRedis cfg k t s d w))
           = trace w ++ S
             ++ [Allow (marked_key TokenDailyRateLimitCountMark k) (mul64 t d) t d])
  /\ (0 < t -> aborted w = false ->
      let sk := marked_key ModelRequestRateLimitSuccessCountMark (itoa (id c)) in
      let tk := "rateLimit:" +:+ itoa (id c) in
      let w' := redisRateLimitHandler cfg d t s c next w in
      fst (checkRedisRateLimit cfg sk s d w) = (true, None) ->
      exists S rest,
        Forall (window_op sk) S
        /\ trace w' = trace w ++ S ++ Allow tk (mul64 t d) t d :: rest
        /\ (rest = []
            \/ exists records, rest = Handler :: records /\ Forall (write_on sk) records)
        /\ (bucket_answer tk t d w = inl true -> rest <> []))
  /\ mul64 t d = wrap64 (t * d)
  /\ (MinInt64 <= t * d <= MaxInt64 -> mul64 t d = t * d)
  /\ (RedisEnabled = true -> aborted w = false ->
      let w' := ModelRequestRateLimit cfg RedisEnabled c next w in
      exists checks,
        Forall (fun e => e <> Handler) checks
        /\ ((trace w' = trace w ++ checks /\ aborted w' = true /\ 400 <= status w')
            \/ exists records,
                trace w' = trace w ++ checks ++ Handler :: records
                /\ Forall (success_write c) records))
  /\ (forall t1 t2 i j, redis_key t1 Success i <> redis_key t2 Total j).
Proof.
  assert (Hkey : forall sM tM sL tL sMsg tMsg,
             0 < t ->
             success_list_passes cfg (marked_key sM k) s d w ->
             exists S,
               Forall (window_op (marked_key sM k)) S
               /\ trace (snd (check_key_redis cfg sM tM sL tL sMsg tMsg k t s d w))
                  = trace w ++ S ++ [Allow (marked_key tM k) (mul64 t d) t d]).
  { intros sM tM sL tL sMsg tMsg Hpos Hpass. unfold success_list_passes in Hpass.
    destruct (check_key_redis_verdict sM tM sL tL sMsg tMsg k t s d w)
      as (S & HS & _ & Hv).
    exists S. split; [exact HS|].
    replace (t >? 0) with true in Hv by (symmetry; apply Z.gtb_lt; lia).
    destruct (s >? 0) eqn:Hs.
    - apply Z.gtb_lt in Hs. rewrite (Hpass Hs) in Hv. apply Hv.
    - apply Hv. }
  split; [apply Hkey|]. split; [apply Hkey|].
  split.
  { intros Hpos Hab sk tk w' Hc.
    pose proof (redisRateLimitHandler_verdict d t s c next w Hab) as Hv.
    cbv zeta in Hv. fold sk tk w' in Hv. rewrite Hc in Hv.
    replace (t >? 0) with true in Hv by (symmetry; apply Z.gtb_lt; lia).
    unfold bucket_answer.
    destruct (fst (tb_Allow (buckets w) (now w) tk (mul64 t d) t d)) as [[|]|e];
      destruct Hv as (S & HS & _ & Hv); exists S.
    - eexists. split; [exact HS|]. split; [exact Hv|]. split; [|discriminate].
      right. eexists. split; [reflexivity|].
      destruct (_ <? 400); [|apply Forall_nil_2].
      destruct (s =? 0); [apply Forall_nil_2|apply redis_record_write_on].
    - destruct Hv as (Ht & _). exists []. split; [exact HS|]. split; [exact Ht|].
      split; [now left|discriminate].
    - destruct Hv as (Ht & _). exists []. split; [exact HS|]. split; [exact Ht|].
      split; [now left|discriminate]. }
  split; [reflexivity|].
  split; [intros H; now apply wrap64_small|].
  split; [|apply success_key_not_total].
  intros HR Hab w'.
  destruct (ModelRequestRateLimit_shape c next w Hab)
    as (checks & Hc & Hshape).
  fold w' in Hshape. exists checks. split; [exact Hc|].
  destruct Hshape as [H|Ht]; [now left|].
  right. eexists. split; [exact Ht|].
  destruct (_ <? 400); [|apply Forall_nil_2].
  now apply records_success_write.
Qed.


Lemma append_assoc (a b c : string) : (a +:+ b) +:+ c = a +:+ (b +:+ c).
Proof.
  induction a as [|x a IH]; [reflexivity|].
  change (String x ((a +:+ b) +:+ c) = String x (a +:+ (b +:+ c))).
  now rewrite IH.
Qed.

Lemma Sprintf2_discloses a b c minutes count :
  occurs (itoa minutes) (Sprintf2 a b c minutes count)
  /\ occurs (itoa count) (Sprintf2 a b c minutes count).
Proof.
  unfold occurs, Sprintf2. split.
  - exists a, (b +:+ itoa count +:+ c). reflexivity.
  - exists (a +:+ itoa minutes +:+ b), c.
    now rewrite !append_assoc.
Qed.

Lemma check_key_redis_answers sM tM sL tL sMsg tMsg k t s d (w : World) :
  answers w (check_key_redis cfg sM tM sL tL sMsg tMsg k t s d w)
    (success_list_refuses cfg (marked_key sM k) s d w)
    (success_list_passes cfg (marked_key sM k) s d w
     /\ bucket_refuses (marked_key tM k) t d w)
    sMsg tMsg.
Proof.
  unfold answers, success_list_refuses, success_list_passes, bucket_refuses,
    bucket_answer, refuses_with.
  destruct (check_key_redis_verdict sM tM sL tL sMsg tMsg k t s d w)
    as (S & _ & _ & Hv).
  destruct (s >? 0) eqn:Hs.
  - apply Z.gtb_lt in Hs.
    destruct (fst (checkRedisRateLimit cfg (marked_key sM k) s d w))
      as [[|] [e|]] eqn:Hc.
    + destruct Hv as (Hf & _ & _ & Hr).
      split; [intros [_ Hx]; discriminate|].
      split; [intros [Hx _]; specialize (Hx Hs); discriminate|]. auto.
    + destruct (t >? 0) eqn:Ht.
      * destruct Hv as (_ & Hb).
        destruct (fst (tb_Allow (buckets w) (now w) (marked_key tM k) (mul64 t d) t d))
          as [[|]|e] eqn:Hb'; destruct Hb as (Hf & Hr).
        -- split; [intros [_ Hx]; discriminate|].
           split; [intros [_ [_ Hx]]; discriminate|]. congruence.
        -- split; [intros [_ Hx]; discriminate|].
           split; [auto|]. intros _. right. right.
           apply Z.gtb_lt in Ht. auto 8.
        -- split; [intros [_ Hx]; discriminate|].
           split; [intros [_ [_ Hx]]; discriminate|]. auto.
      * destruct Hv as (Hf & _).
        split; [intros [_ Hx]; discriminate|].
        split; [intros [_ [Hx _]]; apply Z.gtb_lt in Hx; congruence|]. congruence.
    + destruct Hv as (Hf & _ & _ & Hr).
      split; [intros [_ Hx]; discriminate|].
      split; [intros [Hx _]; specialize (Hx Hs); discriminate|]. auto.
    + destruct Hv as (Hf & _ & _ & Hr).
      split; [auto|].
      split; [intros [Hx _]; specialize (Hx Hs); discriminate|].
      intros _. right. left. auto.
  - assert (Hs' : ~ 0 < s) by (intros Hx; apply Z.gtb_lt in Hx; congruence).
    destruct (t >? 0) eqn:Ht.
    + destruct Hv as (_ & Hb).
      destruct (fst (tb_Allow (buckets w) (now w) (marked_key tM k) (mul64 t d) t d))
        as [[|]|e] eqn:Hb'; destruct Hb as (Hf & Hr).
      * split; [intros [Hx _]; tauto|].
        split; [intros [_ [_ Hx]]; discriminate|]. congruence.
      * split; [intros [Hx _]; tauto|].
        split; [auto|]. intros _. right. right.
        apply Z.gtb_lt in Ht. split; [|auto]. split; [tauto|auto].
      * split; [intros [Hx _]; tauto|].
        split; [intros [_ [_ Hx]]; discriminate|]. auto.
    + destruct Hv as (Hf & _).
      split; [intros [Hx _]; tauto|].
      split; [intros [_ [Hx _]]; apply Z.gtb_lt in Hx; congruence|]. congruence.
Qed.

Lemma check_key_memory_answers expiration sM tM sMsg tMsg k t s d (w : World) :
  answers w (check_key_memory expiration sM tM sMsg tMsg k t s d w)
    (probe_refuses expiration (tM +:+ k) ((sM +:+ k) +:+ "_check") t s d w)
    (total_counter_refuses expiration (tM +:+ k) t d w)
    sMsg tMsg.
Proof.
  unfold answers, probe_refuses, total_counter_refuses, probe_counter, total_counter,
    refuses_with.
  pose proof (check_key_memory_verdict expiration sM tM sMsg tMsg k t s d w) as Hv.
  cbv zeta in Hv.
  destruct (fst (if t >? 0
                 then mem_Request (mem_Init (mem w) expiration) (now w) (tM +:+ k) t d
                 else (true, mem_Init (mem w) expiration))) eqn:Htot; cbn [negb] in Hv.
  - destruct (s >? 0) eqn:Hs.
    + destruct Hv as (_ & _ & Hp).
      destruct (fst (mem_Request _ (now w) ((sM +:+ k) +:+ "_check") s d)) eqn:Hpr;
        destruct Hp as (Hf & Hr).
      * split; [intros (_ & _ & Hx); discriminate|].
        split; [discriminate|]. congruence.
      * split; [auto|]. split; [discriminate|].
        intros _. right. left. apply Z.gtb_lt in Hs. auto.
    + destruct Hv as (Hf & _).
      split; [intros (Hx & _); apply Z.gtb_lt in Hx; congruence|].
      split; [discriminate|]. congruence.
  - destruct Hv as (Hf & _ & _ & Hr).
    split; [intros (_ & Hx & _); discriminate|].
    split; [auto|]. intros _. right. right. auto.
Qed.

(** C6, as the code has it. A per-key check that refuses because the success
    limit is reached answers 429 with the success message, and one that
    refuses because the total limit is reached answers 429 with the total
    message; a refusal has no other cause but a failure of the backend, which
    is answered 500. In the minute tier, on either backend, the success message
    holds the window in minutes and the success limit, the total message the
    window and the total limit, and the same goes for the per-user handler on
    the shared backend. In the daily tier the two messages are fixed texts. *)
Theorem throttling_messages (k : string) (t s d : Z) (c : Request)
    (next : World -> World) (w : World) :
  answers w (checkTokenRateLimitRedis cfg k t s d w)
    (success_list_refuses cfg (marked_key TokenRateLimitSuccessCountMark k) s d w)
    (success_list_passes cfg (marked_key TokenRateLimitSuccessCountMark k) s d w
     /\ bucket_refuses (marked_key TokenRateLimitCountMark k) t d w)
    (key_success_message cfg s) (key_total_message cfg t)
  /\ answers w (checkTokenRateLimitMemory cfg k t s d w)
       (probe_refuses (minutes_duration (TokenRateLimitDurationMinutes cfg))
          (TokenRateLimitCountMark +:+ k)
          ((TokenRateLimitSuccessCountMark +:+ k) +:+ "_check") t s d w)
       (total_counter_refuses (minutes_duration (TokenRateLimitDurationMinutes cfg))
          (TokenRateLimitCountMark +:+ k) t d w)
       (key_success_message cfg s) (key_total_message cfg t)
  /\ answers w (checkTokenDailyRateLimitRedis cfg k t s d w)
       (success_list_refuses cfg (marked_key TokenDailyRateLimitSuccessCountMark k) s d w)
       (success_list_passes cfg (marked_key TokenDailyRateLimitSuccessCountMark k) s d w
        /\ bucket_refuses (marked_key TokenDailyRateLimitCountMark k) t d w)
       daily_success_message daily_total_message
  /\ answers w (checkTokenDailyRateLimitMemory k t s d w)
       (probe_refuses (24 * Hour) (TokenDailyRateLimitCountMark +:+ k)
          ((TokenDailyRateLimitSuccessCountMark +:+ k) +:+ "_check") t s d w)
       (total_counter_refuses (24 * Hour) (TokenDailyRateLimitCountMark +:+ k) t d w)
       daily_success_message daily_total_message
  /\ (aborted w = false ->
      let sk := marked_key ModelRequestRateLimitSuccessCountMark (itoa (id c)) in
      let w' := redisRateLimitHandler cfg d t s c next w in
      (fst (checkRedisRateLimit cfg sk s d w) = (false, None) ->
       response w' = (429, true, body w ++ [(429, user_success_message cfg s)]))
      /\ (fst (checkRedisRateLimit cfg sk s d w) = (true, None) ->
          bucket_refuses ("rateLimit:" +:+ itoa (id c)) t d w ->
          response w' = (429, true, body w ++ [(429, user_total_message cfg t)])))
  /\ (occurs (itoa (TokenRateLimitDurationMinutes cfg)) (key_success_message cfg s)
      /\ occurs (itoa s) (key_success_message cfg s))
  /\ (occurs (itoa (TokenRateLimitDurationMinutes cfg)) (key_total_message cfg t)
      /\ occurs (itoa t) (key_total_message cfg t))
  /\ (occurs (itoa (ModelRequestRateLimitDurationMinutes cfg)) (user_success_message cfg s)
      /\ occurs (itoa s) (user_success_message cfg s))
  /\ (occurs (itoa (ModelRequestRateLimitDurationMinutes cfg)) (user_total_message cfg t)
      /\ occurs (itoa t) (user_total_message cfg t)).
Proof.
  split; [apply check_key_redis_answers|].
  split; [apply check_key_memory_answers|].
  split; [apply check_key_redis_answers|].
  split; [apply check_key_memory_answers|].
  split; [|repeat split; apply Sprintf2_discloses].
  intros Hab sk w'.
  pose proof (redisRateLimitHandler_verdict d t s c next w Hab) as Hv.
  cbv zeta in Hv. fold sk w' in Hv.
  split.
  - intros Hc. rewrite Hc in Hv. destruct Hv as (S & _ & _ & _ & Hr). exact Hr.
  - intros Hc [Hpos Hb]. rewrite Hc in Hv. unfold bucket_answer in Hb.
    replace (t >? 0) with true in Hv by (symmetry; apply Z.gtb_lt; lia).
    rewrite Hb in Hv. destruct Hv as (S & _ & _ & _ & Hr). exact Hr.
Qed.

(** C8, as the code has it. With a limit of 0 the sliding-window check admits
    and the record returns, each leaving the world as it was. On the shared
    backend a total limit of 0 leaves the token bucket out of every tier, and a
    success limit of 0 leaves the lists out; in process a total limit of 0
    leaves the total counter out of every tier and a success limit of 0 leaves
    the probe out of the two per-key checks. In each case the check passes
    unless the other limit refuses. The success records of the per-key tiers
    return at once on either backend when the success limit is 0, and a per-key
    check returns at once when both limits are 0. *)
Theorem zero_limit_is_skipped (k : string) (t s d : Z) (c : Request)
    (next : World -> World) (w : World) :
  checkRedisRateLimit cfg k 0 d w = ((true, None), w)
  /\ recordRedisRequest cfg k 0 w = w
  /\ skips_bucket cfg (marked_key TokenRateLimitSuccessCountMark k) s d w
       (checkTokenRateLimitRedis cfg k 0 s d w)
  /\ skips_bucket cfg (marked_key TokenDailyRateLimitSuccessCountMark k) s d w
       (checkTokenDailyRateLimitRedis cfg k 0 s d w)
  /\ skips_list (marked_key TokenRateLimitCountMark k) t d w
       (checkTokenRateLimitRedis cfg k t 0 d w)
  /\ skips_list (marked_key TokenDailyRateLimitCountMark k) t d w
       (checkTokenDailyRateLimitRedis cfg k t 0 d w)
  /\ (aborted w = false ->
      let sk := marked_key ModelRequestRateLimitSuccessCountMark (itoa (id c)) in
      let w' := redisRateLimitHandler cfg d 0 s c next w in
      exists S,
        Forall (window_op sk) S
        /\ (fst (checkRedisRateLimit cfg sk s d w) = (true, None) ->
            exists records,
              trace w' = trace w ++ S ++ Handler :: records
              /\ Forall (write_on sk) records)
        /\ (fst (checkRedisRateLimit cfg sk s d w) <> (true, None) ->
            trace w' = trace w ++ S /\ aborted w' = true))
  /\ (aborted w = false ->
      let tk := "rateLimit:" +:+ itoa (id c) in
      let w' := redisRateLimitHandler cfg d t 0 c next w in
      let B := if t >? 0 then [Allow tk (mul64 t d) t d] else [] in
      ((0 < t -> bucket_answer tk t d w = inl true) ->
       trace w' = trace w ++ B ++ [Handler])
      /\ (~ (0 < t -> bucket_answer tk t d w = inl true) ->
          trace w' = trace w ++ B /\ aborted w' = true))
  /\ skips_probe (minutes_duration (TokenRateLimitDurationMinutes cfg))
       (TokenRateLimitCountMark +:+ k) t d w
       (checkTokenRateLimitMemory cfg k t 0 d w)
  /\ skips_probe (24 * Hour) (TokenDailyRateLimitCountMark +:+ k) t d w
       (checkTokenDailyRateLimitMemory k t 0 d w)
  /\ skips_total_counter (minutes_duration (TokenRateLimitDurationMinutes cfg))
       ((TokenRateLimitSuccessCountMark +:+ k) +:+ "_check") s d w
       (checkTokenRateLimitMemory cfg k 0 s d w)
  /\ skips_total_counter (24 * Hour)
       ((TokenDailyRateLimitSuccessCountMark +:+ k) +:+ "_check") s d w
       (checkTokenDailyRateLimitMemory k 0 s d w)
  /\ (aborted w = false ->
      let expiration := minutes_duration (ModelRequestRateLimitDurationMinutes cfg) in
      let sk := ModelRequestRateLimitSuccessCountMark +:+ itoa (id c) in
      let ck := sk +:+ "_check" in
      let w' := memoryRateLimitHandler cfg d 0 s c next w in
      if fst (mem_Request (mem_Init (mem w) expiration) (now w) ck s d)
      then trace w' = trace w ++ MemInit expiration :: MemRequest ck s d :: Handler ::
             (if status w' <? 400 then [MemRequest sk s d] else [])
      else trace w' = trace w ++ [MemInit expiration; MemRequest ck s d]
           /\ response w' = (429, true, body w))
  /\ (snd (minute_limits cfg c) = 0 ->
      recordTokenRateLimitSuccess cfg RedisEnabled c w = w)
  /\ (snd (daily_limits cfg c) = 0 ->
      recordTokenDailySuccess cfg RedisEnabled c w = w)
  /\ (minute_limits cfg c = (0, 0) ->
      checkTokenRateLimit cfg RedisEnabled c w = (true, w))
  /\ (daily_limits cfg c = (0, 0) ->
      checkTokenDailyRateLimit cfg RedisEnabled c w = (true, w)).
Proof.
  split; [reflexivity|]. split; [reflexivity|].
  split; [apply check_key_redis_skips_bucket|].
  split; [apply check_key_redis_skips_bucket|].
  split; [apply check_key_redis_skips_list|].
  split; [apply check_key_redis_skips_list|].
  split.
  { intros Hab sk w'.
    pose proof (redisRateLimitHandler_verdict d 0 s c next w Hab) as Hv.
    cbv zeta in Hv. fold sk w' in Hv.
    replace (0 >? 0) with false in Hv by reflexivity.
    destruct (fst (checkRedisRateLimit cfg sk s d w)) as [[|] [e|]];
      destruct Hv as (S & HS & _ & Hv); exists S; (split; [exact HS|]).
    - destruct Hv as (Ht & Hr). split; [discriminate|]. intros _.
      rewrite app_nil_r in Ht. split; [exact Ht|].
      unfold response in Hr. now injection Hr.
    - split; [|congruence]. intros _. eexists. split; [exact Hv|].
      destruct (_ <? 400); [|apply Forall_nil_2].
      destruct (s =? 0); [apply Forall_nil_2|apply redis_record_write_on].
    - destruct Hv as (Ht & Hr). split; [discriminate|]. intros _.
      rewrite app_nil_r in Ht. split; [exact Ht|].
      unfold response in Hr. now injection Hr.
    - destruct Hv as (Ht & Hr). split; [discriminate|]. intros _.
      rewrite app_nil_r in Ht. split; [exact Ht|].
      unfold response in Hr. now injection Hr. }
  split.
  { intros Hab tk w' B. subst B.
    pose proof (redisRateLimitHandler_verdict d t 0 c next w Hab) as Hv.
    cbv zeta in Hv. fold tk w' in Hv. unfold bucket_answer.
    rewrite checkRedisRateLimit_zero in Hv. cbn [fst snd] in Hv.
    replace (0 =? 0) with true in Hv by reflexivity.
    assert (Hrec : forall b : bool, (if b then @nil event else []) = [])
      by (now intros []).
    destruct (t >? 0) eqn:Ht.
    - apply Z.gtb_lt in Ht.
      destruct (fst (tb_Allow (buckets w) (now w) tk (mul64 t d) t d)) as [[|]|e];
        destruct Hv as (S & _ & HS & Hv);
        assert (HS' : S = [])
          by (apply (app_inv_head (trace w)); now rewrite app_nil_r);
        subst S; cbn [app] in Hv.
      + rewrite Hrec in Hv. split; [auto|]. intros Hx. exfalso. apply Hx. auto.
      + destruct Hv as (Htr & Hr). split.
        * intros Hx. specialize (Hx Ht). discriminate.
        * intros _. split; [exact Htr|]. unfold response in Hr. now injection Hr.
      + destruct Hv as (Htr & Hr). split.
        * intros Hx. specialize (Hx Ht). discriminate.
        * intros _. split; [exact Htr|]. unfold response in Hr. now injection Hr.
    - destruct Hv as (S & _ & HS & Hv).
      assert (HS' : S = [])
        by (apply (app_inv_head (trace w)); now rewrite app_nil_r).
      subst S. cbn [app] in Hv. rewrite Hrec in Hv.
      split; [auto|]. intros Hx. exfalso. apply Hx.
      intros Hy. apply Z.gtb_lt in Hy. congruence. }
  split; [apply check_key_memory_skips_probe|].
  split; [apply check_key_memory_skips_probe|].
  split; [apply check_key_memory_skips_total|].
  split; [apply check_key_memory_skips_total|].
  split.
  { intros Hab expiration sk ck w'.
    pose proof (memoryRateLimitHandler_verdict d 0 s c next w Hab) as Hv.
    cbv zeta in Hv. fold expiration sk ck w' in Hv.
    replace (0 >? 0) with false in Hv by reflexivity.
    cbn [fst snd negb app] in Hv.
    destruct (fst (mem_Request (mem_Init (mem w) expiration) (now w) ck s d));
      cbn [negb] in Hv; exact Hv. }
  split; [|split; [|split]].
  - unfold minute_limits, recordTokenRateLimitSuccess. intros H0.
    destruct (negb (TokenRateLimitEnabled cfg)); [reflexivity|].
    destruct (token_id c =? 0); [reflexivity|].
    rewrite (resolve_success _ _ 0) in H0.
    destruct (resolve _ _ _) as [a b]. cbn in H0. now rewrite H0.
  - unfold daily_limits, recordTokenDailySuccess. intros H0.
    destruct (negb (TokenDailyRateLimitEnabled cfg)); [reflexivity|].
    destruct (token_id c =? 0); [reflexivity|].
    rewrite (resolve_success _ _ 0) in H0.
    destruct (resolve _ _ _) as [a b]. cbn in H0. now rewrite H0.
  - unfold minute_limits, checkTokenRateLimit. intros ->.
    destruct (negb (TokenRateLimitEnabled cfg)); [reflexivity|].
    now destruct (token_id c =? 0).
  - unfold daily_limits, checkTokenDailyRateLimit. intros ->.
    destruct (negb (TokenDailyRateLimitEnabled cfg)); [reflexivity|].
    now destruct (token_id c =? 0).
Qed.

End MiddlewareFacts.

(** * The properties at the sample inputs *)

Section Samples.

Import setting middleware observe.

Lemma full_window_check_witness :
  fst (checkRedisRateLimit sample.all_on "rateLimit:MRRLS:1" 2 60
         (sample.world 120 sample.full_user_list)) = (false, None)
  /\ trace (snd (checkRedisRateLimit sample.all_on "rateLimit:MRRLS:1" 2 60
                   (sample.world 120 sample.full_user_list)))
     = [LLen "rateLimit:MRRLS:1"; LIndex "rateLimit:MRRLS:1" (-1);
        Expire "rateLimit:MRRLS:1" 60]
  /\ Redis.get 120 "rateLimit:MRRLS:1"
       (rdb (snd (checkRedisRateLimit sample.all_on "rateLimit:MRRLS:1" 2 60
                    (sample.world 120 sample.full_user_list))))
     = Some ([100; 90], Some (120 + 60)).
Proof.
  destruct (full_window_check sample.all_on "rateLimit:MRRLS:1" 2 60
              (sample.world 120 sample.full_user_list) [100; 90] (Some 200) 90)
    as [_ H]; [reflexivity|reflexivity|vm_compute; reflexivity|vm_compute; discriminate
              |reflexivity|].
  destruct H as (Hr & _ & Ht & _ & Hd); [reflexivity|].
  split; [exact Hr|]. split; [exact Ht|].
  apply Hd; [reflexivity|]. split; [reflexivity|vm_compute; discriminate].
Defined.

(** C4, refuted as stated: the list of key 7 is full and its last entry is
    80 seconds old, so a check with a window of 60 seconds admits; it issues no
    [Expire], and the key keeps the deadline it had, at time 200. *)
Lemma rolled_window_keeps_deadline :
  fst (checkRedisRateLimit sample.all_on "rateLimit:TRLS:7" 2 60
         (sample.world 170 sample.full_list)) = (true, None)
  /\ trace (snd (checkRedisRateLimit sample.all_on "rateLimit:TRLS:7" 2 60
                   (sample.world 170 sample.full_list)))
     = [LLen "rateLimit:TRLS:7"; LIndex "rateLimit:TRLS:7" (-1)]
  /\ Redis.get 170 "rateLimit:TRLS:7" (rdb (sample.world 170 sample.full_list))
     = Some ([100; 90], Some 200)
  /\ Redis.get 170 "rateLimit:TRLS:7"
       (rdb (snd (checkRedisRateLimit sample.all_on "rateLimit:TRLS:7" 2 60
                    (sample.world 170 sample.full_list))))
     = Some ([100; 90], Some 200).
Proof. vm_compute. repeat split; reflexivity. Qed.

Lemma success_records_in_order_witness :
  exists checks,
    trace (ModelRequestRateLimit sample.all_on true sample.request sample.handler_ok
             (sample.world 170 ∅))
    = checks ++ Handler ::
        [LPush "rateLimit:MRRLS:1" 172; LTrim "rateLimit:MRRLS:1" 0 4;
         Expire "rateLimit:MRRLS:1" 60;
         LPush "rateLimit:TRLS:7" 172; LTrim "rateLimit:TRLS:7" 0 5;
         Expire "rateLimit:TRLS:7" 60;
         LPush "rateLimit:TDRLS:7" 172; LTrim "rateLimit:TDRLS:7" 0 6;
         Expire "rateLimit:TDRLS:7" 60].
Proof.
  destruct (success_records_in_order sample.all_on true sample.request
              sample.handler_ok (sample.world 170 ∅))
    as (checks & _ & Ht);
    [reflexivity|reflexivity|reflexivity|reflexivity
    |vm_compute; discriminate|vm_compute; discriminate|vm_compute; discriminate
    |vm_compute; discriminate|vm_compute; reflexivity|].
  exists checks. rewrite Ht. vm_compute. reflexivity.
Defined.

(** C1, refuted as stated: with success limits 5, 6 and 7 and a handler
    that answers 200, the records after the handler are those of the user,
    of the key's minute and of the key's day, in that order, on both
    backends. *)
Lemma records_follow_the_code_order :
  trace (ModelRequestRateLimit sample.success_only true sample.request
           sample.handler_ok (sample.world 170 ∅))
  = [LLen "rateLimit:TRLS:7"; LLen "rateLimit:TDRLS:7"; LLen "rateLimit:MRRLS:1";
     Handler;
     LPush "rateLimit:MRRLS:1" 172; LTrim "rateLimit:MRRLS:1" 0 4;
     Expire "rateLimit:MRRLS:1" 60;
     LPush "rateLimit:TRLS:7" 172; LTrim "rateLimit:TRLS:7" 0 5;
     Expire "rateLimit:TRLS:7" 60;
     LPush "rateLimit:TDRLS:7" 172; LTrim "rateLimit:TDRLS:7" 0 6;
     Expire "rateLimit:TDRLS:7" 60]
  /\ trace (ModelRequestRateLimit sample.success_only false sample.request
              sample.handler_ok (sample.world 170 ∅))
     = [MemInit 60000000000; MemRequest "TRLS7_check" 6 60;
        MemInit 86400000000000; MemRequest "TDRLS7_check" 7 86400;
        MemInit 60000000000; MemRequest "MRRLS1_check" 5 60;
        Handler;
        MemRequest "MRRLS1" 5 60; MemRequest "TRLS7" 6 60;
        MemRequest "TDRLS7" 7 86400].
Proof. vm_compute. split; reflexivity. Qed.

Lemma checks_ordered_by_backend_witness :
  exists rest,
    trace (memoryRateLimitHandler sample.all_on 60 10 5 sample.request
             sample.handler_ok (sample.world 170 ∅))
    = MemInit 60000000000 :: MemRequest "MRRL1" 10 60 :: rest
    /\ (rest = [] \/ exists more, rest = MemRequest "MRRLS1_check" 5 60 :: more).
Proof.
  destruct (checks_ordered_by_backend sample.all_on "7" 10 5 60 sample.request
              sample.handler_ok (sample.world 170 ∅))
    as (_ & _ & _ & _ & _ & H).
  destruct (H eq_refl) as (rest & Ht & Hrest).
  exists rest. split; [exact Ht|exact Hrest].
Defined.

(** C2, refuted as stated: with a total limit of 20 and a success limit of 6
    the in-process check of the key's minute tier asks for the total counter
    first and for the probe of the success counter after it, and so do the
    daily check and the per-user handler. *)
Lemma in_process_checks_total_first :
  trace (snd (checkTokenRateLimitMemory sample.all_on "7" 20 6 60 (sample.world 170 ∅)))
  = [MemInit 60000000000; MemRequest "TRL7" 20 60; MemRequest "TRLS7_check" 6 60]
  /\ trace (snd (checkTokenDailyRateLimitMemory "7" 30 7 86400 (sample.world 170 ∅)))
     = [MemInit 86400000000000; MemRequest "TDRL7" 30 86400; MemRequest "TDRLS7_check" 7 86400]
  /\ trace (snd (checkTokenRateLimitRedis sample.all_on "7" 20 6 60 (sample.world 170 ∅)))
     = [LLen "rateLimit:TRLS:7"; Allow "rateLimit:TRL:7" 1200 20 60].
Proof. vm_compute. repeat split; reflexivity. Qed.

Lemma token_bucket_parameters_witness :
  (exists S,
      trace (snd (checkTokenRateLimitRedis sample.all_on "7" 20 6 60 (sample.world 170 ∅)))
      = S ++ [Allow "rateLimit:TRL:7" 1200 20 60])
  /\ mul64 20 60 = 20 * 60
  /\ exists checks records,
      trace (ModelRequestRateLimit sample.all_on true sample.request
               sample.handler_ok (sample.world 170 ∅))
      = checks ++ Handler :: records
      /\ Forall (success_write sample.request) records.
Proof.
  destruct (token_bucket_parameters sample.all_on true "7" 20 6 60 sample.request
              sample.handler_ok (sample.world 170 ∅))
    as (Hkey & _ & _ & _ & Hmul & Hafter & _).
  split; [|split].
  - destruct Hkey as (S & _ & Ht); [reflexivity|intros _; vm_compute; reflexivity|].
    exists S. exact Ht.
  - apply Hmul. vm_compute. split; discriminate.
  - destruct (Hafter eq_refl eq_refl) as (checks & _ & [(_ & Hab & _)|Hran]).
    + vm_compute in Hab. discriminate Hab.
    + destruct Hran as (records & Ht & Hr). exists checks, records.
      split; [exact Ht|exact Hr].
Defined.

(** C5, refuted as stated: with a total limit of 2^62 for the user and a
    window of one minute the capacity that the per-user tier gives the token
    bucket is 0, the value of [2^62 * 60] in [int64], and not the product. *)
Lemma bucket_capacity_wraps :
  take 2 (trace (ModelRequestRateLimit sample.huge_total true sample.request
                   sample.handler_ok (sample.world 170 ∅)))
  = [LLen "rateLimit:MRRLS:1"; Allow "rateLimit:1" 0 4611686018427387904 60]
  /\ 4611686018427387904 * 60 = 276701161105643274240
  /\ 0 <> 4611686018427387904 * 60.
Proof. vm_compute. repeat split; discriminate. Qed.

Lemma throttling_messages_witness :
  refuses_with (sample.world 120 sample.full_list)
    (checkTokenRateLimitRedis sample.all_on "7" 20 2 60
       (sample.world 120 sample.full_list))
    (key_success_message sample.all_on 2)
  /\ response (redisRateLimitHandler sample.all_on 60 10 5 sample.request
                 sample.handler_ok (sample.drained_world 170))
     = (429, true, [(429, user_total_message sample.all_on 10)]).
Proof.
  split.
  - destruct (throttling_messages sample.all_on "7" 20 2 60 sample.request
                sample.handler_ok (sample.world 120 sample.full_list))
      as ((H & _) & _).
    apply H. split; [reflexivity|vm_compute; reflexivity].
  - destruct (throttling_messages sample.all_on "7" 10 5 60 sample.request
                sample.handler_ok (sample.drained_world 170))
      as (_ & _ & _ & _ & H & _).
    destruct (H eq_refl) as (_ & Htotal).
    apply Htotal; [vm_compute; reflexivity|].
    split; [reflexivity|vm_compute; reflexivity].
Defined.

(** C6, refuted as stated: the daily success counter of key 7 is full, the
    check answers 429 with the fixed text of the daily tier, and that text
    holds neither the limit 2 nor any other decimal digit; and a refusal of the
    per-user handler in process carries no message at all. *)
Lemma daily_rejection_names_no_number :
  response (snd (checkTokenDailyRateLimitRedis sample.all_on "7" 0 2 86400
                   (sample.world 120 sample.full_daily_list)))
  = (429, true, [(429, daily_success_message)])
  /\ Contains daily_success_message (itoa 2) = false
  /\ Contains daily_success_message (itoa 86400) = false
  /\ forallb (fun digit => negb (Contains daily_success_message digit))
       ["0"; "1"; "2"; "3"; "4"; "5"; "6"; "7"; "8"; "9"] = true
  /\ forallb (fun digit => negb (Contains daily_total_message digit))
       ["0"; "1"; "2"; "3"; "4"; "5"; "6"; "7"; "8"; "9"] = true
  /\ response (memoryRateLimitHandler sample.all_on 60 0 2 sample.request
                 sample.handler_ok (sample.probed_world 120))
     = (429, true, []).
Proof. vm_compute. repeat split; reflexivity. Qed.

Lemma zero_limit_is_skipped_witness :
  recordTokenRateLimitSuccess sample.zero_limits true sample.request (sample.world 170 ∅)
  = sample.world 170 ∅
  /\ checkTokenRateLimit sample.zero_limits false sample.request (sample.world 170 ∅)
     = (true, sample.world 170 ∅)
  /\ exists S records,
      trace (redisRateLimitHandler sample.zero_limits 60 0 5 sample.request
               sample.handler_ok (sample.world 170 ∅))
      = S ++ Handler :: records
      /\ Forall (window_op "rateLimit:MRRLS:1") S
      /\ Forall (write_on "rateLimit:MRRLS:1") records.
Proof.
  destruct (zero_limit_is_skipped sample.zero_limits true "7" 0 5 60 sample.request
              sample.handler_ok (sample.world 170 ∅))
    as (_ & _ & _ & _ & _ & _ & Huser & _ & _ & _ & _ & _ & _ & Hrec & _).
  destruct (zero_limit_is_skipped sample.zero_limits false "7" 0 0 60 sample.request
              sample.handler_ok (sample.world 170 ∅))
    as (_ & _ & _ & _ & _ & _ & _ & _ & _ & _ & _ & _ & _ & _ & _ & Hchk & _).
  split; [|split].
  - apply Hrec. reflexivity.
  - apply Hchk. reflexivity.
  - destruct (Huser eq_refl) as (S & HS & Hran & _).
    destruct Hran as (records & Ht & Hr); [vm_compute; reflexivity|].
    exists S, records. split; [exact Ht|]. split; [exact HS|exact Hr].
Defined.

(** C8, refuted as stated: the per-user handler in process, given a success
    limit of 0 and no total limit, still sends the probe of the success counter
    to the limiter, with 0 as the limit. *)
Lemma in_process_user_probe_with_zero :
  take 2 (trace (memoryRateLimitHandler sample.all_on 60 0 0 sample.request
                   sample.handler_ok (sample.world 170 ∅)))
  = [MemInit 60000000000; MemRequest "MRRLS1_check" 0 60].
Proof. vm_compute. reflexivity. Qed.

End Samples.


(** * Further properties of package setting *)

Section SettingMore.

Import setting.

Lemma check_entries_none least entries :
  check_entries least entries = None ->
  Forall (fun e => in_range least (snd e)) entries.
Proof.
  induction entries as [|[g l] entries IH]; cbn; intros H; [apply Forall_nil_2|].
  destruct ((fst l <? 0) || (snd l <? least)) eqn:Hneg; [discriminate|].
  destruct ((fst l >? MaxInt32) || (snd l >? MaxInt32)) eqn:Hmax; [discriminate|].
  apply orb_false_elim in Hneg as [H1 H2], Hmax as [H3 H4].
  apply Z.ltb_ge in H1, H2. rewrite Z.gtb_ltb in H3, H4. apply Z.ltb_ge in H3, H4.
  apply Forall_cons_2; [|now apply IH].
  unfold in_range. cbn. lia.
Qed.

Lemma check_entries_some least entries e :
  check_entries least entries = Some e ->
  exists g l,
    (g, l) ∈ entries
    /\ ((e = Errorf (negative_message g l) /\ (fst l < 0 \/ snd l < least))
        \/ (e = Errorf (max_message g l) /\ (MaxInt32 < fst l \/ MaxInt32 < snd l))).
Proof.
  induction entries as [|[g l] entries IH]; cbn; intros H; [discriminate|].
  destruct ((fst l <? 0) || (snd l <? least)) eqn:Hneg.
  { injection H as <-. exists g, l. split; [apply elem_of_cons; now left|]. left.
    split; [reflexivity|].
    apply orb_true_iff in Hneg as [H1|H1]; apply Z.ltb_lt in H1; auto. }
  destruct ((fst l >? MaxInt32) || (snd l >? MaxInt32)) eqn:Hmax.
  { injection H as <-. exists g, l. split; [apply elem_of_cons; now left|]. right.
    split; [reflexivity|].
    apply orb_true_iff in Hmax as [H1|H1]; rewrite Z.gtb_ltb in H1;
      apply Z.ltb_lt in H1; auto. }
  destruct (IH H) as (g' & l' & Hin & Hc).
  exists g', l'. split; [apply elem_of_cons; now right|exact Hc].
Qed.

Lemma range_over_elem (range : Range) (m : GoMap) g l :
  any_order range -> ((g, l) ∈ range_over range m <-> map_index m g = Some l).
Proof.
  intros Hr. destruct m as [m|]; cbn.
  - apply (range_elem range m g l Hr).
  - split; [intros H; now apply elem_of_nil in H|discriminate].
Qed.

Lemma check_group_accepts least (range : Range) jsonStr :
  any_order range ->
  (check_group least range jsonStr = None
   <-> exists m, decode.Unmarshal jsonStr make_map = (m, None)
                 /\ forall g l, map_index m g = Some l -> in_range least l).
Proof.
  intros Hr. unfold check_group.
  destruct (decode.Unmarshal jsonStr make_map) as [m [e|]].
  - split; [discriminate|]. intros (m' & H & _). discriminate.
  - split.
    + intros H. exists m. split; [reflexivity|]. intros g l Hl.
      apply check_entries_none in H.
      rewrite Forall_forall in H.
      apply (H (g, l)). now apply range_over_elem.
    + intros (m' & Heq & H). injection Heq as <-.
      apply check_entries_good. apply Forall_forall. intros [g l] Hin. cbn.
      apply (H g). now apply (range_over_elem range m g l Hr).
Qed.

Lemma CheckPolicy_check_group sc :
  CheckPolicy sc = check_group (least_success sc).
Proof. destruct sc; reflexivity. Qed.

Lemma GetPolicy_lookup sc s group :
  GetPolicy sc s group = lookup_limits (overrides sc s) group.
Proof. destruct sc; reflexivity. Qed.

Lemma lookup_limits_index m group :
  lookup_limits m group
  = match map_index m group with
    | Some l => (fst l, snd l, true)
    | None => (0, 0, false)
    end.
Proof. destruct m as [m|]; reflexivity. Qed.

Lemma CheckPolicy_accepts sc (range : Range) jsonStr :
  any_order range ->
  (CheckPolicy sc range jsonStr = None
   <-> exists m, decode.Unmarshal jsonStr make_map = (m, None)
                 /\ forall g l, map_index m g = Some l ->
                                in_range (least_success sc) l).
Proof.
  intros Hr. rewrite CheckPolicy_check_group. now apply check_group_accepts.
Qed.

(** X1. A validator accepts a blob exactly when the blob decodes without
    error and every group of the decoded map has a total limit between 0 and
    2147483647 and a success limit between the scope's least value (1 per
    user, 0 per key) and 2147483647, in whatever order the map is visited. *)
Theorem validator_accepts_exactly (sc : Scope) (range : Range) (jsonStr : string) :
  any_order range ->
  (CheckPolicy sc range jsonStr = None
   <-> exists m, decode.Unmarshal jsonStr make_map = (m, None)
                 /\ forall g l, map_index m g = Some l ->
                                in_range (least_success sc) l).
Proof.
  intros Hr. rewrite CheckPolicy_check_group. unfold check_group.
  destruct (check_group_accepts (least_success sc) range jsonStr Hr) as [Hto Hfrom].
  split; [exact Hto|exact Hfrom].
Qed.

Lemma validator_accepts_exactly_witness :
  any_order map_to_list
  /\ (CheckPolicy User map_to_list (js "{'a':[0,1],'b':[2147483647,7]}") = None
      <-> exists m,
          decode.Unmarshal (js "{'a':[0,1],'b':[2147483647,7]}") make_map = (m, None)
          /\ forall g l, map_index m g = Some l -> in_range (least_success User) l).
Proof.
  assert (Hr : any_order map_to_list) by (intros m; reflexivity).
  split; [exact Hr|].
  apply (validator_accepts_exactly User map_to_list _ Hr).
Defined.

(** X2. An error that a validator returns is the decoder's error, or it
    is about a group of the decoded map whose values are out of bounds: the
    negative-values message for a total below 0 or a success limit below the
    scope's least value, the max-value message for a value above 2147483647;
    and the message holds the name of that group and its two values. *)
Theorem validator_error_names_offender (sc : Scope) (range : Range)
    (jsonStr : string) (e : error) :
  any_order range ->
  CheckPolicy sc range jsonStr = Some e ->
  snd (decode.Unmarshal jsonStr make_map) = Some e
  \/ exists g l,
      map_index (fst (decode.Unmarshal jsonStr make_map)) g = Some l
      /\ ((e = Errorf (negative_message g l)
           /\ (fst l < 0 \/ snd l < least_success sc))
          \/ (e = Errorf (max_message g l)
              /\ (MaxInt32 < fst l \/ MaxInt32 < snd l)))
      /\ occurs g (error_message e)
      /\ occurs (itoa (fst l)) (error_message e)
      /\ occurs (itoa (snd l)) (error_message e).
Proof.
  intros Hr. rewrite CheckPolicy_check_group. unfold check_group.
  destruct (decode.Unmarshal jsonStr make_map) as [m [e'|]]; cbn.
  - intros H. injection H as ->. now left.
  - intros H. right.
    destruct (check_entries_some _ _ _ H) as (g & l & Hin & Hc).
    exists g, l. split; [now apply (range_over_elem range m g l Hr)|].
    split; [exact Hc|].
    destruct Hc as [(-> & _)|(-> & _)]; cbn; unfold negative_message, max_message, occurs.
    + split; [|split].
      * exists "group ", (" has negative rate limit values: ["
                          +:+ itoa (fst l) +:+ ", " +:+ itoa (snd l) +:+ "]").
        reflexivity.
      * exists ("group " +:+ g +:+ " has negative rate limit values: ["),
          (", " +:+ itoa (snd l) +:+ "]").
        now rewrite !append_assoc.
      * exists ("group " +:+ g +:+ " has negative rate limit values: ["
                +:+ itoa (fst l) +:+ ", "), "]".
        now rewrite !append_assoc.
    + split; [|split].
      * exists "group ", (" [" +:+ itoa (fst l) +:+ ", " +:+ itoa (snd l)
                          +:+ "] has max rate limits value 2147483647").
        reflexivity.
      * exists ("group " +:+ g +:+ " ["),
          (", " +:+ itoa (snd l) +:+ "] has max rate limits value 2147483647").
        now rewrite !append_assoc.
      * exists ("group " +:+ g +:+ " [" +:+ itoa (fst l) +:+ ", "),
          "] has max rate limits value 2147483647".
        now rewrite !append_assoc.
Qed.

Lemma validator_error_names_offender_witness :
  exists g l,
    map_index (fst (decode.Unmarshal (js "{'vip':[5,2147483648]}") make_map)) g = Some l
    /\ occurs g "group vip [5, 2147483648] has max rate limits value 2147483647".
Proof.
  destruct (validator_error_names_offender KeyDaily map_to_list
              (js "{'vip':[5,2147483648]}")
              (Errorf "group vip [5, 2147483648] has max rate limits value 2147483647"))
    as [H|(g & l & Hl & _ & Hg & _)].
  - intros m. reflexivity.
  - vm_compute. reflexivity.
  - vm_compute in H. discriminate H.
  - exists g, l. split; [exact Hl|exact Hg].
Defined.

(** X3. Whether a blob is accepted does not depend on the order in which
    the map is visited; the validators of the two per-key scopes accept the
    same blobs; and a blob that the per-user validator accepts is accepted by
    both of them. *)
Theorem validators_compared (range1 range2 : Range) (jsonStr : string) :
  any_order range1 -> any_order range2 ->
  (forall sc, CheckPolicy sc range1 jsonStr = None
              <-> CheckPolicy sc range2 jsonStr = None)
  /\ (CheckTokenRateLimitGroup range1 jsonStr = None
      <-> CheckTokenDailyRateLimitGroup range2 jsonStr = None)
  /\ (CheckModelRequestRateLimitGroup range1 jsonStr = None ->
      CheckTokenRateLimitGroup range2 jsonStr = None
      /\ CheckTokenDailyRateLimitGroup range2 jsonStr = None).
Proof.
  intros H1 H2. split; [|split].
  - intros sc.
    rewrite (CheckPolicy_accepts sc range1 jsonStr H1),
      (CheckPolicy_accepts sc range2 jsonStr H2). reflexivity.
  - unfold CheckTokenRateLimitGroup, CheckTokenDailyRateLimitGroup.
    rewrite (check_group_accepts 0 range1 jsonStr H1),
      (check_group_accepts 0 range2 jsonStr H2). reflexivity.
  - unfold CheckModelRequestRateLimitGroup, CheckTokenRateLimitGroup,
      CheckTokenDailyRateLimitGroup.
    rewrite (check_group_accepts 1 range1 jsonStr H1),
      (check_group_accepts 0 range2 jsonStr H2).
    intros (m & Hd & Hm).
    assert (exists m', decode.Unmarshal jsonStr make_map = (m', None)
                       /\ forall g l, map_index m' g = Some l -> in_range 0 l).
    { exists m. split; [exact Hd|]. intros g l Hl.
      destruct (Hm g l Hl) as [Ha Hb]. unfold in_range. lia. }
    now split.
Qed.

Lemma validators_compared_witness :
  CheckTokenRateLimitGroup map_to_list (js "{'a':[3,1]}") = None
  /\ CheckTokenDailyRateLimitGroup map_to_list (js "{'a':[3,1]}") = None.
Proof.
  assert (Hr : any_order map_to_list) by (intros m; reflexivity).
  destruct (validators_compared map_to_list map_to_list (js "{'a':[3,1]}") Hr Hr)
    as (_ & _ & H).
  apply H. vm_compute. reflexivity.
Defined.

(** X4. After an update, a lookup in the scope finds exactly the groups
    that the decoder stored, with their two values, and reports every other
    group as missing with zeros; the limits in force for a group are then its
    entry if it has one and the scope's defaults otherwise. This holds for
    whatever the decoder stored, also when the update returned an error. *)
Theorem lookup_after_update (sc : Scope) (jsonStr : string) (s : Settings)
    (group : string) (total success : Z) :
  GetPolicy sc (fst (UpdatePolicy sc jsonStr s)) group
  = match map_index (fst (decode.Unmarshal jsonStr make_map)) group with
    | Some l => (fst l, snd l, true)
    | None => (0, 0, false)
    end
  /\ middleware.resolve (GetPolicy sc (fst (UpdatePolicy sc jsonStr s)) group)
       total success
     = match map_index (fst (decode.Unmarshal jsonStr make_map)) group with
       | Some l => l
       | None => (total, success)
       end.
Proof.
  rewrite GetPolicy_lookup.
  destruct (UpdatePolicy_unfold sc jsonStr s) as [-> _].
  rewrite lookup_limits_index.
  split; [reflexivity|].
  destruct (map_index _ group) as [[t su]|]; reflexivity.
Qed.

(** X5. An update of one scope leaves the maps of the other two scopes
    and every scalar setting as they were. *)
Theorem update_touches_one_scope (sc other : Scope) (jsonStr : string) (s : Settings) :
  sc <> other ->
  overrides other (fst (UpdatePolicy sc jsonStr s)) = overrides other s
  /\ scalars (fst (UpdatePolicy sc jsonStr s)) = scalars s.
Proof.
  intros Hne.
  destruct sc, other; try congruence; cbn;
    unfold UpdateModelRequestRateLimitGroupByJSONString,
      UpdateTokenRateLimitGroupByJSONString,
      UpdateTokenDailyRateLimitGroupByJSONString; cbn;
    destruct (decode.Unmarshal jsonStr make_map) as [m e]; split; reflexivity.
Qed.

Lemma update_touches_one_scope_witness :
  overrides KeyDaily (fst (UpdatePolicy User (js "{'a':[1,2]}") sample.configured))
  = overrides KeyDaily sample.configured
  /\ scalars (fst (UpdatePolicy User (js "{'a':[1,2]}") sample.configured))
     = scalars sample.configured.
Proof.
  apply (update_touches_one_scope User KeyDaily). discriminate.
Defined.

(** X6. Validation and update composed: when the validator of a scope has
    accepted a blob, the update of that scope with the same blob returns no
    error, and every group that a lookup then finds has a total limit between
    0 and 2147483647 and a success limit between the scope's least value and
    2147483647. *)
Theorem validated_update_is_bounded (sc : Scope) (range : Range) (jsonStr : string)
    (s : Settings) :
  any_order range ->
  CheckPolicy sc range jsonStr = None ->
  snd (UpdatePolicy sc jsonStr s) = None
  /\ forall group total success,
      GetPolicy sc (fst (UpdatePolicy sc jsonStr s)) group = (total, success, true) ->
      0 <= total <= MaxInt32 /\ least_success sc <= success <= MaxInt32.
Proof.
  intros Hr Hc.
  apply (CheckPolicy_accepts sc range jsonStr Hr) in Hc as (m & Hd & Hm).
  destruct (UpdatePolicy_unfold sc jsonStr s) as [Ho He].
  rewrite He, Hd. split; [reflexivity|].
  intros group total success. rewrite GetPolicy_lookup, Ho, Hd, lookup_limits_index.
  cbn [fst]. destruct (map_index m group) as [l|] eqn:Hl; [|discriminate].
  intros H. injection H as <- <-. apply (Hm group l Hl).
Qed.

Lemma validated_update_is_bounded_witness :
  snd (UpdatePolicy User (js "{'a':[0,1],'b':[2147483647,7]}") sample.configured) = None
  /\ forall group total success,
      GetPolicy User
        (fst (UpdatePolicy User (js "{'a':[0,1],'b':[2147483647,7]}") sample.configured))
        group = (total, success, true) ->
      0 <= total <= MaxInt32 /\ least_success User <= success <= MaxInt32.
Proof.
  apply (validated_update_is_bounded User map_to_list).
  - intros m. reflexivity.
  - vm_compute. reflexivity.
Defined.

End SettingMore.

(** * Further properties of package middleware *)

Section MiddlewareMore.

Import setting middleware observe.

Context {L : Limiters}.
Variable cfg : Settings.
Variable RedisEnabled : bool.

Lemma get_live now key r l d :
  Redis.get now key r = Some (l, Some d) -> now < d.
Proof.
  unfold Redis.get. destruct (Redis.data r !! key) as [[l' [d'|]]|]; [|discriminate..].
  destruct (d' <=? now) eqn:H; [discriminate|].
  intros Heq. injection Heq as _ <-. now apply Z.leb_gt in H.
Qed.

Lemma get_put_same now key l d r :
  l <> [] ->
  match d with Some dl => now < dl | None => True end ->
  Redis.get now key (Redis.put key l d r) = Some (l, d).
Proof.
  intros Hl Hd. destruct l as [|x l]; [congruence|].
  unfold Redis.get, Redis.put, Redis.with_data. cbn.
  rewrite lookup_insert_eq. destruct d as [dl|]; [|reflexivity].
  now replace (dl <=? now) with false by (symmetry; apply Z.leb_gt; lia).
Qed.

Lemma put_put key l1 d1 l2 d2 r :
  l1 <> [] -> l2 <> [] ->
  Redis.put key l2 d2 (Redis.put key l1 d1 r) = Redis.put key l2 d2 r.
Proof.
  intros H1 H2. destruct l1 as [|x1 l1]; [congruence|].
  destruct l2 as [|x2 l2]; [congruence|].
  unfold Redis.put, Redis.with_data. cbn. now rewrite insert_insert_eq.
Qed.

Lemma up_put key l d r : Redis.up (Redis.put key l d r) = Redis.up r.
Proof. destruct l; reflexivity. Qed.

Lemma take_bound (maxCount : Z) (x : Z) (l : list Z) :
  0 < maxCount ->
  take (Z.to_nat (Z.min (Z.of_nat (length (x :: l)) - 1) (maxCount - 1) - 0 + 1))
    (drop (Z.to_nat 0) (x :: l))
  = take (Z.to_nat maxCount) (x :: l).
Proof.
  intros Hpos. change (drop (Z.to_nat 0) (x :: l)) with (x :: l).
  destruct (Z.le_gt_cases maxCount (Z.of_nat (length (x :: l)))) as [Hle|Hgt].
  - f_equal. lia.
  - rewrite !take_ge; [reflexivity|lia|lia].
Qed.

(** The state of the backend after one record with a positive limit. *)
Lemma record_state key maxCount (w : World) :
  0 < maxCount ->
  Redis.up (rdb w) = true ->
  let secs := minutes_seconds (ModelRequestRateLimitDurationMinutes cfg) in
  0 < secs ->
  rdb (recordRedisRequest cfg key maxCount w)
  = Redis.put key (take (Z.to_nat maxCount) (now w :: entries (now w) key (rdb w)))
      (Some (now w + secs)) (rdb w).
Proof.
  intros Hpos Hup secs Hsecs.
  unfold recordRedisRequest.
  replace (maxCount =? 0) with false by (symmetry; apply Z.eqb_neq; lia).
  unfold rdb_Expire, rdb_LTrim, rdb_LPush. cbn [rdb now emit set_rdb].
  fold secs.
  set (l := entries (now w) key (rdb w)).
  set (d := match Redis.get (now w) key (rdb w) with
            | Some (_, d) => d
            | None => None
            end).
  assert (Hd : match d with Some dl => now w < dl | None => True end).
  { subst d. destruct (Redis.get (now w) key (rdb w)) as [[l0 [dl|]]|] eqn:Hg; auto.
    now apply get_live in Hg. }
  assert (Hpush : Redis.LPush (now w) key (now w) (rdb w)
                  = Redis.put key (now w :: l) d (rdb w)).
  { unfold Redis.LPush. rewrite Hup. subst l d. unfold entries.
    now destruct (Redis.get (now w) key (rdb w)) as [[l0 d0]|]. }
  rewrite Hpush.
  assert (Htrim : Redis.LTrim (now w) key 0 (maxCount - 1)
                    (Redis.put key (now w :: l) d (rdb w))
                  = Redis.put key (take (Z.to_nat maxCount) (now w :: l)) d (rdb w)).
  { unfold Redis.LTrim. rewrite up_put, Hup.
    rewrite get_put_same by (auto; discriminate).
    unfold Redis.index.
    replace (0 <? 0) with false by reflexivity.
    replace (maxCount - 1 <? 0) with false by (symmetry; apply Z.ltb_ge; lia).
    set (len := Z.of_nat (length (now w :: l))).
    assert (Hlen : 1 <= len) by (subst len; cbn [length]; lia).
    replace (Z.max 0 0) with 0 by reflexivity.
    replace ((0 >? Z.min (len - 1) (maxCount - 1)) || (0 >=? len)) with false.
    2:{ symmetry. apply orb_false_iff. split.
        - rewrite Z.gtb_ltb. apply Z.ltb_ge. lia.
        - rewrite Z.geb_leb. apply Z.leb_gt. lia. }
    rewrite put_put; [|discriminate|].
    2:{ subst len. rewrite take_bound by exact Hpos.
        destruct (Z.to_nat maxCount) eqn:Hn; [lia|discriminate]. }
    subst len. now rewrite take_bound. }
  rewrite Htrim.
  assert (Hne : take (Z.to_nat maxCount) (now w :: l) <> []).
  { destruct (Z.to_nat maxCount) eqn:Hn; [lia|discriminate]. }
  unfold Redis.Expire. rewrite up_put, Hup.
  rewrite get_put_same by assumption.
  replace (secs <=? 0) with false by (symmetry; apply Z.leb_gt; lia).
  now rewrite put_put.
Qed.

(** After its deadline the key of a record is gone. *)
Lemma record_gone key maxCount (w : World) t :
  0 < maxCount ->
  Redis.up (rdb w) = true ->
  let secs := minutes_seconds (ModelRequestRateLimitDurationMinutes cfg) in
  0 < secs ->
  now w + secs <= t ->
  Redis.get t key (rdb (recordRedisRequest cfg key maxCount w)) = None.
Proof.
  intros Hpos Hup secs Hsecs Ht.
  rewrite (record_state key maxCount w Hpos Hup Hsecs). fold secs.
  destruct (take (Z.to_nat maxCount) (now w :: entries (now w) key (rdb w)))
    as [|x k] eqn:Hk.
  - destruct (Z.to_nat maxCount) eqn:Hn; [lia|discriminate].
  - unfold Redis.get, Redis.put, Redis.with_data. cbn.
    rewrite lookup_insert_eq.
    now replace (now w + secs <=? t) with true by (symmetry; apply Z.leb_le; lia).
Qed.

(** X7. A record with a positive limit, the backend being up and the
    per-user window positive, leaves under the key the time of the record
    followed by the entries that were there, cut to the first [maxCount], so
    never more than [maxCount] of them; and the key then lives until the time
    of the record plus the per-user window, and is gone from then on. *)
Theorem record_keeps_newest (key : string) (maxCount : Z) (w : World) (t : Z) :
  0 < maxCount ->
  Redis.up (rdb w) = true ->
  let secs := minutes_seconds (ModelRequestRateLimitDurationMinutes cfg) in
  let kept := take (Z.to_nat maxCount) (now w :: entries (now w) key (rdb w)) in
  0 < secs ->
  Z.of_nat (length kept) <= maxCount
  /\ (t < now w + secs ->
      Redis.get t key (rdb (recordRedisRequest cfg key maxCount w))
      = Some (kept, Some (now w + secs)))
  /\ (now w + secs <= t ->
      Redis.get t key (rdb (recordRedisRequest cfg key maxCount w)) = None).
Proof.
  intros Hpos Hup secs kept Hsecs.
  assert (Hne : kept <> []).
  { subst kept. destruct (Z.to_nat maxCount) eqn:Hn; [lia|discriminate]. }
  split; [|split].
  - subst kept. rewrite length_take. lia.
  - intros Ht. rewrite (record_state key maxCount w Hpos Hup Hsecs). fold secs kept.
    now apply get_put_same.
  - intros Ht. now apply record_gone.
Qed.


Lemma check_below_limit key maxCount duration (w : World) :
  Redis.up (rdb w) = true ->
  Z.of_nat (length (entries (now w) key (rdb w))) < maxCount ->
  checkRedisRateLimit cfg key maxCount duration w = ((true, None), emit (LLen key) w).
Proof.
  intros Hup Hlen. unfold checkRedisRateLimit.
  replace (maxCount =? 0) with false by (symmetry; apply Z.eqb_neq; lia).
  unfold rdb_LLen, Redis.LLen. rewrite Hup. unfold entries in Hlen.
  destruct (Redis.get (now w) key (rdb w)) as [[l d]|].
  - now replace (Z.of_nat (length l) <? maxCount) with true
      by (symmetry; apply Z.ltb_lt; lia).
  - now replace (0 <? maxCount) with true by (symmetry; apply Z.ltb_lt; cbn in Hlen; lia).
Qed.

(** X8. While the key holds fewer than [maxCount] entries, none at all
    for a key that is missing or past its deadline, a check admits after
    asking for the length only: it writes nothing. *)
Theorem check_admits_below_limit (key : string) (maxCount duration : Z) (w : World) :
  Redis.up (rdb w) = true ->
  Z.of_nat (length (entries (now w) key (rdb w))) < maxCount ->
  fst (checkRedisRateLimit cfg key maxCount duration w) = (true, None)
  /\ rdb (snd (checkRedisRateLimit cfg key maxCount duration w)) = rdb w
  /\ trace (snd (checkRedisRateLimit cfg key maxCount duration w))
     = trace w ++ [LLen key].
Proof.
  intros Hup Hlen. rewrite (check_below_limit key maxCount duration w Hup Hlen).
  repeat split.
Qed.




Lemma take_app_take {A} (n : nat) (a b : list A) :
  take n (a ++ take n b) = take n (a ++ b).
Proof.
  revert n. induction a as [|x a IH]; intros n; cbn.
  - apply take_idemp.
  - destruct n; [reflexivity|]. cbn. f_equal.
    destruct (Nat.le_gt_cases (length a) n) as [Hle|Hgt].
    + rewrite !take_app_ge by lia. f_equal.
      rewrite take_take. f_equal. lia.
    + rewrite !take_app_le by lia. reflexivity.
Qed.

Lemma record_each_state key maxCount times :
  0 < maxCount ->
  let secs := minutes_seconds (ModelRequestRateLimitDurationMinutes cfg) in
  0 < secs ->
  forall (prev : Z) (l : list Z) (w : World),
    Redis.up (rdb w) = true ->
    l <> [] ->
    Z.of_nat (length l) <= maxCount ->
    (forall t, prev <= t < prev + secs ->
               Redis.get t key (rdb w) = Some (l, Some (prev + secs))) ->
    paced secs prev times ->
    let final := default prev (last times) in
    Redis.up (rdb (record_each cfg key maxCount times w)) = true
    /\ forall t, final <= t < final + secs ->
                 Redis.get t key (rdb (record_each cfg key maxCount times w))
                 = Some (take (Z.to_nat maxCount) (rev times ++ l), Some (final + secs)).
Proof.
  intros Hpos secs Hsecs.
  induction times as [|t2 rest IH]; intros prev l w Hup Hl Hlen Hstate Hpaced final.
  - cbn in *. split; [exact Hup|]. intros t Ht.
    rewrite take_ge by lia. now apply Hstate.
  - destruct Hpaced as [Ht2 Hrest]. cbn [record_each].
    set (w2 := recordRedisRequest cfg key maxCount (at_time t2 w)).
    assert (Hent : entries t2 key (rdb w) = l).
    { unfold entries. now rewrite (Hstate t2 Ht2). }
    assert (Hrdb : rdb w2
                   = Redis.put key (take (Z.to_nat maxCount) (t2 :: l))
                       (Some (t2 + secs)) (rdb w)).
    { subst w2. rewrite (record_state key maxCount (at_time t2 w) Hpos Hup Hsecs).
      cbn [now rdb at_time]. fold secs. now rewrite Hent. }
    assert (Hne : take (Z.to_nat maxCount) (t2 :: l) <> []).
    { destruct (Z.to_nat maxCount) eqn:Hn; [lia|discriminate]. }
    destruct (IH t2 (take (Z.to_nat maxCount) (t2 :: l)) w2) as [Hup' Hfin].
    + rewrite Hrdb, up_put. exact Hup.
    + exact Hne.
    + rewrite length_take. lia.
    + intros t Ht. rewrite Hrdb. apply get_put_same; [exact Hne|lia].
    + exact Hrest.
    + split; [exact Hup'|]. intros t Ht.
      assert (Hfinal : final = default t2 (last rest)).
      { subst final. rewrite last_cons. now destruct (last rest). }
      rewrite Hfinal in *. rewrite (Hfin t Ht). f_equal. f_equal.
      rewrite take_app_take. cbn [rev]. now rewrite <- app_assoc.
Qed.

(** X10. The sliding window, from records to check. Successes are recorded
    on a key that held nothing, at times of which each is at or after the one
    before it and within the per-user window of it; a check is then made while
    the key still lives. It rejects exactly when at least [maxCount] successes
    were recorded and the [maxCount]-th most recent of them is less than
    [duration] seconds old. *)
Theorem window_counts_recorded_successes (key : string) (maxCount duration : Z)
    (first : Z) (later : list Z) (w : World) (t : Z) :
  0 < maxCount ->
  Redis.up (rdb w) = true ->
  let secs := minutes_seconds (ModelRequestRateLimitDurationMinutes cfg) in
  let times := first :: later in
  let final := default first (last later) in
  0 < secs ->
  entries first key (rdb w) = [] ->
  paced secs first later ->
  final <= t < final + secs ->
  fst (checkRedisRateLimit cfg key maxCount duration
         (at_time t (record_each cfg key maxCount times w)))
  = match rev times !! (Z.to_nat maxCount - 1)%nat with
    | Some x => (negb (t - x <? duration), None)
    | None => (true, None)
    end.
Proof.
  intros Hpos Hup secs times final Hsecs Hfresh Hpaced Ht.
  subst times. cbn [record_each].
  set (w1 := recordRedisRequest cfg key maxCount (at_time first w)).
  assert (Hrdb : rdb w1 = Redis.put key [first] (Some (first + secs)) (rdb w)).
  { subst w1. rewrite (record_state key maxCount (at_time first w) Hpos Hup Hsecs).
    cbn [now rdb at_time]. fold secs. rewrite Hfresh.
    rewrite take_ge by (cbn [length]; lia). reflexivity. }
  destruct (record_each_state key maxCount later Hpos Hsecs first [first] w1)
    as [Hup' Hfin].
  - rewrite Hrdb. exact Hup.
  - discriminate.
  - cbn. lia.
  - intros t' Ht'. rewrite Hrdb. apply get_put_same; [discriminate|lia].
  - exact Hpaced.
  - fold secs final in Hfin. specialize (Hfin t Ht).
    set (wn := record_each cfg key maxCount later w1) in *.
    set (kept := take (Z.to_nat maxCount) (rev later ++ [first])) in *.
    assert (Hrev : rev (first :: later) = rev later ++ [first]) by reflexivity.
    rewrite Hrev.
    unfold checkRedisRateLimit.
    replace (maxCount =? 0) with false by (symmetry; apply Z.eqb_neq; lia).
    unfold rdb_LLen. cbn [now rdb at_time emit].
    rewrite (LLen_length _ _ _ _ _ Hup' Hfin).
    unfold rdb_LIndex. cbn [now rdb at_time emit].
    rewrite (LIndex_last _ _ _ _ _ Hup' Hfin).
    assert (Hlen : length kept = Nat.min (Z.to_nat maxCount) (length (rev later ++ [first])))
      by (subst kept; apply length_take).
    destruct (Z.of_nat (length kept) <? maxCount) eqn:Hlt.
    + apply Z.ltb_lt in Hlt.
      rewrite lookup_ge_None_2; [reflexivity|]. lia.
    + apply Z.ltb_ge in Hlt.
      rewrite last_lookup.
      replace (Init.Nat.pred (length kept)) with (Z.to_nat maxCount - 1)%nat by lia.
      subst kept. rewrite lookup_take_lt by lia.
      destruct ((rev later ++ [first]) !! (Z.to_nat maxCount - 1)%nat) as [x|] eqn:Hx.
      * cbn [now at_time emit]. destruct (t - x <? duration); reflexivity.
      * apply lookup_ge_None in Hx. lia.
Qed.



Lemma LLen_down now key r : Redis.up r = false -> Redis.LLen now key r = None.
Proof. intros H. unfold Redis.LLen. now rewrite H. Qed.

Lemma check_down key s d (w : World) :
  Redis.up (rdb w) = false -> s <> 0 ->
  checkRedisRateLimit cfg key s d w = ((false, Some RedisError), emit (LLen key) w).
Proof.
  intros Hup Hs. unfold checkRedisRateLimit, rdb_LLen.
  replace (s =? 0) with false by (symmetry; now apply Z.eqb_neq).
  now rewrite (LLen_down _ _ _ Hup).
Qed.

(** X11. When the shared backend does not answer, a sliding-window check
    with a limit other than 0 returns an error after its first command; the
    per-key checks and the per-user handler then answer 500 with the text
    [rate_limit_check_failed], not 429, without asking the token bucket and
    without calling the handler. *)
Theorem backend_down_answers_500 (k : string) (t s d : Z) (c : Request)
    (next : World -> World) (w : World) :
  Redis.up (rdb w) = false ->
  (s <> 0 ->
   checkRedisRateLimit cfg k s d w = ((false, Some RedisError), emit (LLen k) w))
  /\ (0 < s ->
      fst (checkTokenRateLimitRedis cfg k t s d w) = false
      /\ response (snd (checkTokenRateLimitRedis cfg k t s d w))
         = (500, true, body w ++ [(500, "rate_limit_check_failed")])
      /\ trace (snd (checkTokenRateLimitRedis cfg k t s d w))
         = trace w ++ [LLen (marked_key TokenRateLimitSuccessCountMark k)])
  /\ (0 < s ->
      fst (checkTokenDailyRateLimitRedis cfg k t s d w) = false
      /\ response (snd (checkTokenDailyRateLimitRedis cfg k t s d w))
         = (500, true, body w ++ [(500, "rate_limit_check_failed")])
      /\ trace (snd (checkTokenDailyRateLimitRedis cfg k t s d w))
         = trace w ++ [LLen (marked_key TokenDailyRateLimitSuccessCountMark k)])
  /\ (s <> 0 ->
      response (redisRateLimitHandler cfg d t s c next w)
      = (500, true, body w ++ [(500, "rate_limit_check_failed")])
      /\ trace (redisRateLimitHandler cfg d t s c next w)
         = trace w ++ [LLen (marked_key ModelRequestRateLimitSuccessCountMark
                               (itoa (id c)))]).
Proof.
  intros Hup. split; [|split; [|split]].
  - intros Hs. now apply check_down.
  - intros Hs. unfold checkTokenRateLimitRedis, check_key_redis.
    replace (s >? 0) with true by (symmetry; apply Z.gtb_lt; lia).
    rewrite check_down by (auto; lia). repeat split.
  - intros Hs. unfold checkTokenDailyRateLimitRedis, check_key_redis.
    replace (s >? 0) with true by (symmetry; apply Z.gtb_lt; lia).
    rewrite check_down by (auto; lia). repeat split.
  - intros Hs. unfold redisRateLimitHandler.
    rewrite check_down by auto. repeat split.
Qed.

Lemma checkTokenRateLimit_off c (w : World) :
  TokenRateLimitEnabled cfg = false \/ token_id c = 0 ->
  checkTokenRateLimit cfg RedisEnabled c w = (true, w)
  /\ recordTokenRateLimitSuccess cfg RedisEnabled c w = w.
Proof.
  unfold checkTokenRateLimit, recordTokenRateLimitSuccess.
  intros [H|H]; rewrite H; [now split|].
  now destruct (negb (TokenRateLimitEnabled cfg)).
Qed.

Lemma checkTokenDailyRateLimit_off c (w : World) :
  TokenDailyRateLimitEnabled cfg = false \/ token_id c = 0 ->
  checkTokenDailyRateLimit cfg RedisEnabled c w = (true, w)
  /\ recordTokenDailySuccess cfg RedisEnabled c w = w.
Proof.
  unfold checkTokenDailyRateLimit, recordTokenDailySuccess.
  intros [H|H]; rewrite H; [now split|].
  now destruct (negb (TokenDailyRateLimitEnabled cfg)).
Qed.

(** X12. With the per-user tier switched off, and each per-key tier
    either switched off or faced with a request that has no token id, the
    middleware does nothing but call the rest of the chain: no counter is
    asked before it and none is written after it, whatever the status. *)
Theorem middleware_transparent_when_off (c : Request) (next : World -> World)
    (w : World) :
  ModelRequestRateLimitEnabled cfg = false ->
  TokenRateLimitEnabled cfg = false \/ token_id c = 0 ->
  TokenDailyRateLimitEnabled cfg = false \/ token_id c = 0 ->
  ModelRequestRateLimit cfg RedisEnabled c next w = Next next w.
Proof.
  intros Hu Hm Hd. unfold ModelRequestRateLimit.
  destruct (checkTokenRateLimit_off c w Hm) as [-> _].
  destruct (checkTokenDailyRateLimit_off c w Hd) as [-> _].
  cbn [negb]. rewrite Hu. cbn [negb]. unfold record_key_success.
  destruct (status (Next next w) <? 400); [|reflexivity].
  destruct (checkTokenRateLimit_off c (Next next w) Hm) as [_ ->].
  now destruct (checkTokenDailyRateLimit_off c (Next next w) Hd) as [_ ->].
Qed.

Lemma success_record_not_handler mark ident m d now :
  Forall (fun e => e <> Handler)
    (success_record cfg RedisEnabled mark ident m d now).
Proof.
  unfold success_record, redis_record.
  destruct RedisEnabled; [destruct (m =? 0)|];
    repeat (apply Forall_cons_2; [discriminate|]); apply Forall_nil_2.
Qed.

Lemma records_not_handler c now :
  Forall (fun e => e <> Handler)
    (user_record cfg RedisEnabled c now ++ minute_record cfg RedisEnabled c now
     ++ daily_record cfg RedisEnabled c now).
Proof.
  unfold user_record, minute_record, daily_record.
  repeat apply Forall_app_2;
    repeat match goal with
           | |- context [if ?b then _ else _] =>
               match b with
               | ModelRequestRateLimitEnabled _ => destruct b
               | (_ && _)%bool => destruct b
               end
           end;
    first [apply Forall_nil_2 | apply success_record_not_handler].
Qed.

(** X13. In every run that starts with the chain not aborted the handler
    is called at most once. If it is not called, the chain is aborted and the
    status is an error; if it is called and the final status is an error,
    nothing follows it: no success is recorded in any tier, on either
    backend. *)
Theorem handler_once_records_need_success (c : Request) (next : World -> World)
    (w : World) :
  aborted w = false ->
  let w' := ModelRequestRateLimit cfg RedisEnabled c next w in
  exists checks records,
    Forall (fun e => e <> Handler) checks
    /\ Forall (fun e => e <> Handler) records
    /\ ((trace w' = trace w ++ checks /\ aborted w' = true /\ 400 <= status w')
        \/ (trace w' = trace w ++ checks ++ Handler :: records
            /\ (400 <= status w' -> records = []))).
Proof.
  intros Hab w'.
  destruct (ModelRequestRateLimit_shape cfg RedisEnabled c next w Hab)
    as (checks & Hc & Hshape).
  fold w' in Hshape. exists checks.
  destruct Hshape as [H|Ht].
  - exists []. split; [exact Hc|]. split; [apply Forall_nil_2|]. now left.
  - eexists. split; [exact Hc|]. split; [|right; split; [exact Ht|]].
    + destruct (status w' <? 400); [apply records_not_handler|apply Forall_nil_2].
    + intros Hge.
      now replace (status w' <? 400) with false by (symmetry; apply Z.ltb_ge; lia).
Qed.

(** X14. The per-user handler on the shared backend goes on to [c.Next()]
    after a refusal of the token bucket, and nothing comes of it: the handler
    is not called, nothing is recorded, and the answer is 429 with the message
    of the total limit. *)
Theorem bucket_refusal_skips_handler (d t s : Z) (c : Request)
    (next : World -> World) (w : World) (b : Bucket) :
  0 < t ->
  fst (checkRedisRateLimit cfg
         (marked_key ModelRequestRateLimitSuccessCountMark (itoa (id c))) s d w)
  = (true, None) ->
  tb_Allow (buckets w) (now w) ("rateLimit:" +:+ itoa (id c)) (mul64 t d) t d
  = (inl false, b) ->
  let w' := redisRateLimitHandler cfg d t s c next w in
  response w' = (429, true, body w ++ [(429, user_total_message cfg t)])
  /\ buckets w' = b
  /\ exists S,
      Forall (window_op (marked_key ModelRequestRateLimitSuccessCountMark
                           (itoa (id c)))) S
      /\ trace w' = trace w ++ S
                    ++ [Allow ("rateLimit:" +:+ itoa (id c)) (mul64 t d) t d].
Proof.
  intros Hpos Hok Hallow w'. subst w'. unfold redisRateLimitHandler.
  pose proof (checkRedisRateLimit_frame cfg
                (marked_key ModelRequestRateLimitSuccessCountMark (itoa (id c)))
                s d w) as F.
  destruct (checkRedisRateLimit cfg _ s d w) as [[allowed err] w1].
  cbn in F, Hok. injection Hok as -> ->.
  destruct F as (Hn & Hr & Hb & _ & S & Ht & HS & _).
  unfold response in Hr. injection Hr as Hst Hab Hbody.
  cbn [negb].
  replace (t >? 0) with true by (symmetry; apply Z.gtb_lt; lia).
  unfold tb_allow. rewrite Hb, Hn, Hallow. cbn [negb].
  rewrite Next_aborted by reflexivity. cbn.
  unfold response. cbn. rewrite Hbody.
  split; [reflexivity|]. split; [reflexivity|].
  exists S. split; [exact HS|]. now rewrite Ht, <- app_assoc.
Qed.

(** X15. What the dispatchers of the two per-key tiers ask of the token
    bucket on the shared backend. With the tier on, a token id other than 0 and
    a total limit above 0 in force for the token's group, the dispatcher asks
    the bucket as soon as the success check has passed: the key is that of the
    token id, the rate is the total limit, the cost is the window,
    [TokenRateLimitDurationMinutes * 60] seconds for the minute tier and 86400
    seconds for the daily tier whatever the settings, and the capacity is
    their product in [int64]. With a total limit of 0 or less, the dispatcher
    issues nothing but the commands of the success check. For a daily total
    limit between 0 and 2147483647 the product does not wrap. *)
Theorem key_tiers_bucket_parameters (c : Request) (w : World) :
  RedisEnabled = true ->
  token_id c <> 0 ->
  let minutes := mul64 (TokenRateLimitDurationMinutes cfg) 60 in
  let tm := fst (minute_limits cfg c) in
  let sm := snd (minute_limits cfg c) in
  let td := fst (daily_limits cfg c) in
  let sd := snd (daily_limits cfg c) in
  (TokenRateLimitEnabled cfg = true ->
   exists S,
     Forall (window_op (redis_key MinuteTier Success (token_id c))) S
     /\ (0 < tm ->
         success_list_passes cfg (redis_key MinuteTier Success (token_id c)) sm minutes w ->
         trace (snd (checkTokenRateLimit cfg RedisEnabled c w))
         = trace w ++ S
           ++ [Allow (redis_key MinuteTier Total (token_id c)) (mul64 tm minutes)
                 tm minutes])
     /\ (tm <= 0 ->
         trace (snd (checkTokenRateLimit cfg RedisEnabled c w)) = trace w ++ S))
  /\ (TokenDailyRateLimitEnabled cfg = true ->
      exists S,
        Forall (window_op (redis_key DailyTier Success (token_id c))) S
        /\ (0 < td ->
            success_list_passes cfg (redis_key DailyTier Success (token_id c)) sd 86400 w ->
            trace (snd (checkTokenDailyRateLimit cfg RedisEnabled c w))
            = trace w ++ S
              ++ [Allow (redis_key DailyTier Total (token_id c)) (mul64 td 86400)
                    td 86400])
        /\ (td <= 0 ->
            trace (snd (checkTokenDailyRateLimit cfg RedisEnabled c w)) = trace w ++ S))
  /\ (0 <= td <= MaxInt32 -> mul64 td 86400 = td * 86400).
Proof.
  intros -> Htid minutes tm sm td sd.
  assert (Hkey : forall sM tM sL tL sMsg tMsg k t s d,
             exists S,
               Forall (window_op (marked_key sM k)) S
               /\ (0 < t -> success_list_passes cfg (marked_key sM k) s d w ->
                   trace (snd (check_key_redis cfg sM tM sL tL sMsg tMsg k t s d w))
                   = trace w ++ S ++ [Allow (marked_key tM k) (mul64 t d) t d])
               /\ (t <= 0 ->
                   trace (snd (check_key_redis cfg sM tM sL tL sMsg tMsg k t s d w))
                   = trace w ++ S)).
  { intros sM tM sL tL sMsg tMsg k t s d.
    destruct (check_key_redis_verdict cfg sM tM sL tL sMsg tMsg k t s d w)
      as (S & HS & HS' & Hv).
    exists S. split; [exact HS|]. split.
    - intros Hpos Hpass. unfold success_list_passes in Hpass.
      replace (t >? 0) with true in Hv by (symmetry; apply Z.gtb_lt; lia).
      destruct (s >? 0) eqn:Hs.
      + apply Z.gtb_lt in Hs. rewrite (Hpass Hs) in Hv. apply Hv.
      + apply Hv.
    - intros Hle.
      replace (t >? 0) with false in Hv
        by (symmetry; rewrite Z.gtb_ltb; apply Z.ltb_ge; lia).
      destruct (if s >? 0 then fst (checkRedisRateLimit cfg (marked_key sM k) s d w)
                else (true, None)) as [[|] [e|]]; apply Hv. }
  apply Z.eqb_neq in Htid.
  split; [|split].
  - intros Hon. unfold checkTokenRateLimit. rewrite Hon, Htid. cbn [negb].
    subst tm sm. unfold minute_limits.
    destruct (resolve (GetTokenRateLimit cfg (token_group c)) (TokenRateLimitCount cfg)
                (TokenRateLimitSuccessCount cfg)) as [t s]. cbn [fst snd].
    destruct ((t =? 0) && (s =? 0)) eqn:Hz.
    + apply andb_true_iff in Hz as [Ht Hs]. apply Z.eqb_eq in Ht, Hs. subst t s.
      exists []. split; [apply Forall_nil_2|]. cbn [snd app].
      split; [lia|]. intros _. now rewrite app_nil_r.
    + apply (Hkey TokenRateLimitSuccessCountMark TokenRateLimitCountMark).
  - intros Hon. unfold checkTokenDailyRateLimit. rewrite Hon, Htid. cbn [negb].
    subst td sd. unfold daily_limits.
    destruct (resolve (GetTokenDailyRateLimit cfg (token_group c))
                (TokenDailyRateLimitCount cfg)
                (TokenDailyRateLimitSuccessCount cfg)) as [t s]. cbn [fst snd].
    destruct ((t =? 0) && (s =? 0)) eqn:Hz.
    + apply andb_true_iff in Hz as [Ht Hs]. apply Z.eqb_eq in Ht, Hs. subst t s.
      exists []. split; [apply Forall_nil_2|]. cbn [snd app].
      split; [lia|]. intros _. now rewrite app_nil_r.
    + apply (Hkey TokenDailyRateLimitSuccessCountMark TokenDailyRateLimitCountMark).
  - intros Hr. apply wrap64_small. unfold MinInt64, MaxInt64, MaxInt32 in *. lia.
Qed.

(** X16. A check of a per-key tier, on either backend, that passes leaves
    the clock, the status, the abort flag and the responses as they were; one
    that fails has aborted the chain, set the status to 429 or to 500, and
    written one response, which carries that status. *)
Theorem key_check_outcomes (c : Request) (w : World) :
  forall r,
    r = checkTokenRateLimit cfg RedisEnabled c w
    \/ r = checkTokenDailyRateLimit cfg RedisEnabled c w ->
    now (snd r) = now w
    /\ ((fst r = true /\ response (snd r) = response w)
        \/ (fst r = false
            /\ aborted (snd r) = true
            /\ (status (snd r) = 429 \/ status (snd r) = 500)
            /\ exists message,
                body (snd r) = body w ++ [(status (snd r), message)])).
Proof.
  assert (Hskip : now (snd (true, w)) = now w
                  /\ ((fst (true, w) = true /\ response (snd (true, w)) = response w)
                      \/ (fst (true, w) = false
                          /\ aborted (snd (true, w)) = true
                          /\ (status (snd (true, w)) = 429 \/ status (snd (true, w)) = 500)
                          /\ exists message,
                              body (snd (true, w))
                              = body w ++ [(status (snd (true, w)), message)]))).
  { split; [reflexivity|]. left. now split. }
  assert (Hredis : forall sM tM sL tL sMsg tMsg k t s d,
             let r := check_key_redis cfg sM tM sL tL sMsg tMsg k t s d w in
             now (snd r) = now w
             /\ ((fst r = true /\ response (snd r) = response w)
                 \/ (fst r = false
                     /\ aborted (snd r) = true
                     /\ (status (snd r) = 429 \/ status (snd r) = 500)
                     /\ exists message,
                         body (snd r) = body w ++ [(status (snd r), message)]))).
  { intros sM tM sL tL sMsg tMsg k t s d r. subst r.
    destruct (check_key_redis_cases cfg sM tM sL tL sMsg tMsg k t s d w)
      as (Hn & _ & S & B & _ & _ & _ & _ & Hc).
    split; [exact Hn|].
    destruct Hc as [(Hok & Hr & _)|[(Hok & Hr)|[(Hok & _ & _ & Hr)|(Hok & _ & _ & Hr)]]];
      [left; now split|right..];
      unfold response in Hr; injection Hr as Hst Hab Hbody;
      rewrite Hst, Hab, Hbody; eauto 10. }
  assert (Hmem : forall e sM tM sMsg tMsg k t s d,
             let r := check_key_memory e sM tM sMsg tMsg k t s d w in
             now (snd r) = now w
             /\ ((fst r = true /\ response (snd r) = response w)
                 \/ (fst r = false
                     /\ aborted (snd r) = true
                     /\ (status (snd r) = 429 \/ status (snd r) = 500)
                     /\ exists message,
                         body (snd r) = body w ++ [(status (snd r), message)]))).
  { intros e sM tM sMsg tMsg k t s d r. subst r.
    destruct (check_key_memory_cases e sM tM sMsg tMsg k t s d w)
      as (Hn & _ & _ & C & _ & Hc).
    split; [exact Hn|].
    destruct Hc as [(Hok & Hr & _)|[(Hok & _ & _ & Hr)|(Hok & _ & _ & Hr)]];
      [left; now split|right..];
      unfold response in Hr; injection Hr as Hst Hab Hbody;
      rewrite Hst, Hab, Hbody; eauto 10. }
  intros r [->| ->].
  - unfold checkTokenRateLimit.
    destruct (negb (TokenRateLimitEnabled cfg)); [exact Hskip|].
    destruct (token_id c =? 0); [exact Hskip|].
    destruct (resolve _ _ _) as [t s].
    destruct ((t =? 0) && (s =? 0)); [exact Hskip|].
    destruct RedisEnabled; [apply Hredis|apply Hmem].
  - unfold checkTokenDailyRateLimit.
    destruct (negb (TokenDailyRateLimitEnabled cfg)); [exact Hskip|].
    destruct (token_id c =? 0); [exact Hskip|].
    destruct (resolve _ _ _) as [t s].
    destruct ((t =? 0) && (s =? 0)); [exact Hskip|].
    destruct RedisEnabled; [apply Hredis|apply Hmem].
Qed.

Lemma window_own c key S :
  key ∈ redis_own c -> Forall (window_op key) S -> Forall (own_event true c) S.
Proof.
  intros Hk H. eapply Forall_impl; [exact H|].
  intros e [->|[->|[x ->]]]; split; auto.
Qed.

Lemma redis_record_own c secs key m now :
  key ∈ redis_own c -> Forall (own_event true c) (redis_record secs key m now).
Proof.
  intros Hk. unfold redis_record.
  repeat (apply Forall_cons_2; [split; [reflexivity|exact Hk]|]). apply Forall_nil_2.
Qed.

Lemma check_key_redis_own c sM tM sL tL sMsg tMsg t s d (w : World) :
  marked_key sM (itoa (token_id c)) ∈ redis_own c ->
  marked_key tM (itoa (token_id c)) ∈ redis_own c ->
  exists added,
    trace (snd (check_key_redis cfg sM tM sL tL sMsg tMsg
                  (itoa (token_id c)) t s d w)) = trace w ++ added
    /\ Forall (own_event true c) added.
Proof.
  intros Hs Ht.
  destruct (check_key_redis_cases cfg sM tM sL tL sMsg tMsg (itoa (token_id c)) t s d w)
    as (_ & _ & S & B & Htr & HS & _ & HB & _).
  exists (S ++ B). split; [exact Htr|].
  apply Forall_app_2; [now apply (window_own c _ _ Hs)|].
  destruct HB as [->|[_ ->]]; [apply Forall_nil_2|].
  apply Forall_cons_2; [split; [reflexivity|exact Ht]|apply Forall_nil_2].
Qed.

Lemma check_key_memory_own c e sM tM sMsg tMsg t s d (w : World) :
  (sM +:+ itoa (token_id c)) +:+ "_check" ∈ memory_own c ->
  tM +:+ itoa (token_id c) ∈ memory_own c ->
  exists added,
    trace (snd (check_key_memory e sM tM sMsg tMsg
                  (itoa (token_id c)) t s d w)) = trace w ++ added
    /\ Forall (own_event false c) added.
Proof.
  intros Hs Ht.
  destruct (check_key_memory_cases e sM tM sMsg tMsg (itoa (token_id c)) t s d w)
    as (_ & _ & _ & C & Htr & Hc).
  eexists. split; [exact Htr|].
  apply Forall_cons_2; [reflexivity|]. apply Forall_app_2.
  - destruct (t >? 0); [apply Forall_cons_2; [split; [reflexivity|exact Ht]|]|];
      apply Forall_nil_2.
  - destruct Hc as [(_ & _ & ->)|[(_ & _ & -> & _)|(_ & _ & -> & _)]].
    + destruct (s >? 0); [apply Forall_cons_2; [split; [reflexivity|exact Hs]|]|];
        apply Forall_nil_2.
    + apply Forall_nil_2.
    + apply Forall_cons_2; [split; [reflexivity|exact Hs]|apply Forall_nil_2].
Qed.

Lemma key_check_own (c : Request) (w : World) :
  forall r,
    r = checkTokenRateLimit cfg RedisEnabled c w
    \/ r = checkTokenDailyRateLimit cfg RedisEnabled c w ->
    exists added,
      trace (snd r) = trace w ++ added
      /\ Forall (own_event RedisEnabled c) added.
Proof.
  assert (Hskip : exists added,
             trace (snd (true, w)) = trace w ++ added
             /\ Forall (own_event RedisEnabled c) added).
  { exists []. rewrite app_nil_r. split; [reflexivity|apply Forall_nil_2]. }
  intros r [->| ->].
  - unfold checkTokenRateLimit.
    destruct (negb (TokenRateLimitEnabled cfg)); [exact Hskip|].
    destruct (token_id c =? 0); [exact Hskip|].
    destruct (resolve _ _ _) as [t s].
    destruct ((t =? 0) && (s =? 0)); [exact Hskip|].
    clear Hskip.
    destruct RedisEnabled;
      [apply check_key_redis_own|apply check_key_memory_own]; own_key.
  - unfold checkTokenDailyRateLimit.
    destruct (negb (TokenDailyRateLimitEnabled cfg)); [exact Hskip|].
    destruct (token_id c =? 0); [exact Hskip|].
    destruct (resolve _ _ _) as [t s].
    destruct ((t =? 0) && (s =? 0)); [exact Hskip|].
    clear Hskip.
    destruct RedisEnabled;
      [apply check_key_redis_own|apply check_key_memory_own]; own_key.
Qed.

Lemma user_handler_own d t s c next (w : World) :
  aborted w = false ->
  exists added,
    trace (if RedisEnabled
           then redisRateLimitHandler cfg d t s c next w
           else memoryRateLimitHandler cfg d t s c next w) = trace w ++ added
    /\ Forall (own_event RedisEnabled c) added.
Proof.
  intros Hab.
  assert (Hsk : marked_key ModelRequestRateLimitSuccessCountMark (itoa (id c))
                ∈ redis_own c) by own_key.
  assert (Htk : "rateLimit:" +:+ itoa (id c) ∈ redis_own c) by own_key.
  assert (Hmt : ModelRequestRateLimitCountMark +:+ itoa (id c) ∈ memory_own c)
    by own_key.
  assert (Hms : ModelRequestRateLimitSuccessCountMark +:+ itoa (id c) ∈ memory_own c)
    by own_key.
  assert (Hmp : (ModelRequestRateLimitSuccessCountMark +:+ itoa (id c)) +:+ "_check"
                ∈ memory_own c) by own_key.
  destruct RedisEnabled.
  - destruct (redisRateLimitHandler_cases cfg d t s c next w Hab)
      as (S & B & HS & _ & HB & Hc).
    assert (HS' : Forall (own_event true c) S) by (now apply (window_own c _ _ Hsk)).
    assert (HB' : Forall (own_event true c) B).
    { destruct HB as [->|[_ ->]]; [apply Forall_nil_2|].
      apply Forall_cons_2; [split; [reflexivity|exact Htk]|apply Forall_nil_2]. }
    destruct Hc as [(Ht & _)|[(Ht & _)|[(Ht & _)|(_ & Ht)]]].
    1-3: exists (S ++ B); split; [exact Ht|now apply Forall_app_2].
    eexists. split; [exact Ht|].
    apply Forall_app_2; [exact HS'|]. apply Forall_app_2; [exact HB'|].
    apply Forall_cons_2; [exact I|].
    destruct (_ <? 400); [|apply Forall_nil_2].
    destruct (s =? 0); [apply Forall_nil_2|now apply redis_record_own].
  - assert (Htot : Forall (own_event false c)
                     (if t >? 0
                      then [MemRequest (ModelRequestRateLimitCountMark +:+ itoa (id c)) t d]
                      else [])).
    { destruct (t >? 0); [apply Forall_cons_2; [split; [reflexivity|exact Hmt]|]|];
        apply Forall_nil_2. }
    destruct (memoryRateLimitHandler_cases cfg d t s c next w Hab)
      as [(_ & Ht & _)|[(Ht & _)|Ht]];
      (eexists; split; [exact Ht|]);
      (apply Forall_cons_2; [reflexivity|]).
    + exact Htot.
    + apply Forall_app_2; [exact Htot|].
      apply Forall_cons_2; [split; [reflexivity|exact Hmp]|apply Forall_nil_2].
    + apply Forall_app_2; [exact Htot|].
      apply Forall_cons_2; [split; [reflexivity|exact Hmp]|].
      apply Forall_cons_2; [exact I|].
      destruct (_ <? 400);
        [apply Forall_cons_2; [split; [reflexivity|exact Hms]|]|]; apply Forall_nil_2.
Qed.

Lemma success_record_own c mark ident m d now :
  marked_key mark (itoa ident) ∈ redis_own c -> mark +:+ itoa ident ∈ memory_own c ->
  Forall (own_event RedisEnabled c)
    (success_record cfg RedisEnabled mark ident m d now).
Proof.
  intros Hr Hm. unfold success_record. destruct RedisEnabled.
  - destruct (m =? 0); [apply Forall_nil_2|now apply redis_record_own].
  - apply Forall_cons_2; [split; [reflexivity|exact Hm]|apply Forall_nil_2].
Qed.

Lemma key_records_own c now :
  Forall (own_event RedisEnabled c)
    (minute_record cfg RedisEnabled c now ++ daily_record cfg RedisEnabled c now).
Proof.
  unfold minute_record, daily_record.
  apply Forall_app_2;
    match goal with |- context [if ?b then _ else _] => destruct b end;
    first [apply Forall_nil_2 | apply success_record_own; own_key].
Qed.

(** X18. A run of the middleware that starts with the chain not aborted
    touches no counter but those of its own request, and those on one backend
    only. With the shared backend enabled every operation it issues is a
    command of that backend or a question to the token bucket, never a call of
    the in-process limiter; with it disabled every operation is a call of the
    in-process limiter. In both cases the key is one of the request's user id
    in the per-user tier or of its token id in the two per-key tiers. *)
Theorem request_touches_own_counters (c : Request) (next : World -> World)
    (w : World) :
  aborted w = false ->
  exists added,
    trace (ModelRequestRateLimit cfg RedisEnabled c next w) = trace w ++ added
    /\ Forall (own_event RedisEnabled c) added.
Proof.
  intros Hab. unfold ModelRequestRateLimit.
  destruct (key_check_own c w (checkTokenRateLimit cfg RedisEnabled c w))
    as (a1 & Ht1 & Ha1); [now left|].
  destruct (checkTokenRateLimit_admission cfg RedisEnabled c w) as (_ & _ & _ & _ & Hc1).
  destruct (checkTokenRateLimit cfg RedisEnabled c w) as [ok1 w1].
  cbn [fst snd] in *.
  destruct Hc1 as [[-> Hr1]|(-> & _)]; cbn [negb]; [|exists a1; now split].
  unfold response in Hr1. injection Hr1 as _ Hab1 _.
  destruct (key_check_own c w1 (checkTokenDailyRateLimit cfg RedisEnabled c w1))
    as (a2 & Ht2 & Ha2); [now right|].
  destruct (checkTokenDailyRateLimit_admission cfg RedisEnabled c w1)
    as (_ & _ & _ & _ & Hc2).
  destruct (checkTokenDailyRateLimit cfg RedisEnabled c w1) as [ok2 w2].
  cbn [fst snd] in *.
  assert (Ht12 : trace w2 = trace w ++ a1 ++ a2)
    by (rewrite Ht2, Ht1, <- app_assoc; reflexivity).
  assert (Ha12 : Forall (own_event RedisEnabled c) (a1 ++ a2))
    by (now apply Forall_app_2).
  destruct Hc2 as [[-> Hr2]|(-> & _)]; cbn [negb]; [|exists (a1 ++ a2); now split].
  unfold response in Hr2. injection Hr2 as _ Hab2 _.
  assert (Hab3 : aborted w2 = false) by congruence.
  assert (Hrec : forall (w3 : World) a3,
             trace w3 = trace w2 ++ a3 -> Forall (own_event RedisEnabled c) a3 ->
             exists added,
               trace (record_key_success cfg RedisEnabled c w3) = trace w ++ added
               /\ Forall (own_event RedisEnabled c) added).
  { intros w3 a3 Ht3 Ha3.
    destruct (record_key_success_frame cfg RedisEnabled c w3) as (_ & _ & Ht).
    eexists. split.
    - rewrite Ht, Ht3, Ht12, <- !app_assoc. reflexivity.
    - repeat apply Forall_app_2; try assumption.
      destruct (status w3 <? 400); [apply key_records_own|apply Forall_nil_2]. }
  destruct (negb (ModelRequestRateLimitEnabled cfg)).
  - apply (Hrec (Next next w2) [Handler]).
    + now apply Next_ran.
    + apply Forall_cons_2; [exact I|apply Forall_nil_2].
  - destruct (resolve _ _ _) as [t s].
    destruct (user_handler_own (mul64 (ModelRequestRateLimitDurationMinutes cfg) 60)
                t s c next w2 Hab3) as (a3 & Ht3 & Ha3).
    now apply (Hrec _ a3).
Qed.

(** X19. A request that the success limit of a per-key tier refuses on the
    shared backend is not charged to the total limit: the token bucket is not
    asked and its state is as before. *)
Theorem success_refusal_spares_bucket (sM tM sL tL sMsg tMsg k : string) (t s d : Z)
    (w : World) :
  0 < s ->
  fst (checkRedisRateLimit cfg (marked_key sM k) s d w) = (false, None) ->
  let r := check_key_redis cfg sM tM sL tL sMsg tMsg k t s d w in
  fst r = false
  /\ buckets (snd r) = buckets w
  /\ response (snd r) = (429, true, body w ++ [(429, sMsg)])
  /\ trace (snd r) = trace w ++ [LLen (marked_key sM k); LIndex (marked_key sM k) (-1);
                                 Expire (marked_key sM k)
                                   (minutes_seconds
                                      (ModelRequestRateLimitDurationMinutes cfg))].
Proof.
  intros Hs Hno r. subst r. unfold check_key_redis.
  replace (s >? 0) with true by (symmetry; apply Z.gtb_lt; lia).
  revert Hno. unfold checkRedisRateLimit.
  replace (s =? 0) with false by (symmetry; apply Z.eqb_neq; lia).
  unfold rdb_LLen, rdb_LIndex, rdb_Expire.
  destruct (Redis.LLen (now w) (marked_key sM k) (rdb w)) as [len|]; cbn;
    [|discriminate].
  destruct (len <? s); cbn; [discriminate|].
  destruct (Redis.LIndex (now w) (marked_key sM k) (-1) (rdb w)) as [old|]; cbn;
    [|discriminate].
  destruct (now w - old <? d); cbn; [|discriminate].
  intros _. unfold response. cbn. rewrite <- !app_assoc. repeat split.
Qed.

End MiddlewareMore.

(** * The further properties at the sample inputs *)

Section SamplesMore.

Import setting middleware observe.

Lemma record_keeps_newest_witness :
  Redis.get 130 "rateLimit:TRLS:7"
    (rdb (recordRedisRequest sample.all_on "rateLimit:TRLS:7" 2
            (sample.world 120 sample.full_list)))
  = Some ([120; 100], Some 180).
Proof.
  destruct (record_keeps_newest sample.all_on "rateLimit:TRLS:7" 2
              (sample.world 120 sample.full_list) 130)
    as (_ & H & _); [reflexivity|reflexivity|reflexivity|].
  apply H. reflexivity.
Defined.

Lemma check_admits_below_limit_witness :
  fst (checkRedisRateLimit sample.all_on "rateLimit:TRLS:7" 3 60
         (sample.world 120 sample.full_list)) = (true, None)
  /\ fst (checkRedisRateLimit sample.all_on "rateLimit:TRLS:7" 2 60
            (sample.world 200 sample.full_list)) = (true, None).
Proof.
  split.
  - apply (check_admits_below_limit sample.all_on "rateLimit:TRLS:7" 3 60
             (sample.world 120 sample.full_list)); reflexivity.
  - apply (check_admits_below_limit sample.all_on "rateLimit:TRLS:7" 2 60
             (sample.world 200 sample.full_list)); reflexivity.
Defined.


Lemma window_counts_recorded_successes_witness :
  fst (checkRedisRateLimit sample.all_on "rateLimit:TRLS:7" 2 60
         (at_time 150 (record_each sample.all_on "rateLimit:TRLS:7" 2 [100; 110; 130]
                         (sample.world 100 ∅))))
  = (false, None).
Proof.
  rewrite (window_counts_recorded_successes sample.all_on "rateLimit:TRLS:7" 2 60
             100 [110; 130] (sample.world 100 ∅) 150);
    [reflexivity|reflexivity|reflexivity|reflexivity|reflexivity
    |vm_compute; repeat split; discriminate
    |vm_compute; split; [discriminate|reflexivity]].
Defined.

Lemma backend_down_answers_500_witness :
  response (snd (checkTokenRateLimitRedis sample.all_on "7" 20 6 60 (sample.world_down 120)))
  = (500, true, [(500, "rate_limit_check_failed")])
  /\ trace (redisRateLimitHandler sample.all_on 60 10 5 sample.request sample.handler_ok
              (sample.world_down 120))
     = [LLen "rateLimit:MRRLS:1"].
Proof.
  destruct (backend_down_answers_500 sample.all_on "7" 20 6 60 sample.request
              sample.handler_ok (sample.world_down 120) eq_refl)
    as (_ & Hk & _ & _).
  destruct (backend_down_answers_500 sample.all_on "7" 10 5 60 sample.request
              sample.handler_ok (sample.world_down 120) eq_refl)
    as (_ & _ & _ & Hu).
  split.
  - apply Hk. reflexivity.
  - apply Hu. discriminate.
Defined.

Lemma middleware_transparent_when_off_witness :
  ModelRequestRateLimit setting.initial true sample.request sample.handler_ok
    (sample.world 170 ∅)
  = Next sample.handler_ok (sample.world 170 ∅).
Proof.
  apply (middleware_transparent_when_off setting.initial true sample.request
           sample.handler_ok (sample.world 170 ∅));
    [reflexivity|left; reflexivity|left; reflexivity].
Defined.

Lemma handler_once_records_need_success_witness :
  exists checks records,
    Forall (fun e => e <> Handler) checks
    /\ Forall (fun e => e <> Handler) records
    /\ ((trace (ModelRequestRateLimit sample.all_on false sample.request
                  sample.handler_ok (sample.world 170 ∅)) = checks
         /\ aborted (ModelRequestRateLimit sample.all_on false sample.request
                       sample.handler_ok (sample.world 170 ∅)) = true
         /\ 400 <= status (ModelRequestRateLimit sample.all_on false sample.request
                             sample.handler_ok (sample.world 170 ∅)))
        \/ (trace (ModelRequestRateLimit sample.all_on false sample.request
                     sample.handler_ok (sample.world 170 ∅))
            = checks ++ Handler :: records
            /\ (400 <= status (ModelRequestRateLimit sample.all_on false sample.request
                                 sample.handler_ok (sample.world 170 ∅)) ->
                records = []))).
Proof.
  apply (handler_once_records_need_success sample.all_on false sample.request
           sample.handler_ok (sample.world 170 ∅)).
  reflexivity.
Defined.

Lemma bucket_refusal_skips_handler_witness :
  response (redisRateLimitHandler sample.all_on 60 10 5 sample.request
              sample.handler_ok (sample.drained_world 170))
  = (429, true, [(429, user_total_message sample.all_on 10)])
  /\ trace (redisRateLimitHandler sample.all_on 60 10 5 sample.request
              sample.handler_ok (sample.drained_world 170))
     = [LLen "rateLimit:MRRLS:1"; Allow "rateLimit:1" 600 10 60].
Proof.
  destruct (bucket_refusal_skips_handler sample.all_on 60 10 5 sample.request
              sample.handler_ok (sample.drained_world 170)
              ({[ "rateLimit:1" := (0, 170) ]} : gmap string (Z * Z)))
    as (Hr & _ & S & _ & Ht);
    [reflexivity|vm_compute; reflexivity|vm_compute; reflexivity|].
  split; [exact Hr|]. vm_compute. reflexivity.
Defined.

Lemma key_tiers_bucket_parameters_witness :
  exists S,
    trace (snd (checkTokenDailyRateLimit sample.all_on true sample.request
                  (sample.world 170 ∅)))
    = S ++ [Allow "rateLimit:TDRL:7" 2592000 30 86400].
Proof.
  destruct (key_tiers_bucket_parameters sample.all_on true sample.request
              (sample.world 170 ∅) eq_refl)
    as (_ & Hdaily & _); [discriminate|].
  destruct (Hdaily eq_refl) as (S & _ & Ht & _).
  exists S. apply Ht; [reflexivity|].
  intros _. vm_compute. reflexivity.
Defined.

Lemma key_check_outcomes_witness :
  now (snd (checkTokenRateLimit sample.all_on false sample.request (sample.world 170 ∅)))
  = 170.
Proof.
  destruct (key_check_outcomes sample.all_on false sample.request (sample.world 170 ∅)
              (checkTokenRateLimit sample.all_on false sample.request (sample.world 170 ∅)))
    as [H _]; [now left|exact H].
Defined.

Lemma request_touches_own_counters_witness :
  exists added,
    trace (ModelRequestRateLimit sample.all_on true sample.request sample.handler_ok
             (sample.world 170 ∅)) = added
    /\ Forall (own_event true sample.request) added.
Proof.
  apply (request_touches_own_counters sample.all_on true sample.request
           sample.handler_ok (sample.world 170 ∅)).
  reflexivity.
Defined.

Lemma success_refusal_spares_bucket_witness :
  buckets (snd (checkTokenRateLimitRedis sample.all_on "7" 20 2 60
                  (sample.world 120 sample.full_list)))
  = buckets (sample.world 120 sample.full_list).
Proof.
  destruct (success_refusal_spares_bucket sample.all_on
              TokenRateLimitSuccessCountMark TokenRateLimitCountMark
              "检查密钥成功请求数限制失败:" "检查密钥总请求数限制失败:"
              (key_success_message sample.all_on 2) (key_total_message sample.all_on 20)
              "7" 20 2 60 (sample.world 120 sample.full_list))
    as (_ & H & _); [reflexivity|vm_compute; reflexivity|exact H].
Defined.

End SamplesMore.
